(** * OBJ mesh loader: GeometryData::loadFromOBJFile (src/geometry.cpp)

    A shallow embedding of the Wavefront OBJ loader of the viewer and of the
    per-face expansion pass that follows it, with the facts the design
    document states about them.

    The loader reads a [std::ifstream] character by character.  The stream is
    modelled with its three state bits, the text still to be read and the text
    already read (for [unget]).  The [while(!inStream.eof())] loop is a step
    function iterated under fuel: on malformed input the loop of the source
    need not terminate, and the model keeps that. *)

From Stdlib Require Import ZArith Ascii String List Bool Lia.
From Stdlib Require DecimalString DecimalZ DecimalN DecimalPos DecimalFacts.
Import ListNotations.

Local Open Scope char_scope.
Local Open Scope Z_scope.

(** ** Machine integers *)

Definition INT_MAX : Z := 2147483647.
Definition INT_MIN : Z := -2147483648.

(** Conversion to a 32-bit [int] (two's complement). *)
Definition wrap_int (z : Z) : Z := (z + 2147483648) mod 4294967296 - 2147483648.

(** [int] subtraction.  Signed overflow is undefined in C++; the embedding
    takes the two's-complement result. *)
Definition int_sub (a b : Z) : Z := wrap_int (a - b).

(** ** Characters *)

(** [isspace] in the "C" locale: space, \t, \n, \v, \f, \r. *)
Definition is_space (c : ascii) : bool :=
  match c with
  | " " | "009" | "010" | "011" | "012" | "013" => true
  | _ => false
  end.

Definition newline : ascii := "010".
Definition tab : ascii := "009".

Definition digit_of_ascii (c : ascii) : option Z :=
  match c with
  | "9" => Some 9 | "8" => Some 8 | "7" => Some 7 | "6" => Some 6 | "5" => Some 5
  | "4" => Some 4 | "3" => Some 3 | "2" => Some 2 | "1" => Some 1 | "0" => Some 0
  | _ => None
  end.

Definition is_digit (c : ascii) : bool :=
  match digit_of_ascii c with Some _ => true | None => false end.

(** [char c = inStream.get()]: the [int] result narrowed to [char].
    [Traits::eof()] is -1, which narrows to the byte 255. *)
Definition char_of_get (r : option ascii) : ascii :=
  match r with Some c => c | None => "255" end.

(** ** std::istream *)

Module IStream.

Record t : Type := Mk {
  consumed : list ascii;   (* text already extracted, most recent first *)
  pending : list ascii;    (* text still to be read *)
  eofbit : bool;
  failbit : bool;
  badbit : bool
}.

Definition of_text (text : list ascii) : t := Mk [] text false false false.

Definition good (s : t) : bool := negb (eofbit s || failbit s || badbit s).
Definition eof (s : t) : bool := eofbit s.
Definition fail (s : t) : bool := failbit s || badbit s.

Definition set_fail (s : t) : t :=
  Mk (consumed s) (pending s) (eofbit s) true (badbit s).
Definition set_eof (s : t) : t :=
  Mk (consumed s) (pending s) true (failbit s) (badbit s).
Definition set_bad (s : t) : t :=
  Mk (consumed s) (pending s) (eofbit s) (failbit s) true.
Definition clear_eof (s : t) : t :=
  Mk (consumed s) (pending s) false (failbit s) (badbit s).

(** Extracts and discards leading whitespace; reports whether the end of the
    text was reached while doing so. *)
Fixpoint skip_space (past rest : list ascii) : list ascii * list ascii :=
  match rest with
  | c :: rest' => if is_space c then skip_space (c :: past) rest' else (past, rest)
  | [] => (past, [])
  end.

(** [inStream >> ws]: an unformatted input function, so a stream that is not
    good only gets [failbit]; reaching the end sets [eofbit] alone. *)
Definition ws (s : t) : t :=
  if good s then
    let '(past, rest) := skip_space (consumed s) (pending s) in
    match rest with
    | [] => Mk past [] true (failbit s) (badbit s)
    | _ => Mk past rest (eofbit s) (failbit s) (badbit s)
    end
  else set_fail s.

(** [inStream.get()]: [None] is [Traits::eof()]. *)
Definition get (s : t) : option ascii * t :=
  if good s then
    match pending s with
    | c :: rest => (Some c, Mk (c :: consumed s) rest (eofbit s) (failbit s) (badbit s))
    | [] => (None, set_fail (set_eof s))
    end
  else (None, set_fail s).

(** [inStream.unget()] (C++11): clears [eofbit] first, then, if the stream is
    good, steps back over the last extracted character. *)
Definition unget (s : t) : t :=
  let s := clear_eof s in
  if good s then
    match consumed s with
    | c :: past => Mk past (c :: pending s) (eofbit s) (failbit s) (badbit s)
    | [] => set_bad s
    end
  else set_fail s.

(** The sentry of a formatted input function ([skipws] is set): skips
    whitespace; an exhausted stream gets [eofbit] and [failbit]. *)
Definition sentry (s : t) : bool * t :=
  if good s then
    let '(past, rest) := skip_space (consumed s) (pending s) in
    match rest with
    | [] => (false, Mk past [] true true (badbit s))
    | _ => (true, Mk past rest (eofbit s) (failbit s) (badbit s))
    end
  else (false, set_fail s).

(** Maximal run of decimal digits, accumulated in base 10. *)
Fixpoint scan_digits (acc : Z) (n : nat) (past rest : list ascii)
  : Z * nat * list ascii * list ascii :=
  match rest with
  | c :: rest' =>
      match digit_of_ascii c with
      | Some d => scan_digits (10 * acc + d) (S n) (c :: past) rest'
      | None => (acc, n, past, rest)
      end
  | [] => (acc, n, past, [])
  end.

(** [num_get] for an integer field in base 10: an optional sign and a run of
    digits.  Returns the value stored, whether the conversion failed, and the
    two halves of the text. *)
Definition num_get_int (past rest : list ascii) : Z * bool * list ascii * list ascii :=
  let '(negative, past1, rest1) :=
    match rest with
    | "-" :: r => (true, "-" :: past, r)
    | "+" :: r => (false, "+" :: past, r)
    | _ => (false, past, rest)
    end in
  let '(magnitude, ndigits, past2, rest2) := scan_digits 0 0 past1 rest1 in
  match ndigits with
  | O => (0, true, past2, rest2)
  | S _ =>
      let v := if negative then - magnitude else magnitude in
      if INT_MAX <? v then (INT_MAX, true, past2, rest2)
      else if v <? INT_MIN then (INT_MIN, true, past2, rest2)
      else (v, false, past2, rest2)
  end.

(** [inStream >> n] for [int n]: [old] is the value of the variable before
    the call, kept when the sentry refuses the stream. *)
Definition extract_int (old : Z) (s : t) : Z * t :=
  let '(ok, s1) := sentry s in
  if ok then
    let '(v, failed, past, rest) := num_get_int (consumed s1) (pending s1) in
    (v, Mk past rest
          (match rest with [] => true | _ => eofbit s1 end)
          (failed || failbit s1) (badbit s1))
  else (old, s1).

End IStream.

(** ** float

    The loader stores and combines [float] values but never branches on one.
    The arithmetic and the text-to-float conversion of the C++ library are
    therefore an interface; every statement below holds for each
    implementation of it. *)

Class FloatOps : Type := {
  float : Type;
  (** the literal [1.0f] *)
  fone : float;
  (** content of a local [float] that was declared but never assigned *)
  findeterminate : float;
  fadd : float -> float -> float;
  fsub : float -> float -> float;
  fmul : float -> float -> float;
  fdiv : float -> float -> float;
  fsqrt : float -> float;
  (** [num_get] for a floating-point field on the text that starts at a
      non-blank character: the value stored (0 when no number is found, the
      largest magnitude when it is out of range), whether the conversion
      failed, and how many characters were extracted *)
  num_get_float : list ascii -> float * bool * nat
}.

Module Import FloatNotations.
Declare Scope float_scope.
Delimit Scope float_scope with fl.
Infix "+" := fadd : float_scope.
Infix "-" := fsub : float_scope.
Infix "*" := fmul : float_scope.
Infix "/" := fdiv : float_scope.
End FloatNotations.

(** [inStream >> x] for [float x]. *)
Definition extract_float `{FloatOps} (old : float) (s : IStream.t) : float * IStream.t :=
  let '(ok, s1) := IStream.sentry s in
  if ok then
    let '(v, failed, n) := num_get_float (IStream.pending s1) in
    let rest := skipn n (IStream.pending s1) in
    (v, IStream.Mk (rev (firstn n (IStream.pending s1)) ++ IStream.consumed s1) rest
          (match rest with [] => true | _ => IStream.eofbit s1 end)
          (failed || IStream.failbit s1) (IStream.badbit s1))
  else (old, s1).

(** ** geometry.h *)

(** [int a[3]] *)
Definition int3 : Type := list Z.
Definition int3_zero : int3 := [0; 0; 0].
Definition int3_get (a : int3) (k : nat) : Z := nth k a 0.
Fixpoint int3_set (a : int3) (k : nat) (v : Z) : int3 :=
  match a, k with
  | [], _ => []
  | _ :: a', O => v :: a'
  | x :: a', S k' => x :: int3_set a' k' v
  end.

Record FaceData : Type := MkFace {
  vertexIndex : int3;
  texCoordIndex : int3;
  normalIndex : int3
}.

(** [FaceData face = {};] *)
Definition FaceData_zero : FaceData := MkFace int3_zero int3_zero int3_zero.

Record GeometryData `{FloatOps} : Type := MkGeometry {
  vertices : list float;
  textureCoords : list float;
  normals : list float;
  tangents : list float;
  bitangents : list float;
  faces : list FaceData
}.
Arguments MkGeometry {_} _ _ _ _ _ _.

(** A default-constructed [GeometryData]: six empty vectors. *)
Definition GeometryData_new `{FloatOps} : GeometryData := MkGeometry [] [] [] [] [] [].

(** [int GeometryData::vertexCount()]: [vertices.size()/3] narrowed to [int]. *)
Definition vertexCount `{FloatOps} (g : GeometryData) : Z :=
  wrap_int (Z.of_nat (length (vertices g)) / 3).

(** ** Console output *)

Inductive diagnostic : Type :=
  | UnableToOpen (filename : string)
  | ExpectedDirective (typeChar1 typeChar2 : ascii)
  | FreeFormUnsupported
  | UnsupportedEntry (typeChar2 : ascii)
  | Loaded (count : Z).

Definition decimal (z : Z) : string :=
  DecimalString.NilZero.string_of_int (Z.to_int z).

(** The lines each diagnostic puts on [cout]. *)
Definition diagnostic_lines (d : diagnostic) : list string :=
  match d with
  | UnableToOpen filename => [("Unable to open obj file: " ++ filename)%string]
  | ExpectedDirective c1 c2 =>
      ["OBJ parse error: Expected 'v', 'f' or '#' at the start of the line"%string;
       ("Found: " ++ String c1 (String c2 EmptyString))%string]
  | FreeFormUnsupported =>
      ["OBJ parse error: Free-form geometry is not supported, ignoring"%string]
  | UnsupportedEntry c2 =>
      [("Unsupported data entry v" ++ String c2 ", ignoring")%string]
  | Loaded count =>
      [("Successfully loaded an OBJ with " ++ decimal count ++ " vertices ")%string]
  end.

(** ** The reading loop of loadFromOBJFile *)

Inductive OBJDataType : Type :=
  | NONE | VERTEX | TEXTURECOORD | NORMAL | FACE | COMMENT.

Section Loader.
Context `{FO : FloatOps}.

(** The locals of [loadFromOBJFile] that live across iterations of the
    [while] loop, and [cout]. *)
Record loader : Type := MkLoader {
  inStream : IStream.t;
  currentDataType : OBJDataType;
  tempGeom : GeometryData;
  cout : list diagnostic
}.

Definition push_vertices (g : GeometryData) (l : list float) : GeometryData :=
  MkGeometry (vertices g ++ l) (textureCoords g) (normals g) (tangents g)
             (bitangents g) (faces g).
Definition push_textureCoords (g : GeometryData) (l : list float) : GeometryData :=
  MkGeometry (vertices g) (textureCoords g ++ l) (normals g) (tangents g)
             (bitangents g) (faces g).
Definition push_normals (g : GeometryData) (l : list float) : GeometryData :=
  MkGeometry (vertices g) (textureCoords g) (normals g ++ l) (tangents g)
             (bitangents g) (faces g).
Definition push_face (g : GeometryData) (f : FaceData) : GeometryData :=
  MkGeometry (vertices g) (textureCoords g) (normals g) (tangents g)
             (bitangents g) (faces g ++ [f]).

(** The running locals [vertIndex], [texCoordIndex], [normalIndex] of the FACE
    case: declared before the corner loop, so a corner that reads no value
    for one of them sees what the previous corner left there. *)
Record corner_vars : Type := MkVars {
  vertIndex : Z;
  texCoordIndex_var : Z;
  normalIndex_var : Z
}.

(** Body of [for(int index=0; index<3; index++)] up to the three stores. *)
Definition read_corner (vars : corner_vars) (s : IStream.t) : corner_vars * IStream.t :=
  let '(vi, s) := IStream.extract_int (vertIndex vars) s in
  let '(postVertexCheckChar, s) := IStream.get s in
  if Ascii.eqb (char_of_get postVertexCheckChar) "/" then
    let '(texCoordExistCheckChar, s) := IStream.get s in
    let s := IStream.unget s in
    let '(ti, s) :=
      if negb (Ascii.eqb (char_of_get texCoordExistCheckChar) "/")
      then IStream.extract_int (texCoordIndex_var vars) s
      else (texCoordIndex_var vars, s) in
    let '(postTexCoordCheckChar, s) := IStream.get s in
    if Ascii.eqb (char_of_get postTexCoordCheckChar) "/" then
      let '(ni, s) := IStream.extract_int (normalIndex_var vars) s in
      (MkVars vi ti ni, s)
    else
      (MkVars vi ti (normalIndex_var vars), IStream.unget s)
  else
    (MkVars vi (texCoordIndex_var vars) (normalIndex_var vars), s).

(** The three stores that end the body: the OBJ indices are 1-based. *)
Definition store_corner (face : FaceData) (index : nat) (vars : corner_vars) : FaceData :=
  MkFace (int3_set (vertexIndex face) index (int_sub (vertIndex vars) 1))
         (int3_set (texCoordIndex face) index (int_sub (texCoordIndex_var vars) 1))
         (int3_set (normalIndex face) index (int_sub (normalIndex_var vars) 1)).

Fixpoint corner_loop (indices : list nat) (vars : corner_vars) (face : FaceData)
    (s : IStream.t) : FaceData * IStream.t :=
  match indices with
  | [] => (face, s)
  | index :: more =>
      let '(vars, s) := read_corner vars s in
      corner_loop more vars (store_corner face index vars) s
  end.

(** [case FACE:] up to [push_back]. *)
Definition read_face (s : IStream.t) : FaceData * IStream.t :=
  corner_loop [0%nat; 1%nat; 2%nat] (MkVars 0 0 0) FaceData_zero s.

(** [inStream >> x >> y >> z] on fresh locals. *)
Definition read_floats (n : nat) (s : IStream.t) : list float * IStream.t :=
  (fix go (n : nat) (s : IStream.t) : list float * IStream.t :=
     match n with
     | O => ([], s)
     | S n' =>
         let '(x, s) := extract_float findeterminate s in
         let '(xs, s) := go n' s in
         (x :: xs, s)
     end) n s.

Definition with_stream (st : loader) (s : IStream.t) (next : OBJDataType) : loader :=
  MkLoader s next (tempGeom st) (cout st).

(** One iteration of the body of [while(!inStream.eof())]. *)
Definition step (st : loader) : loader :=
  match currentDataType st with
  | NONE =>
      let s := IStream.ws (inStream st) in
      let '(r1, s) := IStream.get s in
      let typeChar1 := char_of_get r1 in
      if IStream.eof s then with_stream st s NONE
      else
        let '(r2, s) := IStream.get s in
        let typeChar2 := char_of_get r2 in
        if Ascii.eqb typeChar1 "#" then with_stream st s COMMENT
        else if Ascii.eqb typeChar1 "f" then with_stream st s FACE
        else if negb (Ascii.eqb typeChar1 "v") then
          MkLoader s NONE (tempGeom st)
                   (cout st ++ [ExpectedDirective typeChar1 typeChar2])
        else if Ascii.eqb typeChar2 " " || Ascii.eqb typeChar2 tab then
          with_stream st s VERTEX
        else if Ascii.eqb typeChar2 "t" then with_stream st s TEXTURECOORD
        else if Ascii.eqb typeChar2 "n" then with_stream st s NORMAL
        else if Ascii.eqb typeChar2 "p" then
          MkLoader s COMMENT (tempGeom st) (cout st ++ [FreeFormUnsupported])
        else
          MkLoader s COMMENT (tempGeom st) (cout st ++ [UnsupportedEntry typeChar2])
  | VERTEX =>
      let '(xyz, s) := read_floats 3 (inStream st) in
      MkLoader s COMMENT (push_vertices (tempGeom st) xyz) (cout st)
  | TEXTURECOORD =>
      let '(uv, s) := read_floats 2 (inStream st) in
      MkLoader s COMMENT (push_textureCoords (tempGeom st) uv) (cout st)
  | NORMAL =>
      let '(xyz, s) := read_floats 3 (inStream st) in
      MkLoader s COMMENT (push_normals (tempGeom st) xyz) (cout st)
  | FACE =>
      let '(face, s) := read_face (inStream st) in
      MkLoader s COMMENT (push_face (tempGeom st) face) (cout st)
  | COMMENT =>
      let '(nextChar, s) := IStream.get (inStream st) in
      match nextChar with
      | Some c => if Ascii.eqb c newline then with_stream st s NONE
                  else with_stream st s COMMENT
      | None => with_stream st s COMMENT
      end
  end.

(** [while(!inStream.eof()) { ... }]: [None] when the fuel runs out before
    [eofbit] is set. *)
Fixpoint read_loop (fuel : nat) (st : loader) : option loader :=
  if IStream.eof (inStream st) then Some st
  else match fuel with
       | O => None
       | S fuel' => read_loop fuel' (step st)
       end.

End Loader.

(** ** The expansion pass of loadFromOBJFile *)

Module Import OptionNotations.
Notation "x <- m ;; k" :=
  (match m with Some x => k | None => None end)
  (at level 61, m at next level, right associativity).
End OptionNotations.

(** An [int] expression: [None] is signed overflow, which is undefined. *)
Definition int_checked (z : Z) : option Z :=
  if (INT_MIN <=? z) && (z <=? INT_MAX) then Some z else None.

(** [v[i]] on a [std::vector]: [None] is an access outside the vector, which
    is undefined. *)
Definition vec_at {A : Type} (v : list A) (i : Z) : option A :=
  if 0 <=? i then nth_error v (Z.to_nat i) else None.

Section Expander.
Context `{FO : FloatOps}.

(** [for(int i=0; i<n; i++) out.push_back(pool[(stride*index)+i]);] *)
Fixpoint copy_components (pool : list float) (stride index : Z) (offsets : list Z)
    (out : list float) : option (list float) :=
  match offsets with
  | [] => Some out
  | i :: more =>
      base <- int_checked (stride * index) ;;
      position <- int_checked (base + i) ;;
      x <- vec_at pool position ;;
      copy_components pool stride index more (out ++ [x])
  end.

(** Body of [for(int vertIndex=0; vertIndex<3; vertIndex++)] of the expansion. *)
Definition expand_corner (tempGeom : GeometryData) (face : FaceData)
    (hasTextureCoords hasNormals : bool) (vertIndex : nat) (this : GeometryData)
    : option GeometryData :=
  vs <- copy_components (vertices tempGeom) 3 (int3_get (vertexIndex face) vertIndex)
          [0; 1; 2] (vertices this) ;;
  ts <- (if hasTextureCoords
         then copy_components (textureCoords tempGeom) 2
                (int3_get (texCoordIndex face) vertIndex) [0; 1] (textureCoords this)
         else Some (textureCoords this)) ;;
  ns <- (if hasNormals
         then copy_components (normals tempGeom) 3
                (int3_get (normalIndex face) vertIndex) [0; 1; 2] (normals this)
         else Some (normals this)) ;;
  Some (MkGeometry vs ts ns (tangents this) (bitangents this) (faces this)).

Fixpoint expand_corners (tempGeom : GeometryData) (face : FaceData)
    (hasTextureCoords hasNormals : bool) (indices : list nat) (this : GeometryData)
    : option GeometryData :=
  match indices with
  | [] => Some this
  | vertIndex :: more =>
      this' <- expand_corner tempGeom face hasTextureCoords hasNormals vertIndex this ;;
      expand_corners tempGeom face hasTextureCoords hasNormals more this'
  end.

(** The block under [if(hasTextureCoords && hasNormals)]: one tangent and one
    bitangent from the last 9 floats of [vertices] and the last 6 of
    [textureCoords], pushed three times. *)
Definition push_face_tangents (this : GeometryData) : option GeometryData :=
  let vertexStartIndex := wrap_int (Z.of_nat (length (vertices this)) - 9) in
  let uvStartIndex := wrap_int (Z.of_nat (length (textureCoords this)) - 6) in
  let v := fun k => vec_at (vertices this) (vertexStartIndex + k) in
  let t := fun k => vec_at (textureCoords this) (uvStartIndex + k) in
  v0 <- v 0 ;; v1 <- v 1 ;; v2 <- v 2 ;; v3 <- v 3 ;; v4 <- v 4 ;;
  v5 <- v 5 ;; v6 <- v 6 ;; v7 <- v 7 ;; v8 <- v 8 ;;
  t0 <- t 0 ;; t1 <- t 1 ;; t2 <- t 2 ;; t3 <- t 3 ;; t4 <- t 4 ;; t5 <- t 5 ;;
  let deltaX1 := (v3 - v0)%fl in
  let deltaY1 := (v4 - v1)%fl in
  let deltaZ1 := (v5 - v2)%fl in
  let deltaX2 := (v6 - v0)%fl in
  let deltaY2 := (v7 - v1)%fl in
  let deltaZ2 := (v8 - v2)%fl in
  let deltaU1 := (t2 - t0)%fl in
  let deltaV1 := (t3 - t1)%fl in
  let deltaU2 := (t4 - t0)%fl in
  let deltaV2 := (t5 - t1)%fl in
  let inverseDet := (fone / (deltaU1 * deltaV2 - deltaU2 * deltaV1))%fl in
  let tangentX := (inverseDet * (deltaV2 * deltaX1 - deltaV1 * deltaX2))%fl in
  let tangentY := (inverseDet * (deltaV2 * deltaY1 - deltaV1 * deltaY2))%fl in
  let tangentZ := (inverseDet * (deltaV2 * deltaZ1 - deltaV1 * deltaZ2))%fl in
  let bitangentX := (inverseDet * (deltaU1 * deltaX2 - deltaU2 * deltaX1))%fl in
  let bitangentY := (inverseDet * (deltaU1 * deltaY2 - deltaU2 * deltaY1))%fl in
  let bitangentZ := (inverseDet * (deltaU1 * deltaZ2 - deltaU2 * deltaZ1))%fl in
  let tangentLength :=
    fsqrt (tangentX * tangentX + tangentY * tangentY + tangentZ * tangentZ)%fl in
  let bitangentLength :=
    fsqrt (bitangentX * bitangentX + bitangentY * bitangentY
           + bitangentZ * bitangentZ)%fl in
  let tangent :=
    [(tangentX / tangentLength)%fl; (tangentY / tangentLength)%fl;
     (tangentZ / tangentLength)%fl] in
  let bitangent :=
    [(bitangentX / bitangentLength)%fl; (bitangentY / bitangentLength)%fl;
     (bitangentZ / bitangentLength)%fl] in
  Some (MkGeometry (vertices this) (textureCoords this) (normals this)
          (tangents this ++ tangent ++ tangent ++ tangent)
          (bitangents this ++ bitangent ++ bitangent ++ bitangent)
          (faces this)).

Definition hasTextureCoords (face : FaceData) : bool :=
  0 <=? int3_get (texCoordIndex face) 0.
Definition hasNormals (face : FaceData) : bool :=
  0 <=? int3_get (normalIndex face) 0.

(** Body of [for(int faceIndex=0; ...)]. *)
Definition expand_face (tempGeom : GeometryData) (face : FaceData) (this : GeometryData)
    : option GeometryData :=
  this' <- expand_corners tempGeom face (hasTextureCoords face) (hasNormals face)
             [0%nat; 1%nat; 2%nat] this ;;
  if hasTextureCoords face && hasNormals face
  then push_face_tangents this'
  else Some this'.

Fixpoint expand_faces (tempGeom : GeometryData) (todo : list FaceData)
    (this : GeometryData) : option GeometryData :=
  match todo with
  | [] => Some this
  | face :: more =>
      this' <- expand_face tempGeom face this ;;
      expand_faces tempGeom more this'
  end.

(** The whole [for] loop.  Its counter is an [int] compared with a [size_t]:
    more than [INT_MAX] faces overflow it. *)
Definition expand (tempGeom : GeometryData) (this : GeometryData) : option GeometryData :=
  if Z.of_nat (length (faces tempGeom)) <=? INT_MAX
  then expand_faces tempGeom (faces tempGeom) this
  else None.

(** ** loadFromOBJFile *)

(** What [inStream.open(filename)] finds: [None] when the file cannot be
    opened. *)
Definition filesystem : Type := string -> option (list ascii).

Inductive outcome : Type :=
  | Returned (this : GeometryData) (out : list diagnostic)
  | OutOfFuel   (* the reading loop is still running *)
  | Undefined.  (* the expansion left the defined behaviour of C++ *)

(** [inStream.open(filename, ifstream::in)] on a fresh stream: a file that
    cannot be opened leaves [failbit] set. *)
Definition ifstream_open (fs : filesystem) (filename : string) : IStream.t :=
  match fs filename with
  | Some content => IStream.of_text content
  | None => IStream.set_fail (IStream.of_text [])
  end.

(** The locals at the top of the [while] loop: [tempGeom] default-constructed,
    [currentDataType = NONE], nothing printed yet. *)
Definition start (s : IStream.t) : loader := MkLoader s NONE GeometryData_new [].

(** The loader at the top of the loop on a file with the given content. *)
Definition open (content : list ascii) : loader := start (IStream.of_text content).

Definition loadFromOBJFile (fuel : nat) (fs : filesystem) (filename : string)
    (this : GeometryData) : outcome :=
  let inStream := ifstream_open fs filename in
  if IStream.fail inStream then Returned this [UnableToOpen filename]
  else
    match read_loop fuel (start inStream) with
    | None => OutOfFuel
    | Some st =>
        match expand (tempGeom st) this with
        | None => Undefined
        | Some this' =>
            Returned this'
              (cout st ++ [Loaded (Z.of_nat (length (vertices this')) / 3)])
        end
    end.

End Expander.

(** ** The accessors of GeometryData *)

Section Accessors.
Context `{FO : FloatOps}.

(** [&v[0]] on a [std::vector<float>]: the address of element 0, seen
    as the floats stored from there on.  [None] when [v[0]] is outside the
    vector. *)
Definition address_of_first (v : list float) : option (list float) :=
  match vec_at v 0 with
  | Some _ => Some v
  | None => None
  end.

Definition vertexData (this : GeometryData) : option (list float) :=
  address_of_first (vertices this).
Definition textureCoordData (this : GeometryData) : option (list float) :=
  address_of_first (textureCoords this).
Definition normalData (this : GeometryData) : option (list float) :=
  address_of_first (normals this).
Definition tangentData (this : GeometryData) : option (list float) :=
  address_of_first (tangents this).
Definition bitangentData (this : GeometryData) : option (list float) :=
  address_of_first (bitangents this).

End Accessors.

(** ** OpenGLWindow::render (src/glwindow.cpp): the mesh it hands to OpenGL

    [render] loads the mesh into a fresh local object on every frame and
    passes [vertexCount() * 3 * sizeof(float)], [vertexData()] and
    [vertexCount()] to [glBufferData] and [glDrawArrays].  The OpenGL calls
    themselves are outside the program; the model stops at their arguments. *)

(** [sizeof(float)] on the platforms the viewer builds for. *)
Definition sizeof_float : Z := 4.

(** Conversion to [size_t] (64 bits). *)
Definition wrap_size_t (z : Z) : Z := z mod 18446744073709551616.

(** The path [render] passes to [loadFromOBJFile]. *)
Definition doggo_path : string :=
  "/home/t/tldlir001/OpenGL_Assignment/opengl-prac1/doggo.obj".

Section Render.
Context `{FO : FloatOps}.

(** The arguments of [glBufferData] and [glDrawArrays]. *)
Record mesh_upload : Type := MkUpload {
  upload_bytes : Z;            (* size argument of glBufferData *)
  upload_data : list float;    (* what its data argument points to *)
  draw_count : Z               (* count argument of glDrawArrays *)
}.

Inductive rendered : Type :=
  | Drawn (u : mesh_upload)
  | LoadStillRunning       (* the reading loop has not ended *)
  | RenderUndefined.       (* the load or an accessor left defined behaviour *)

(** Lines 296-307 and 329 of [render]. *)
Definition render_mesh (fuel : nat) (fs : filesystem) : rendered :=
  match loadFromOBJFile fuel fs doggo_path GeometryData_new with
  | OutOfFuel => LoadStillRunning
  | Undefined => RenderUndefined
  | Returned doggo _ =>
      match int_checked (vertexCount doggo * 3), vertexData doggo with
      | Some count3, Some data =>
          Drawn (MkUpload (wrap_size_t (wrap_size_t count3 * sizeof_float)) data
                   (vertexCount doggo))
      | _, _ => RenderUndefined
      end
  end.

End Render.

(** ** main (src/main.cpp) and the events of the window

    [SDL_PollEvent] hands out the pending events one by one and then reports
    that none is left.  Which events are pending at which call is up to the
    environment: a frame is the events the loop of [main] is given, then the
    events the loop inside [render] is given. *)

Inductive SDL_Event : Type :=
  | SDL_QUIT
  | SDL_KEYDOWN (sym : Z)
  | SDL_MOUSEWHEEL (y : Z)
  | SDL_OTHER.

Definition SDLK_ESCAPE : Z := 27.

(** [bool OpenGLWindow::handleEvent(SDL_Event e)]: the program exits when it
    returns false. *)
Definition handleEvent (e : SDL_Event) : bool :=
  match e with
  | SDL_KEYDOWN sym => if sym =? SDLK_ESCAPE then false else true
  | _ => true
  end.

(** The [while(SDL_PollEvent(&e))] loop of [main] on the events it is given:
    the new value of [running]. *)
Fixpoint main_poll (running : bool) (events : list SDL_Event) : bool :=
  match events with
  | [] => running
  | e :: more =>
      match e with
      | SDL_QUIT => main_poll false more
      | _ => if negb (handleEvent e) then main_poll false more
             else main_poll running more
      end
  end.




(** ** A symbolic implementation of the float interface

    Values are the expressions that produce them; a literal is the text that was
    read.  Used to run the loader on concrete files.  The conversion follows
    [num_get] of libstdc++ for [float]: the characters that fit the pattern
    sign, digits, point, digits, exponent marker, sign, digits are extracted;
    the conversion fails with 0 when they are no complete number (no digit in
    the mantissa, or an exponent marker without digits), and fails with the
    largest finite magnitude when the number rounds to infinity. *)

Inductive sfloat : Type :=
  | SLit (text : string)
  | SZero | SOne | SIndeterminate
  | SMaxFloat (negative : bool)
  | SAdd (a b : sfloat) | SSub (a b : sfloat)
  | SMul (a b : sfloat) | SDiv (a b : sfloat)
  | SSqrt (a : sfloat).

Fixpoint span_digits (l : list ascii) : list ascii * list ascii :=
  match l with
  | c :: l' => if is_digit c then let '(ds, r) := span_digits l' in (c :: ds, r)
               else ([], l)
  | [] => ([], [])
  end.

(** The number a run of digits writes. *)
Fixpoint digits_value (acc : Z) (ds : list ascii) : Z :=
  match ds with
  | c :: ds' =>
      match digit_of_ascii c with
      | Some d => digits_value (10 * acc + d) ds'
      | None => acc
      end
  | [] => acc
  end.

Inductive conversion : Type :=
  | Converted
  | NotANumber
  | OutOfRange (negative : bool).

(** Half-way between the largest [float] and [2^128]: from here on a decimal
    rounds to infinity. *)
Definition float_overflow_threshold : Z := 2 ^ 128 - 2 ^ 103.

(** The characters extracted for a floating-point field, and what their
    conversion gives. *)
Definition scan_float_text (l : list ascii) : list ascii * conversion :=
  let '(sign, l1) :=
    match l with
    | "-" :: r => (["-"], r)
    | "+" :: r => (["+"], r)
    | _ => ([], l)
    end in
  let '(int_part, l2) := span_digits l1 in
  let '(point, frac_part, l3) :=
    match l2 with
    | "." :: r => let '(ds, r') := span_digits r in (["."], ds, r')
    | _ => ([], [], l2)
    end in
  let has_mantissa := negb (Nat.eqb (length int_part + length frac_part) 0) in
  let '(exp_text, exp_digits, exp_negative) :=
    match l3 with
    | e :: r =>
        if (Ascii.eqb e "e" || Ascii.eqb e "E") && has_mantissa then
          let '(esign, r1) :=
            match r with
            | "-" :: r' => (["-"], r')
            | "+" :: r' => (["+"], r')
            | _ => ([], r)
            end in
          let '(ds, _) := span_digits r1 in
          (e :: esign ++ ds, Some ds,
           match esign with "-" :: _ => true | _ => false end)
        else ([], None, false)
    | [] => ([], None, false)
    end in
  let extracted := sign ++ int_part ++ point ++ frac_part ++ exp_text in
  let complete :=
    has_mantissa && match exp_digits with Some [] => false | _ => true end in
  if negb complete then (extracted, NotANumber)
  else
    let mantissa := digits_value 0 (int_part ++ frac_part) in
    let written :=
      match exp_digits with Some ds => digits_value 0 ds | None => 0 end in
    let exponent :=
      (if exp_negative then - written else written) - Z.of_nat (length frac_part) in
    let overflow :=
      if 0 <=? exponent
      then float_overflow_threshold <=? mantissa * 10 ^ exponent
      else float_overflow_threshold * 10 ^ (- exponent) <=? mantissa in
    if overflow
    then (extracted, OutOfRange (match sign with "-" :: _ => true | _ => false end))
    else (extracted, Converted).

#[export] Instance SymbolicFloat : FloatOps := {
  float := sfloat;
  fone := SOne;
  findeterminate := SIndeterminate;
  fadd := SAdd;
  fsub := SSub;
  fmul := SMul;
  fdiv := SDiv;
  fsqrt := SSqrt;
  num_get_float := fun l =>
    let '(extracted, result) := scan_float_text l in
    match result with
    | Converted => (SLit (string_of_list_ascii extracted), false, length extracted)
    | NotANumber => (SZero, true, length extracted)
    | OutOfRange negative => (SMaxFloat negative, true, length extracted)
    end
}.

Definition text (s : string) : list ascii := list_ascii_of_string s.

(** * Vocabulary of the statements

    Nothing below is part of the program: these are the notions the facts
    are stated with. *)

(** ** Decimal text *)

(** The digits of a [Decimal.uint], most significant first. *)
Definition uint_chars (d : Decimal.uint) : list ascii :=
  list_ascii_of_string (DecimalString.NilEmpty.string_of_uint d).

(** Base-10 accumulation over a [Decimal.uint], as [scan_digits] does it. *)
Fixpoint uint_fold (d : Decimal.uint) (acc : Z) : Z :=
  match d with
  | Decimal.Nil => acc
  | Decimal.D0 l => uint_fold l (10 * acc + 0)
  | Decimal.D1 l => uint_fold l (10 * acc + 1)
  | Decimal.D2 l => uint_fold l (10 * acc + 2)
  | Decimal.D3 l => uint_fold l (10 * acc + 3)
  | Decimal.D4 l => uint_fold l (10 * acc + 4)
  | Decimal.D5 l => uint_fold l (10 * acc + 5)
  | Decimal.D6 l => uint_fold l (10 * acc + 6)
  | Decimal.D7 l => uint_fold l (10 * acc + 7)
  | Decimal.D8 l => uint_fold l (10 * acc + 8)
  | Decimal.D9 l => uint_fold l (10 * acc + 9)
  end.

(** The text does not go on with a digit (it may be empty). *)
Definition stops_digits (rest : list ascii) : Prop :=
  match rest with c :: _ => is_digit c = false | [] => True end.

(** [z] written in base 10, with a minus sign when negative. *)
Definition decimal_text (z : Z) : list ascii := list_ascii_of_string (decimal z).

(** ** Text around numbers *)

(** A space or a tab: whitespace that does not end the line. *)
Definition blank (c : ascii) : Prop := c = " " \/ c = tab.

(** The text does not go on with whitespace (it may be empty). *)
Definition stops_space (rest : list ascii) : Prop :=
  match rest with c :: _ => is_space c = false | [] => True end.

(** Whitespace only, newlines included. *)
Definition spaces (pad : list ascii) : Prop :=
  Forall (fun c => is_space c = true) pad.

(** Nothing is left to read. *)
Definition at_end (rest : list ascii) : bool :=
  match rest with [] => true | _ => false end.

(** ** Face lines *)

(** The four ways the OBJ format writes one corner of a face. *)
Inductive corner : Type :=
  | Position (v : Z)                       (* v *)
  | PositionTexture (v t : Z)              (* v/t *)
  | PositionNormal (v n : Z)               (* v//n *)
  | PositionTextureNormal (v t n : Z).     (* v/t/n *)

(** A corner as it stands in the file. *)
Definition corner_text (c : corner) : list ascii :=
  match c with
  | Position v => decimal_text v
  | PositionTexture v t => decimal_text v ++ "/" :: decimal_text t
  | PositionNormal v n => decimal_text v ++ "/" :: "/" :: decimal_text n
  | PositionTextureNormal v t n =>
      decimal_text v ++ "/" :: decimal_text t ++ "/" :: decimal_text n
  end.

(** An index the loader can hold and decrement. *)
Definition index_ok (z : Z) : Prop := INT_MIN < z <= INT_MAX.

(** Every index the corner writes is one. *)
Definition corner_ok (c : corner) : Prop :=
  match c with
  | Position v => index_ok v
  | PositionTexture v t => index_ok v /\ index_ok t
  | PositionNormal v n => index_ok v /\ index_ok n
  | PositionTextureNormal v t n => index_ok v /\ index_ok t /\ index_ok n
  end.

(** The indices a corner writes; [None] for a slot it omits. *)
Definition corner_position (c : corner) : Z :=
  match c with
  | Position v | PositionTexture v _ | PositionNormal v _
  | PositionTextureNormal v _ _ => v
  end.

Definition corner_texture (c : corner) : option Z :=
  match c with
  | PositionTexture _ t | PositionTextureNormal _ t _ => Some t
  | Position _ | PositionNormal _ _ => None
  end.

Definition corner_normal (c : corner) : option Z :=
  match c with
  | PositionNormal _ n | PositionTextureNormal _ _ n => Some n
  | Position _ | PositionTexture _ _ => None
  end.

(** The running locals after a corner: a slot the corner omits keeps what the
    previous corner left. *)
Definition apply_corner (vars : corner_vars) (c : corner) : corner_vars :=
  MkVars (corner_position c)
    (match corner_texture c with Some t => t | None => texCoordIndex_var vars end)
    (match corner_normal c with Some n => n | None => normalIndex_var vars end).

(** A bare position index is followed by one [get] that is never put back. *)
Definition corner_rest (c : corner) (c0 : ascii) (rest : list ascii) : list ascii :=
  match c with
  | Position _ => rest
  | _ => c0 :: rest
  end.

(** A character that ends a corner: neither a digit nor a slash. *)
Definition stop_char (c : ascii) : Prop := is_digit c = false /\ c <> "/".

(** The face a line with corners [c0 c1 c2] leaves in [tempGeom.faces]. *)
Definition face_of (c0 c1 c2 : corner) : FaceData :=
  let vars0 := apply_corner (MkVars 0 0 0) c0 in
  let vars1 := apply_corner vars0 c1 in
  let vars2 := apply_corner vars1 c2 in
  MkFace
    [vertIndex vars0 - 1; vertIndex vars1 - 1; vertIndex vars2 - 1]
    [texCoordIndex_var vars0 - 1; texCoordIndex_var vars1 - 1;
     texCoordIndex_var vars2 - 1]
    [normalIndex_var vars0 - 1; normalIndex_var vars1 - 1;
     normalIndex_var vars2 - 1].

(** The running locals hold values that can be decremented. *)
Definition vars_ok (vars : corner_vars) : Prop :=
  index_ok (vertIndex vars) /\ index_ok (texCoordIndex_var vars) /\
  index_ok (normalIndex_var vars).

(** What is in front of the next corner once corner [c] has been read. *)
Definition corner_pad (c : corner) (s : ascii) (pad : list ascii) : list ascii :=
  match c with
  | Position _ => pad
  | _ => s :: pad
  end.

(** A face directive: [f], then three corners, each after at least one blank. *)
Definition face_line (sep0 : list ascii) (c0 : corner) (sep1 : list ascii) (c1 : corner)
    (sep2 : list ascii) (c2 : corner) : list ascii :=
  "f" :: sep0 ++ corner_text c0 ++ sep1 ++ corner_text c1 ++ sep2 ++ corner_text c2.

(** What stands between [f] and a corner or between two corners: one blank
    or more. *)
Definition separator (sep : list ascii) : Prop :=
  sep <> [] /\ Forall blank sep.

(** ** Tangent space, as the design document writes it (section 4.2)

    [e1 = P1 - P0], [e2 = P2 - P0], [duv1 = UV1 - UV0], [duv2 = UV2 - UV0],
    [det = duv1.u*duv2.v - duv2.u*duv1.v], [invDet = 1 / det],
    [T = invDet * (duv2.v*e1 - duv1.v*e2)],
    [B = invDet * (duv1.u*e2 - duv2.u*e1)], then both are normalized. *)

Module TangentSpec.
Section WithFloat.
Context `{FO : FloatOps}.

Definition vec3 : Type := float * float * float.
Definition vec2 : Type := float * float.

Definition sub3 (a b : vec3) : vec3 :=
  let '(ax, ay, az) := a in
  let '(bx, b_y, bz) := b in
  ((ax - bx)%fl, (ay - b_y)%fl, (az - bz)%fl).

Definition sub2 (a b : vec2) : vec2 :=
  let '(au, av) := a in
  let '(bu, bv) := b in
  ((au - bu)%fl, (av - bv)%fl).

Definition scale3 (k : float) (a : vec3) : vec3 :=
  let '(ax, ay, az) := a in ((k * ax)%fl, (k * ay)%fl, (k * az)%fl).

Definition norm3 (a : vec3) : float :=
  let '(ax, ay, az) := a in fsqrt (ax * ax + ay * ay + az * az)%fl.

Definition normalize (a : vec3) : vec3 :=
  let '(ax, ay, az) := a in
  ((ax / norm3 a)%fl, (ay / norm3 a)%fl, (az / norm3 a)%fl).

Definition invDet (UV0 UV1 UV2 : vec2) : float :=
  let duv1 := sub2 UV1 UV0 in
  let duv2 := sub2 UV2 UV0 in
  (fone / (fst duv1 * snd duv2 - fst duv2 * snd duv1))%fl.

Definition tangent (P0 P1 P2 : vec3) (UV0 UV1 UV2 : vec2) : vec3 :=
  let e1 := sub3 P1 P0 in
  let e2 := sub3 P2 P0 in
  let duv1 := sub2 UV1 UV0 in
  let duv2 := sub2 UV2 UV0 in
  normalize (scale3 (invDet UV0 UV1 UV2)
               (sub3 (scale3 (snd duv2) e1) (scale3 (snd duv1) e2))).

Definition bitangent (P0 P1 P2 : vec3) (UV0 UV1 UV2 : vec2) : vec3 :=
  let e1 := sub3 P1 P0 in
  let e2 := sub3 P2 P0 in
  let duv1 := sub2 UV1 UV0 in
  let duv2 := sub2 UV2 UV0 in
  normalize (scale3 (invDet UV0 UV1 UV2)
               (sub3 (scale3 (fst duv1) e2) (scale3 (fst duv2) e1))).

Definition flat3 (a : vec3) : list float := let '(x, y, z) := a in [x; y; z].
Definition flat2 (a : vec2) : list float := let '(u, v) := a in [u; v].

End WithFloat.
End TangentSpec.

(** ** What the expansion appends *)

Section Outputs.
Context `{FO : FloatOps}.
Import TangentSpec.

(** What one index contributes, whatever the vector it is pushed on. *)
Definition fetch (pool : list float) (stride index : Z) (offsets : list Z)
    : option (list float) :=
  copy_components pool stride index offsets [].

(** The three vectors one corner extends, as lists to append. *)
Definition corner_output (tempGeom : GeometryData) (face : FaceData)
    (hasT hasN : bool) (vertIndex : nat)
    : option (list float * list float * list float) :=
  vs <- fetch (vertices tempGeom) 3 (int3_get (vertexIndex face) vertIndex) [0; 1; 2] ;;
  ts <- (if hasT
         then fetch (textureCoords tempGeom) 2 (int3_get (texCoordIndex face) vertIndex)
                [0; 1]
         else Some []) ;;
  ns <- (if hasN
         then fetch (normals tempGeom) 3 (int3_get (normalIndex face) vertIndex) [0; 1; 2]
         else Some []) ;;
  Some (vs, ts, ns).

(** All three corners of a face. *)
Definition corners_output (tempGeom : GeometryData) (face : FaceData) (hasT hasN : bool)
    : option (list float * list float * list float) :=
  c0 <- corner_output tempGeom face hasT hasN 0 ;;
  c1 <- corner_output tempGeom face hasT hasN 1 ;;
  c2 <- corner_output tempGeom face hasT hasN 2 ;;
  let '(vs0, ts0, ns0) := c0 in
  let '(vs1, ts1, ns1) := c1 in
  let '(vs2, ts2, ns2) := c2 in
  Some (vs0 ++ vs1 ++ vs2, ts0 ++ ts1 ++ ts2, ns0 ++ ns1 ++ ns2).

(** [this] with five lists appended to its five vectors. *)
Definition append_buffers (this : GeometryData)
    (vs ts ns tans bitans : list float) : GeometryData :=
  MkGeometry (vertices this ++ vs) (textureCoords this ++ ts) (normals this ++ ns)
             (tangents this ++ tans) (bitangents this ++ bitans) (faces this).

(** The test that guards the tangent block. *)
Definition hasBoth (face : FaceData) : bool :=
  hasTextureCoords face && hasNormals face.

(** How many faces pass a test. *)
Definition count (p : FaceData -> bool) (l : list FaceData) : nat :=
  length (filter p l).

(** The sizes the tangent block narrows to [int] are within its range. *)
Definition sizes_fit (this : GeometryData) : Prop :=
  Z.of_nat (length (vertices this)) <= INT_MAX /\
  Z.of_nat (length (textureCoords this)) <= INT_MAX.

(** The lists one face appends, from the pools alone. *)
Definition face_output (tempGeom : GeometryData) (face : FaceData)
    : option (list float * list float * list float * list float * list float) :=
  match corners_output tempGeom face (hasTextureCoords face) (hasNormals face) with
  | Some (vs, ts, ns) =>
      if hasBoth face then
        match vs, ts with
        | [p0x; p0y; p0z; p1x; p1y; p1z; p2x; p2y; p2z], [u0; v0; u1; v1; u2; v2] =>
            let T := flat3 (tangent (p0x, p0y, p0z) (p1x, p1y, p1z) (p2x, p2y, p2z)
                              (u0, v0) (u1, v1) (u2, v2)) in
            let B := flat3 (bitangent (p0x, p0y, p0z) (p1x, p1y, p1z) (p2x, p2y, p2z)
                              (u0, v0) (u1, v1) (u2, v2)) in
            Some (vs, ts, ns, T ++ T ++ T, B ++ B ++ B)
        | _, _ => None
        end
      else Some (vs, ts, ns, [], [])
  | None => None
  end.

(** The lists a sequence of faces appends. *)
Fixpoint faces_output (tempGeom : GeometryData) (todo : list FaceData)
    : option (list float * list float * list float * list float * list float) :=
  match todo with
  | [] => Some ([], [], [], [], [])
  | face :: more =>
      match face_output tempGeom face, faces_output tempGeom more with
      | Some (vs, ts, ns, tans, bitans), Some (vs', ts', ns', tans', bitans') =>
          Some (vs ++ vs', ts ++ ts', ns ++ ns', tans ++ tans', bitans ++ bitans')
      | _, _ => None
      end
  end.

End Outputs.

(** ** Iterations of the reading loop *)

Section Iterations.
Context `{FO : FloatOps}.

(** The body of the [while] loop runs [n] more times: the loop condition
    holds before each of them. *)
Fixpoint advance (n : nat) (st : loader) : option loader :=
  match n with
  | O => Some st
  | S n' => if IStream.eof (inStream st) then None else advance n' (step st)
  end.

End Iterations.

(** ** Loaders up to the text already read *)

(** Two streams that differ at most in the text already read. *)
Definition same_input (s1 s2 : IStream.t) : Prop :=
  IStream.pending s1 = IStream.pending s2 /\
  IStream.eofbit s1 = IStream.eofbit s2 /\
  IStream.failbit s1 = IStream.failbit s2 /\
  IStream.badbit s1 = IStream.badbit s2.

Section SameLoader.
Context `{FO : FloatOps}.

(** Two loaders that differ at most in the text already read. *)
Definition same_loader (st1 st2 : loader) : Prop :=
  same_input (inStream st1) (inStream st2) /\
  currentDataType st1 = currentDataType st2 /\
  tempGeom st1 = tempGeom st2 /\
  cout st1 = cout st2.

(** What the rest of [loadFromOBJFile] sees of the reading loop: the pools,
    the faces and the console. *)
Definition visible (r : option loader) : option (GeometryData * list diagnostic) :=
  option_map (fun st => (tempGeom st, cout st)) r.

End SameLoader.

(** ** Streams that cannot be read any more *)

(** [failbit] is set and [eofbit] is not: every operation of the loader then
    fails at once, and the condition of its loop stays true. *)
Definition stalled (s : IStream.t) : Prop :=
  IStream.failbit s = true /\ IStream.eofbit s = false.

(** ** Lines *)

Section Lines.
Context `{FO : FloatOps}.

(** From NONE with a good stream in front of [chunk], whatever follows it,
    the loop body runs some number of times and is then in NONE with a good
    stream behind [chunk], having applied [effect] to [tempGeom] and printed
    [printed]. *)
Definition reads_as (chunk : list ascii) (effect : GeometryData -> GeometryData)
    (printed : list diagnostic) : Prop :=
  forall past rest geom out,
  exists n past',
    advance n
      (MkLoader (IStream.Mk past (chunk ++ rest) false false false) NONE geom out) =
    Some (MkLoader (IStream.Mk past' rest false false false) NONE (effect geom)
            (out ++ printed)).

(** The float conversion of the C++ library reads the text [t] as [x] when
    whitespace follows it: all of [t] is extracted and the conversion
    succeeds.  [t] does not start with whitespace. *)
Definition float_text (t : list ascii) (x : float) : Prop :=
  (exists c l, t = c :: l /\ is_space c = false) /\
  forall c rest, is_space c = true ->
    num_get_float (t ++ c :: rest) = (x, false, length t).

End Lines.

(** What may stand between the last field of a line and its newline: nothing,
    or text without a newline that starts with whitespace. *)
Definition line_tail (junk : list ascii) : Prop :=
  Forall (fun c => c <> newline) junk /\
  match junk with c :: _ => is_space c = true | [] => True end.

(** ** Indices within a pool *)

(** The [stride] entries of index [index] exist in [pool], and the [int]
    expressions that address them do not overflow. *)
Definition index_in_pool {A : Type} (pool : list A) (stride index : Z) : Prop :=
  0 <= index /\ stride * index + stride <= Z.of_nat (length pool) /\
  stride * index + stride - 1 <= INT_MAX.

Section FaceRange.
Context `{FO : FloatOps}.

(** Every index the expansion of [face] looks up is within its pool. *)
Definition face_in_range (pools : GeometryData) (face : FaceData) : Prop :=
  forall k, (k < 3)%nat ->
    index_in_pool (vertices pools) 3 (int3_get (vertexIndex face) k) /\
    (hasTextureCoords face = true ->
     index_in_pool (textureCoords pools) 2 (int3_get (texCoordIndex face) k)) /\
    (hasNormals face = true ->
     index_in_pool (normals pools) 3 (int3_get (normalIndex face) k)).

(** The pools hold whole entries, and the two vectors of [tempGeom] that the
    reading loop has no use for are empty. *)
Definition pools_aligned (geom : GeometryData) : Prop :=
  Nat.divide 3 (length (vertices geom)) /\
  Nat.divide 2 (length (textureCoords geom)) /\
  Nat.divide 3 (length (normals geom)) /\
  tangents geom = [] /\ bitangents geom = [].

End FaceRange.

(** ** What the loader makes of single characters *)

(** The state a [v] line continues in, by its second character. *)
Definition v_entry (c2 : ascii) : OBJDataType * list diagnostic :=
  if Ascii.eqb c2 " " || Ascii.eqb c2 tab then (VERTEX, [])
  else if Ascii.eqb c2 "t" then (TEXTURECOORD, [])
  else if Ascii.eqb c2 "n" then (NORMAL, [])
  else if Ascii.eqb c2 "p" then (COMMENT, [FreeFormUnsupported])
  else (COMMENT, [UnsupportedEntry c2]).

(** The state bits a corner leaves when the file ends right behind it. *)
Definition end_bits (c : corner) : bool * bool :=
  match c with
  | Position _ => (true, true)
  | PositionTexture _ _ => (false, true)
  | PositionNormal _ _ | PositionTextureNormal _ _ _ => (true, false)
  end.

(** A character no integer starts with. *)
Definition not_a_number (c : ascii) : Prop :=
  is_space c = false /\ is_digit c = false /\ c <> "-" /\ c <> "+".

(** ** Sample files *)

Definition lines (l : list string) : string :=
  String.concat "" (map (fun s => (s ++ String newline "")%string) l).

(** One triangle with texture coordinates and normals, then the same triangle
    with bare position indices. *)
Definition triangle_obj : string :=
  lines ["# triangle"; "v 0 0 0"; "v 1 0 0"; "v 0 1 0";
         "vt 0 0"; "vt 1 0"; "vt 0 1"; "vn 0 0 1";
         "f 1/1/1 2/2/1 3/3/1"; "f 1 3 2"]%string.

Definition quad_obj : string :=
  lines ["v 0 0 0"; "v 1 0 0"; "v 1 1 0"; "v 0 1 0";
         "f 1 2 3 4"]%string.

Definition sample_files : filesystem :=
  fun name =>
    if String.eqb name "triangle.obj" then Some (text triangle_obj)
    else if String.eqb name "quad.obj" then Some (text quad_obj)
    else None.

(** The pools of [triangle_obj], as the reading loop leaves them. *)
Definition triangle_pools : GeometryData :=
  MkGeometry
    [SLit "0"; SLit "0"; SLit "0"; SLit "1"; SLit "0"; SLit "0";
     SLit "0"; SLit "1"; SLit "0"]
    [SLit "0"; SLit "0"; SLit "1"; SLit "0"; SLit "0"; SLit "1"]
    [SLit "0"; SLit "0"; SLit "1"] [] []
    [MkFace [0; 1; 2] [0; 1; 2] [0; 0; 0];
     MkFace [0; 2; 1] [-1; -1; -1] [-1; -1; -1]].

Definition triangle_loader : loader :=
  Eval vm_compute in
    match read_loop 200 (open (text triangle_obj)) with
    | Some st => st
    | None => open []
    end.

Definition triangle_mesh : GeometryData :=
  Eval vm_compute in
    match loadFromOBJFile 200 sample_files "triangle.obj"%string GeometryData_new with
    | Returned this _ => this
    | _ => GeometryData_new
    end.

Definition triangle_out : list diagnostic :=
  Eval vm_compute in
    match loadFromOBJFile 200 sample_files "triangle.obj"%string GeometryData_new with
    | Returned _ out => out
    | _ => []
    end.

Definition quad_loader : loader :=
  Eval vm_compute in
    match read_loop 200 (open (text quad_obj)) with
    | Some st => st
    | None => open []
    end.

Definition triangle_then_quad : GeometryData :=
  Eval vm_compute in
    match loadFromOBJFile 200 sample_files "quad.obj"%string triangle_mesh with
    | Returned this _ => this
    | _ => GeometryData_new
    end.

Definition triangle_then_quad_out : list diagnostic :=
  Eval vm_compute in
    match loadFromOBJFile 200 sample_files "quad.obj"%string triangle_mesh with
    | Returned _ out => out
    | _ => []
    end.



Definition textured_face : FaceData := MkFace [0; 1; 2] [0; 1; 2] [0; 0; 0].

Definition textured_mesh : GeometryData :=
  Eval vm_compute in
    match expand_face triangle_pools textured_face GeometryData_new with
    | Some this => this
    | None => GeometryData_new
    end.

(** One triangle with bare position indices; a blank ends its face line. *)
Definition one_triangle_obj : string :=
  lines ["v 0 0 0"; "v 1 0 0"; "v 0 1 0"; "f 1 2 3 "]%string.

Definition one_triangle_mesh : GeometryData :=
  Eval vm_compute in
    match loadFromOBJFile 100 (fun _ => Some (text one_triangle_obj)) ""%string
            GeometryData_new with
    | Returned this _ => this
    | _ => GeometryData_new
    end.

(** What [render] hands to OpenGL when the model file is [triangle_obj]. *)
Definition triangle_upload : mesh_upload :=
  Eval vm_compute in
    match render_mesh 200 (fun _ => Some (text triangle_obj)) with
    | Drawn u => u
    | _ => MkUpload 0 [] 0
    end.

(** Nine positions that differ from one another, and the face the line
    [f 3 1 2] stores. *)
Definition numbered_pools : GeometryData :=
  MkGeometry
    [SLit "10"; SLit "11"; SLit "12"; SLit "20"; SLit "21"; SLit "22";
     SLit "30"; SLit "31"; SLit "32"] [] [] [] [] [].

Definition rotated_face : FaceData := MkFace [2; 0; 1] [-1; -1; -1] [-1; -1; -1].


(** * Facts *)

(** ** Machine integers *)

Lemma wrap_int_small (z : Z) : INT_MIN <= z <= INT_MAX -> wrap_int z = z.
Proof.
  unfold wrap_int, INT_MIN, INT_MAX. intros Hz.
  rewrite Z.mod_small by lia. lia.
Qed.

Lemma int_checked_Some (z v : Z) :
  int_checked z = Some v -> v = z /\ INT_MIN <= z <= INT_MAX.
Proof.
  unfold int_checked.
  destruct (INT_MIN <=? z) eqn:Hlo; destruct (z <=? INT_MAX) eqn:Hhi;
    simpl; intros Hv; inversion Hv; subst.
  apply Z.leb_le in Hlo, Hhi. auto.
Qed.

Lemma vec_at_app_r {A : Type} (base new : list A) (k : nat) :
  vec_at (base ++ new) (Z.of_nat (length base) + Z.of_nat k) = nth_error new k.
Proof.
  unfold vec_at.
  destruct (0 <=? Z.of_nat (length base) + Z.of_nat k) eqn:Hpos;
    [| apply Z.leb_gt in Hpos; lia].
  replace (Z.to_nat (Z.of_nat (length base) + Z.of_nat k))
    with (length base + k)%nat by lia.
  rewrite nth_error_app2 by lia. f_equal. lia.
Qed.

(** ** The expansion pass *)

Section ExpanderFacts.
Context `{FO : FloatOps}.

Lemma copy_components_fetch (pool : list float) (stride index : Z) (offsets : list Z) :
  forall out,
    copy_components pool stride index offsets out =
    match fetch pool stride index offsets with
    | Some xs => Some (out ++ xs)
    | None => None
    end.
Proof.
  unfold fetch. induction offsets as [| i more IH]; intros out; simpl.
  - now rewrite app_nil_r.
  - destruct (int_checked (stride * index)) as [base |]; [| reflexivity].
    destruct (int_checked (base + i)) as [position |]; [| reflexivity].
    destruct (vec_at pool position) as [x |]; [| reflexivity].
    rewrite (IH (out ++ [x])), (IH [x]).
    destruct (copy_components pool stride index more []) as [xs |]; [| reflexivity].
    now rewrite <- app_assoc.
Qed.

Lemma fetch_length (pool : list float) (stride index : Z) (offsets : list Z) :
  forall xs, fetch pool stride index offsets = Some xs -> length xs = length offsets.
Proof.
  unfold fetch. induction offsets as [| i more IH]; intros xs; simpl.
  - intros E; inversion E; reflexivity.
  - destruct (int_checked (stride * index)) as [base |]; [| discriminate].
    destruct (int_checked (base + i)) as [position |]; [| discriminate].
    destruct (vec_at pool position) as [x |]; [| discriminate].
    rewrite (copy_components_fetch _ _ _ more [x]). fold (fetch pool stride index more).
    destruct (fetch pool stride index more) as [ys |] eqn:Hys; [| discriminate].
    intros E; inversion E; subst. simpl. f_equal. now apply IH.
Qed.

(** The entries a fetch returns are the pool entries at
    [stride*index + offset]. *)
Lemma fetch_entries (pool : list float) (stride index : Z) (offsets : list Z) :
  forall xs, fetch pool stride index offsets = Some xs ->
  forall k i, nth_error offsets k = Some i ->
    exists x, nth_error xs k = Some x /\ vec_at pool (stride * index + i) = Some x.
Proof.
  unfold fetch. induction offsets as [| i0 more IH]; intros xs; simpl.
  - intros _ k i Hk. destruct k; discriminate.
  - destruct (int_checked (stride * index)) as [base |] eqn:Hbase; [| discriminate].
    destruct (int_checked (base + i0)) as [position |] eqn:Hpos; [| discriminate].
    destruct (vec_at pool position) as [x |] eqn:Hx; [| discriminate].
    rewrite (copy_components_fetch _ _ _ more [x]). fold (fetch pool stride index more).
    destruct (fetch pool stride index more) as [ys |] eqn:Hys; [| discriminate].
    intros E; inversion E; subst. intros k i Hk.
    apply int_checked_Some in Hbase as [-> _].
    apply int_checked_Some in Hpos as [-> _].
    destruct k as [| k]; simpl in *.
    + inversion Hk; subst. exists x. split; [reflexivity | assumption].
    + now apply (IH ys).
Qed.

Lemma expand_corner_output (tempGeom : GeometryData) (face : FaceData)
    (hasT hasN : bool) (vertIndex : nat) (this : GeometryData) :
  expand_corner tempGeom face hasT hasN vertIndex this =
  match corner_output tempGeom face hasT hasN vertIndex with
  | Some (vs, ts, ns) =>
      Some (MkGeometry (vertices this ++ vs) (textureCoords this ++ ts)
              (normals this ++ ns) (tangents this) (bitangents this) (faces this))
  | None => None
  end.
Proof.
  unfold expand_corner, corner_output.
  rewrite copy_components_fetch.
  destruct (fetch (vertices tempGeom) 3 _ _) as [vs |]; [| reflexivity].
  destruct hasT, hasN; rewrite ?copy_components_fetch;
    repeat match goal with
           | |- context [fetch ?p ?s ?i ?o] => destruct (fetch p s i o)
           end;
    simpl; rewrite ?app_nil_r; reflexivity.
Qed.

Lemma expand_corners_output (tempGeom : GeometryData) (face : FaceData)
    (hasT hasN : bool) (this : GeometryData) :
  expand_corners tempGeom face hasT hasN [0%nat; 1%nat; 2%nat] this =
  match corners_output tempGeom face hasT hasN with
  | Some (vs, ts, ns) =>
      Some (MkGeometry (vertices this ++ vs) (textureCoords this ++ ts)
              (normals this ++ ns) (tangents this) (bitangents this) (faces this))
  | None => None
  end.
Proof.
  unfold corners_output. simpl.
  rewrite expand_corner_output.
  destruct (corner_output tempGeom face hasT hasN 0) as [[[vs0 ts0] ns0] |]; [| reflexivity].
  rewrite expand_corner_output.
  destruct (corner_output tempGeom face hasT hasN 1) as [[[vs1 ts1] ns1] |]; [| reflexivity].
  rewrite expand_corner_output.
  destruct (corner_output tempGeom face hasT hasN 2) as [[[vs2 ts2] ns2] |]; [| reflexivity].
  simpl. now rewrite <- !app_assoc.
Qed.

Lemma corner_output_lengths (tempGeom : GeometryData) (face : FaceData)
    (hasT hasN : bool) (k : nat) (vs ts ns : list float) :
  corner_output tempGeom face hasT hasN k = Some (vs, ts, ns) ->
  length vs = 3%nat /\
  length ts = (if hasT then 2 else 0)%nat /\
  length ns = (if hasN then 3 else 0)%nat.
Proof.
  unfold corner_output.
  destruct (fetch (vertices tempGeom) 3 _ _) as [vs' |] eqn:Hvs; [| discriminate].
  destruct hasT, hasN.
  - destruct (fetch (textureCoords tempGeom) 2 _ _) as [ts' |] eqn:Hts; [| discriminate].
    destruct (fetch (normals tempGeom) 3 _ _) as [ns' |] eqn:Hns; [| discriminate].
    intros E; inversion E; subst.
    apply fetch_length in Hvs, Hts, Hns. auto.
  - destruct (fetch (textureCoords tempGeom) 2 _ _) as [ts' |] eqn:Hts; [| discriminate].
    intros E; inversion E; subst.
    apply fetch_length in Hvs, Hts. auto.
  - destruct (fetch (normals tempGeom) 3 _ _) as [ns' |] eqn:Hns; [| discriminate].
    intros E; inversion E; subst.
    apply fetch_length in Hvs, Hns. auto.
  - intros E; inversion E; subst. apply fetch_length in Hvs. auto.
Qed.

Lemma corners_output_lengths (tempGeom : GeometryData) (face : FaceData)
    (hasT hasN : bool) (vs ts ns : list float) :
  corners_output tempGeom face hasT hasN = Some (vs, ts, ns) ->
  length vs = 9%nat /\
  length ts = (if hasT then 6 else 0)%nat /\
  length ns = (if hasN then 9 else 0)%nat.
Proof.
  unfold corners_output.
  destruct (corner_output tempGeom face hasT hasN 0) as [[[vs0 ts0] ns0] |] eqn:H0;
    [| discriminate].
  destruct (corner_output tempGeom face hasT hasN 1) as [[[vs1 ts1] ns1] |] eqn:H1;
    [| discriminate].
  destruct (corner_output tempGeom face hasT hasN 2) as [[[vs2 ts2] ns2] |] eqn:H2;
    [| discriminate].
  intros E; inversion E; subst.
  apply corner_output_lengths in H0 as (? & ? & ?).
  apply corner_output_lengths in H1 as (? & ? & ?).
  apply corner_output_lengths in H2 as (? & ? & ?).
  rewrite !length_app. destruct hasT, hasN; lia.
Qed.

End ExpanderFacts.

Section TangentFacts.
Context `{FO : FloatOps}.
Import TangentSpec.

Lemma vec_at_appended (base new : list float) (k : Z) :
  0 <= k ->
  vec_at (base ++ new) (Z.of_nat (length base) + k) = nth_error new (Z.to_nat k).
Proof.
  intros Hk. rewrite <- (Z2Nat.id k) at 1 by assumption. apply vec_at_app_r.
Qed.

(** On a vector of positions that ends with the corners [P0 P1 P2] and a
    vector of texture coordinates that ends with [UV0 UV1 UV2], both short
    enough for their sizes to fit an [int], the tangent block pushes the
    tangent and the bitangent of the design document, three times each. *)
Lemma push_face_tangents_appended (this : GeometryData)
    (vbase tbase : list float) (P0 P1 P2 : vec3) (UV0 UV1 UV2 : vec2) :
  vertices this = vbase ++ flat3 P0 ++ flat3 P1 ++ flat3 P2 ->
  textureCoords this = tbase ++ flat2 UV0 ++ flat2 UV1 ++ flat2 UV2 ->
  Z.of_nat (length (vertices this)) <= INT_MAX ->
  Z.of_nat (length (textureCoords this)) <= INT_MAX ->
  push_face_tangents this =
  Some (MkGeometry (vertices this) (textureCoords this) (normals this)
          (tangents this ++ flat3 (tangent P0 P1 P2 UV0 UV1 UV2)
                         ++ flat3 (tangent P0 P1 P2 UV0 UV1 UV2)
                         ++ flat3 (tangent P0 P1 P2 UV0 UV1 UV2))
          (bitangents this ++ flat3 (bitangent P0 P1 P2 UV0 UV1 UV2)
                           ++ flat3 (bitangent P0 P1 P2 UV0 UV1 UV2)
                           ++ flat3 (bitangent P0 P1 P2 UV0 UV1 UV2))
          (faces this)).
Proof.
  destruct P0 as [[p0x p0y] p0z], P1 as [[p1x p1y] p1z], P2 as [[p2x p2y] p2z].
  destruct UV0 as [u0 v0], UV1 as [u1 v1], UV2 as [u2 v2].
  intros Hv Ht Hvmax Htmax. unfold push_face_tangents.
  assert (Hvs : wrap_int (Z.of_nat (length (vertices this)) - 9)
                = Z.of_nat (length vbase)).
  { rewrite wrap_int_small.
    - rewrite Hv, length_app. simpl. lia.
    - rewrite Hv, length_app in *. simpl in *. unfold INT_MIN, INT_MAX in *. lia. }
  assert (Hts : wrap_int (Z.of_nat (length (textureCoords this)) - 6)
                = Z.of_nat (length tbase)).
  { rewrite wrap_int_small.
    - rewrite Ht, length_app. simpl. lia.
    - rewrite Ht, length_app in *. simpl in *. unfold INT_MIN, INT_MAX in *. lia. }
  rewrite Hvs, Hts.
  assert (Hvk : forall k, 0 <= k ->
            vec_at (vertices this) (Z.of_nat (length vbase) + k)
            = nth_error [p0x; p0y; p0z; p1x; p1y; p1z; p2x; p2y; p2z] (Z.to_nat k)).
  { intros k Hk. rewrite Hv. now apply vec_at_appended. }
  assert (Htk : forall k, 0 <= k ->
            vec_at (textureCoords this) (Z.of_nat (length tbase) + k)
            = nth_error [u0; v0; u1; v1; u2; v2] (Z.to_nat k)).
  { intros k Hk. rewrite Ht. now apply vec_at_appended. }
  cbv beta zeta.
  rewrite !Hvk, !Htk by lia.
  reflexivity.
Qed.

(** Without any assumption on sizes: when the block is defined it pushes one
    triple three times on each of the two vectors and touches nothing else. *)
Lemma push_face_tangents_shape (this this' : GeometryData) :
  push_face_tangents this = Some this' ->
  exists T B : list float,
    length T = 3%nat /\ length B = 3%nat /\
    this' = MkGeometry (vertices this) (textureCoords this) (normals this)
              (tangents this ++ T ++ T ++ T) (bitangents this ++ B ++ B ++ B)
              (faces this).
Proof.
  unfold push_face_tangents.
  repeat match goal with
         | |- context [vec_at ?v ?i] =>
             destruct (vec_at v i); [| discriminate]
         end.
  intros E. cbv zeta in E.
  match type of E with
  | Some (MkGeometry _ _ _ (_ ++ ?T ++ _) (_ ++ ?B ++ _) _) = _ => exists T, B
  end.
  injection E as <-. repeat split.
Qed.

End TangentFacts.

Section FaceFacts.
Context `{FO : FloatOps}.

(** One face: the corners go on the first three vectors; the last two grow
    by three copies of one triple exactly when the face has both texture
    coordinates and normals. *)
Lemma expand_face_shape (tempGeom : GeometryData) (face : FaceData)
    (this this' : GeometryData) :
  expand_face tempGeom face this = Some this' ->
  exists vs ts ns T B,
    corners_output tempGeom face (hasTextureCoords face) (hasNormals face)
      = Some (vs, ts, ns) /\
    this' = append_buffers this vs ts ns (T ++ T ++ T) (B ++ B ++ B) /\
    length T = (if hasBoth face then 3 else 0)%nat /\
    length B = (if hasBoth face then 3 else 0)%nat.
Proof.
  unfold expand_face, hasBoth. rewrite expand_corners_output.
  destruct (corners_output tempGeom face _ _) as [[[vs ts] ns] |]; [| discriminate].
  destruct (hasTextureCoords face && hasNormals face).
  - intros E. apply push_face_tangents_shape in E as (T & B & HT & HB & ->).
    exists vs, ts, ns, T, B. simpl. auto.
  - intros E. injection E as <-. exists vs, ts, ns, [], []. unfold append_buffers.
    simpl. rewrite !app_nil_r. auto.
Qed.

Lemma append_buffers_assoc (this : GeometryData)
    (vs ts ns tans bitans vs' ts' ns' tans' bitans' : list float) :
  append_buffers (append_buffers this vs ts ns tans bitans) vs' ts' ns' tans' bitans' =
  append_buffers this (vs ++ vs') (ts ++ ts') (ns ++ ns') (tans ++ tans')
    (bitans ++ bitans').
Proof. unfold append_buffers. simpl. now rewrite <- !app_assoc. Qed.

(** All faces: every vector only grows, and by how much. *)
Lemma expand_faces_growth (tempGeom : GeometryData) (todo : list FaceData) :
  forall this this',
    expand_faces tempGeom todo this = Some this' ->
    exists vs ts ns tans bitans,
      this' = append_buffers this vs ts ns tans bitans /\
      length vs = (9 * length todo)%nat /\
      length ts = (6 * count hasTextureCoords todo)%nat /\
      length ns = (9 * count hasNormals todo)%nat /\
      length tans = (9 * count hasBoth todo)%nat /\
      length bitans = (9 * count hasBoth todo)%nat.
Proof.
  induction todo as [| face more IH]; intros this this'; simpl.
  - intros E. injection E as <-. exists [], [], [], [], [].
    unfold append_buffers. rewrite !app_nil_r. destruct this; simpl; auto 10.
  - destruct (expand_face tempGeom face this) as [mid |] eqn:Hface; [| discriminate].
    intros Hmore.
    apply expand_face_shape in Hface as (vs & ts & ns & T & B & Hout & -> & HT & HB).
    apply IH in Hmore as (vs' & ts' & ns' & tans' & bitans' & -> & Hvs & Hts & Hns & Htan & Hbit).
    destruct (corners_output_lengths _ _ _ _ _ _ _ Hout) as (Lv & Lt & Ln).
    rewrite append_buffers_assoc. do 5 eexists. split; [reflexivity |].
    unfold count, hasBoth in *. simpl.
    rewrite !length_app.
    destruct (hasTextureCoords face), (hasNormals face); simpl in *; lia.
Qed.

Lemma expand_growth (tempGeom this this' : GeometryData) :
  expand tempGeom this = Some this' ->
  Z.of_nat (length (faces tempGeom)) <= INT_MAX /\
  exists vs ts ns tans bitans,
    this' = append_buffers this vs ts ns tans bitans /\
    length vs = (9 * length (faces tempGeom))%nat /\
    length ts = (6 * count hasTextureCoords (faces tempGeom))%nat /\
    length ns = (9 * count hasNormals (faces tempGeom))%nat /\
    length tans = (9 * count hasBoth (faces tempGeom))%nat /\
    length bitans = (9 * count hasBoth (faces tempGeom))%nat.
Proof.
  unfold expand.
  destruct (Z.of_nat (length (faces tempGeom)) <=? INT_MAX) eqn:Hsize; [| discriminate].
  intros E. split; [now apply Z.leb_le |].
  now apply (expand_faces_growth tempGeom).
Qed.

(** What a returning load means. *)
Lemma loadFromOBJFile_Returned (fuel : nat) (fs : filesystem) (filename : string)
    (text : list ascii) (this this' : GeometryData) (out : list diagnostic) :
  fs filename = Some text ->
  loadFromOBJFile fuel fs filename this = Returned this' out ->
  exists st,
    read_loop fuel (open text) = Some st /\
    expand (tempGeom st) this = Some this' /\
    out = cout st ++ [Loaded (Z.of_nat (length (vertices this')) / 3)].
Proof.
  unfold loadFromOBJFile, ifstream_open. intros ->.
  change (IStream.fail (IStream.of_text text)) with false. cbv iota.
  fold (open text).
  destruct (read_loop fuel (open text)) as [st |]; [| discriminate].
  destruct (expand (tempGeom st) this) as [g |] eqn:Hg; [| discriminate].
  intros E. injection E as <- <-. exists st. auto.
Qed.

Lemma count_le (p : FaceData -> bool) (l : list FaceData) :
  (count p l <= length l)%nat.
Proof. apply filter_length_le. Qed.

End FaceFacts.

(** ** Decimal text and the integer extractor *)

Section DecimalFacts.

Lemma of_uint_acc_fold (d : Decimal.uint) :
  forall acc, Z.pos (Pos.of_uint_acc d acc) = uint_fold d (Z.pos acc).
Proof.
  induction d; intros acc; cbn [Pos.of_uint_acc uint_fold];
    try reflexivity; rewrite IHd; f_equal;
    rewrite ?Pos2Z.inj_add, ?Pos2Z.inj_mul; lia.
Qed.

Lemma of_uint_fold (d : Decimal.uint) : Z.of_uint d = uint_fold d 0.
Proof.
  unfold Z.of_uint.
  induction d; cbn [Pos.of_uint uint_fold]; try reflexivity;
    try exact IHd; cbn [Z.of_N]; rewrite of_uint_acc_fold; reflexivity.
Qed.

Lemma scan_digits_uint (d : Decimal.uint) :
  forall acc n past rest,
    stops_digits rest ->
    IStream.scan_digits acc n past (uint_chars d ++ rest) =
    (uint_fold d acc, (n + length (uint_chars d))%nat, rev (uint_chars d) ++ past, rest).
Proof.
  unfold uint_chars.
  induction d; intros acc n past rest Hrest;
    try (cbn [DecimalString.NilEmpty.string_of_uint list_ascii_of_string app
              IStream.scan_digits digit_of_ascii uint_fold length rev];
         rewrite IHd by assumption;
         rewrite <- app_assoc, Nat.add_succ_r; reflexivity).
  cbn [DecimalString.NilEmpty.string_of_uint list_ascii_of_string app
       uint_fold length rev].
  rewrite Nat.add_0_r.
  destruct rest as [| c rest]; [reflexivity |].
  cbn [IStream.scan_digits]. unfold stops_digits, is_digit in Hrest.
  destruct (digit_of_ascii c); [discriminate | reflexivity].
Qed.

(** A nonempty [Decimal.uint] prints as a digit followed by more text. *)
Lemma uint_chars_head (d : Decimal.uint) :
  d <> Decimal.Nil -> exists c l, uint_chars d = c :: l /\ is_digit c = true.
Proof.
  unfold uint_chars. destruct d; intros Hd; try congruence;
    simpl; eexists; eexists; split; reflexivity.
Qed.

(** The decimal text of [z] is an optional minus sign and the digits of [|z|]. *)
Lemma decimal_text_shape (z : Z) :
  exists d, d <> Decimal.Nil /\ uint_fold d 0 = Z.abs z /\
    decimal_text z = (if z <? 0 then ["-"] else []) ++ uint_chars d.
Proof.
  unfold decimal_text, decimal, uint_chars.
  pose proof (DecimalZ.of_to z) as Hz.
  destruct z as [| p | p]; simpl in *.
  - exists (Decimal.D0 Decimal.Nil). repeat split. congruence.
  - exists (Pos.to_uint p). split; [apply DecimalPos.Unsigned.to_uint_nonnil |].
    split.
    + rewrite <- of_uint_fold. exact Hz.
    + unfold DecimalString.NilZero.string_of_uint.
      pose proof (DecimalPos.Unsigned.to_uint_nonnil p).
      destruct (Pos.to_uint p); congruence.
  - exists (Pos.to_uint p). split; [apply DecimalPos.Unsigned.to_uint_nonnil |].
    split.
    + rewrite <- of_uint_fold. unfold Z.of_uint in *. lia.
    + unfold DecimalString.NilZero.string_of_uint.
      pose proof (DecimalPos.Unsigned.to_uint_nonnil p).
      destruct (Pos.to_uint p); congruence.
Qed.

End DecimalFacts.

(** ** The stream on well-formed text *)

Module StreamFacts.
Import IStream.

Lemma blank_is_space (c : ascii) : blank c -> is_space c = true.
Proof. intros [-> | ->]; reflexivity. Qed.

Lemma skip_space_run (pad : list ascii) :
  forall past rest,
    spaces pad -> stops_space rest ->
    skip_space past (pad ++ rest) = (rev pad ++ past, rest).
Proof.
  induction pad as [| c pad IH]; intros past rest Hpad Hrest; simpl.
  - destruct rest as [| c rest]; [reflexivity |]. simpl in *. now rewrite Hrest.
  - inversion Hpad as [| ? ? Hc Hpad']; subst.
    rewrite Hc, IH by assumption.
    now rewrite <- app_assoc.
Qed.

Lemma blanks_spaces (pad : list ascii) : Forall blank pad -> spaces pad.
Proof. apply Forall_impl. exact blank_is_space. Qed.

Lemma skip_space_pad (pad : list ascii) :
  forall past rest,
    Forall blank pad -> stops_space rest ->
    skip_space past (pad ++ rest) = (rev pad ++ past, rest).
Proof. intros past rest Hpad. apply skip_space_run. now apply blanks_spaces. Qed.

Lemma digit_not_space (c : ascii) : is_digit c = true -> is_space c = false.
Proof.
  destruct c as [[] [] [] [] [] [] [] []]; try discriminate; reflexivity.
Qed.

Lemma num_get_int_digit_head (c : ascii) (r past : list ascii) :
  is_digit c = true ->
  num_get_int past (c :: r) =
  let '(magnitude, ndigits, past2, rest2) := scan_digits 0 0 past (c :: r) in
  match ndigits with
  | O => (0, true, past2, rest2)
  | S _ =>
      if INT_MAX <? magnitude then (INT_MAX, true, past2, rest2)
      else if magnitude <? INT_MIN then (INT_MIN, true, past2, rest2)
      else (magnitude, false, past2, rest2)
  end.
Proof.
  destruct c as [[] [] [] [] [] [] [] []]; try discriminate; reflexivity.
Qed.

Lemma decimal_text_stops_space (z : Z) (rest : list ascii) :
  stops_space (decimal_text z ++ rest).
Proof.
  destruct (decimal_text_shape z) as (d & Hd & _ & ->).
  destruct (uint_chars_head d Hd) as (c & l & -> & Hc).
  destruct (z <? 0); simpl; [reflexivity | now apply digit_not_space].
Qed.

Lemma uint_chars_length (d : Decimal.uint) :
  d <> Decimal.Nil -> exists n, length (uint_chars d) = S n.
Proof.
  intros Hd. destruct (uint_chars_head d Hd) as (c & l & -> & _).
  now exists (length l).
Qed.

(** The extractor reads back the decimal text of every [int]. *)
Lemma num_get_int_decimal (z : Z) (past rest : list ascii) :
  INT_MIN <= z <= INT_MAX -> stops_digits rest ->
  num_get_int past (decimal_text z ++ rest) =
  (z, false, rev (decimal_text z) ++ past, rest).
Proof.
  intros Hz Hrest.
  destruct (decimal_text_shape z) as (d & Hd & Hval & ->).
  destruct (uint_chars_length d Hd) as (n & Hn).
  destruct (z <? 0) eqn:Hneg.
  - apply Z.ltb_lt in Hneg. simpl app. unfold num_get_int.
    rewrite scan_digits_uint by assumption. rewrite Hn, Hval. simpl Nat.add.
    cbv iota beta.
    replace (INT_MAX <? - Z.abs z) with false
      by (symmetry; apply Z.ltb_ge; unfold INT_MAX in *; lia).
    replace (- Z.abs z <? INT_MIN) with false
      by (symmetry; apply Z.ltb_ge; unfold INT_MIN in *; lia).
    replace (- Z.abs z) with z by lia.
    rewrite <- app_assoc. reflexivity.
  - apply Z.ltb_ge in Hneg. simpl app.
    destruct (uint_chars_head d Hd) as (c & l & Hcl & Hc).
    rewrite Hcl. simpl app. rewrite num_get_int_digit_head by assumption.
    change (c :: l ++ rest) with ((c :: l) ++ rest). rewrite <- Hcl.
    rewrite scan_digits_uint by assumption. rewrite Hn, Hval. simpl Nat.add.
    cbv iota beta.
    replace (INT_MAX <? Z.abs z) with false
      by (symmetry; apply Z.ltb_ge; unfold INT_MAX in *; lia).
    replace (Z.abs z <? INT_MIN) with false
      by (symmetry; apply Z.ltb_ge; unfold INT_MIN in *; lia).
    replace (Z.abs z) with z by lia. rewrite Hcl. reflexivity.
Qed.

Lemma sentry_pad (past pad rest : list ascii) :
  Forall blank pad -> stops_space rest -> rest <> [] ->
  sentry (Mk past (pad ++ rest) false false false) =
  (true, Mk (rev pad ++ past) rest false false false).
Proof.
  intros Hpad Hrest Hne. unfold sentry, good.
  cbn [consumed pending eofbit failbit badbit orb negb].
  rewrite skip_space_pad by assumption.
  destruct rest; [congruence | reflexivity].
Qed.

Lemma decimal_text_nonempty (z : Z) (rest : list ascii) :
  decimal_text z ++ rest <> [].
Proof.
  destruct (decimal_text_shape z) as (d & Hd & _ & ->).
  destruct (uint_chars_head d Hd) as (c & l & -> & _).
  destruct (z <? 0); discriminate.
Qed.

Lemma extract_int_decimal (old z : Z) (past pad rest : list ascii) :
  Forall blank pad -> INT_MIN <= z <= INT_MAX -> stops_digits rest ->
  extract_int old (Mk past (pad ++ decimal_text z ++ rest) false false false) =
  (z, Mk (rev (decimal_text z) ++ rev pad ++ past) rest (at_end rest) false false).
Proof.
  intros Hpad Hz Hrest. unfold extract_int.
  rewrite sentry_pad
    by (auto using decimal_text_stops_space, decimal_text_nonempty).
  cbn [consumed pending eofbit failbit badbit].
  rewrite num_get_int_decimal by assumption.
  destruct rest; reflexivity.
Qed.

Lemma extract_int_decimal_nopad (old z : Z) (past rest : list ascii) :
  INT_MIN <= z <= INT_MAX -> stops_digits rest ->
  extract_int old (Mk past (decimal_text z ++ rest) false false false) =
  (z, Mk (rev (decimal_text z) ++ past) rest (at_end rest) false false).
Proof.
  intros Hz Hrest. now apply (extract_int_decimal old z past []).
Qed.

Lemma get_good (c : ascii) (past rest : list ascii) :
  get (Mk past (c :: rest) false false false) =
  (Some c, Mk (c :: past) rest false false false).
Proof. reflexivity. Qed.

Lemma unget_good (c : ascii) (past rest : list ascii) :
  unget (Mk (c :: past) rest false false false) =
  Mk past (c :: rest) false false false.
Proof. reflexivity. Qed.

End StreamFacts.

Module CornerFacts.
Import IStream StreamFacts.

Lemma blank_stop (c : ascii) : blank c -> stop_char c.
Proof. intros [-> | ->]; split; (reflexivity || discriminate). Qed.

Lemma stop_char_eqb (c : ascii) : stop_char c -> Ascii.eqb c "/" = false.
Proof. intros [_ Hc]. now apply Ascii.eqb_neq. Qed.

Lemma decimal_text_head (z : Z) :
  exists c l, decimal_text z = c :: l /\ Ascii.eqb c "/" = false.
Proof.
  destruct (decimal_text_shape z) as (d & Hd & _ & ->).
  destruct (uint_chars_head d Hd) as (c & l & -> & Hc).
  destruct (z <? 0); simpl.
  - eexists; eexists; split; reflexivity.
  - exists c, l. split; [reflexivity |].
    destruct c as [[] [] [] [] [] [] [] []]; try discriminate; reflexivity.
Qed.

(** [get] then [unget] in front of a number: the stream is as before, and
    the character seen is not a slash. *)
Lemma peek_decimal (z : Z) (past rest : list ascii) :
  exists c,
    get (Mk past (decimal_text z ++ rest) false false false) =
      (Some c, Mk (c :: past) (tl (decimal_text z ++ rest)) false false false) /\
    unget (Mk (c :: past) (tl (decimal_text z ++ rest)) false false false) =
      Mk past (decimal_text z ++ rest) false false false /\
    Ascii.eqb c "/" = false.
Proof.
  destruct (decimal_text_head z) as (c & l & -> & Hc).
  exists c. repeat split. assumption.
Qed.

Lemma index_ok_range (z : Z) : index_ok z -> INT_MIN <= z <= INT_MAX.
Proof. unfold index_ok. lia. Qed.

Lemma stops_digits_cons (c : ascii) (rest : list ascii) :
  is_digit c = false -> stops_digits (c :: rest).
Proof. intros H; exact H. Qed.

Create HintDb corner.
#[local] Hint Resolve index_ok_range stops_digits_cons : corner.

Lemma read_corner_text (vars : corner_vars) (past pad : list ascii) (c : corner)
    (c0 : ascii) (rest : list ascii) :
  Forall blank pad -> corner_ok c -> stop_char c0 ->
  exists past',
    read_corner vars (Mk past (pad ++ corner_text c ++ c0 :: rest) false false false) =
    (apply_corner vars c, Mk past' (corner_rest c c0 rest) false false false).
Proof.
  intros Hpad Hc Hstop. pose proof (stop_char_eqb c0 Hstop) as Hc0.
  destruct Hstop as [Hdig _]. unfold read_corner, apply_corner.
  destruct c as [v | v t | v n | v t n]; cbn [corner_text corner_ok corner_position
    corner_texture corner_normal corner_rest] in *.
  - rewrite extract_int_decimal by auto with corner.
    cbn [at_end]. rewrite get_good. cbn [char_of_get]. rewrite Hc0.
    eexists; reflexivity.
  - destruct Hc as [Hv Ht]. rewrite <- app_assoc. cbn [app].
    rewrite extract_int_decimal by (auto with corner; reflexivity).
    cbn [at_end]. rewrite get_good. cbn [char_of_get Ascii.eqb Bool.eqb andb].
    destruct (peek_decimal t ("/" :: rev (decimal_text v) ++ rev pad ++ past)
                (c0 :: rest)) as (c1 & Hget & Hunget & Hc1).
    rewrite Hget, Hunget. cbn [char_of_get]. rewrite Hc1. cbn [negb].
    rewrite extract_int_decimal_nopad by (auto with corner).
    cbn [at_end]. rewrite get_good. cbn [char_of_get]. rewrite Hc0.
    rewrite unget_good. eexists; reflexivity.
  - destruct Hc as [Hv Hn]. rewrite <- app_assoc. cbn [app].
    rewrite extract_int_decimal by (auto with corner; reflexivity).
    cbn [at_end]. rewrite get_good. cbn [char_of_get Ascii.eqb Bool.eqb andb].
    rewrite get_good, unget_good. cbn [char_of_get Ascii.eqb Bool.eqb andb negb].
    rewrite get_good. cbn [char_of_get Ascii.eqb Bool.eqb andb].
    rewrite extract_int_decimal_nopad by (auto with corner).
    eexists; reflexivity.
  - destruct Hc as (Hv & Ht & Hn). rewrite <- app_assoc. cbn [app].
    rewrite <- app_assoc. cbn [app].
    rewrite extract_int_decimal by (auto with corner; reflexivity).
    cbn [at_end]. rewrite get_good. cbn [char_of_get Ascii.eqb Bool.eqb andb].
    destruct (peek_decimal t ("/" :: rev (decimal_text v) ++ rev pad ++ past)
                ("/" :: decimal_text n ++ c0 :: rest)) as (c1 & Hget & Hunget & Hc1).
    rewrite Hget, Hunget. cbn [char_of_get]. rewrite Hc1. cbn [negb].
    rewrite extract_int_decimal_nopad by (auto with corner; reflexivity).
    cbn [at_end]. rewrite get_good. cbn [char_of_get Ascii.eqb Bool.eqb andb].
    rewrite extract_int_decimal_nopad by (auto with corner).
    eexists; reflexivity.
Qed.

End CornerFacts.

Module FaceLineFacts.
Import IStream StreamFacts CornerFacts.

Lemma vars_ok_zero : vars_ok (MkVars 0 0 0).
Proof. unfold vars_ok, index_ok, INT_MIN, INT_MAX. simpl. lia. Qed.

Lemma apply_corner_ok (vars : corner_vars) (c : corner) :
  vars_ok vars -> corner_ok c -> vars_ok (apply_corner vars c).
Proof.
  unfold vars_ok, apply_corner.
  destruct c; simpl; intuition.
Qed.

Lemma int_sub_index (z : Z) : index_ok z -> int_sub z 1 = z - 1.
Proof.
  unfold index_ok, int_sub. intros Hz. apply wrap_int_small.
  unfold INT_MIN, INT_MAX in *. lia.
Qed.

Lemma corner_rest_pad (c : corner) (s : ascii) (pad rest : list ascii) :
  corner_rest c s (pad ++ rest) = corner_pad c s pad ++ rest.
Proof. destruct c; reflexivity. Qed.

Lemma corner_pad_blank (c : corner) (s : ascii) (pad : list ascii) :
  blank s -> Forall blank pad -> Forall blank (corner_pad c s pad).
Proof. destruct c; simpl; auto. Qed.

(** The corner loop on three well-formed corners. *)
Lemma read_face_text (past pad0 pad1 pad2 : list ascii) (c0 c1 c2 : corner)
    (s1 s2 s3 : ascii) (rest : list ascii) :
  Forall blank pad0 -> Forall blank pad1 -> Forall blank pad2 ->
  blank s1 -> blank s2 -> stop_char s3 ->
  corner_ok c0 -> corner_ok c1 -> corner_ok c2 ->
  exists past',
    read_face
      (Mk past
         (pad0 ++ corner_text c0 ++ s1 :: pad1 ++ corner_text c1 ++
          s2 :: pad2 ++ corner_text c2 ++ s3 :: rest) false false false) =
    (face_of c0 c1 c2, Mk past' (corner_rest c2 s3 rest) false false false).
Proof.
  intros Hp0 Hp1 Hp2 Hs1 Hs2 Hs3 Hc0 Hc1 Hc2.
  unfold read_face. cbn [corner_loop].
  destruct (read_corner_text (MkVars 0 0 0) past pad0 c0 s1
              (pad1 ++ corner_text c1 ++ s2 :: pad2 ++ corner_text c2 ++ s3 :: rest)
              Hp0 Hc0 (blank_stop s1 Hs1)) as (past1 & ->).
  rewrite corner_rest_pad.
  destruct (read_corner_text (apply_corner (MkVars 0 0 0) c0) past1
              (corner_pad c0 s1 pad1) c1 s2
              (pad2 ++ corner_text c2 ++ s3 :: rest)
              (corner_pad_blank c0 s1 pad1 Hs1 Hp1) Hc1 (blank_stop s2 Hs2))
    as (past2 & ->).
  rewrite corner_rest_pad.
  destruct (read_corner_text
              (apply_corner (apply_corner (MkVars 0 0 0) c0) c1) past2
              (corner_pad c1 s2 pad2) c2 s3 rest
              (corner_pad_blank c1 s2 pad2 Hs2 Hp2) Hc2 Hs3)
    as (past3 & ->).
  exists past3. f_equal.
  pose proof (apply_corner_ok _ c0 vars_ok_zero Hc0) as (Hv0 & Ht0 & Hn0).
  pose proof (apply_corner_ok _ c1 (conj Hv0 (conj Ht0 Hn0)) Hc1) as (Hv1 & Ht1 & Hn1).
  pose proof (apply_corner_ok _ c2 (conj Hv1 (conj Ht1 Hn1)) Hc2) as (Hv2 & Ht2 & Hn2).
  unfold store_corner, face_of. cbn [vertexIndex texCoordIndex normalIndex
    FaceData_zero int3_zero int3_set].
  now rewrite !int_sub_index by assumption.
Qed.

End FaceLineFacts.

(** ** The reading loop *)

Section LoopFacts.
Context `{FO : FloatOps}.

Lemma advance_read_loop (n : nat) :
  forall st st' fuel,
    advance n st = Some st' ->
    read_loop (n + fuel) st = read_loop fuel st'.
Proof.
  induction n as [| n IH]; intros st st' fuel; simpl.
  - intros E. now injection E as ->.
  - destruct (IStream.eof (inStream st)) eqn:Heof; [discriminate |].
    intros E. rewrite <- (IH _ _ fuel E). reflexivity.
Qed.

Lemma advance_app (n m : nat) :
  forall st st' st'',
    advance n st = Some st' -> advance m st' = Some st'' ->
    advance (n + m) st = Some st''.
Proof.
  induction n as [| n IH]; intros st st' st''; simpl.
  - intros E. now injection E as ->.
  - destruct (IStream.eof (inStream st)); [discriminate |]. apply IH.
Qed.

(** The COMMENT state discards text up to and including the next newline and
    hands over to NONE. *)
Lemma advance_skip_line (junk : list ascii) :
  forall past rest geom out,
    Forall (fun c => c <> newline) junk ->
    advance (S (length junk))
      (MkLoader (IStream.Mk past (junk ++ newline :: rest) false false false)
         COMMENT geom out) =
    Some (MkLoader
            (IStream.Mk (newline :: rev junk ++ past) rest false false false)
            NONE geom out).
Proof.
  induction junk as [| c junk IH]; intros past rest geom out Hjunk.
  - reflexivity.
  - inversion Hjunk as [| ? ? Hc Hjunk']; subst.
    cbn [length]. change (advance (S (S (length junk))) ?st)
      with (if IStream.eof (inStream st) then None
            else advance (S (length junk)) (step st)).
    cbn [inStream IStream.eof IStream.eofbit].
    unfold step. cbn [currentDataType inStream app].
    rewrite StreamFacts.get_good.
    apply Ascii.eqb_neq in Hc. rewrite Hc.
    unfold with_stream. cbn [tempGeom cout].
    rewrite IH by assumption. cbn [rev]. now rewrite <- app_assoc.
Qed.

End LoopFacts.

Section FaceLineSteps.
Context `{FO : FloatOps}.
Import IStream StreamFacts CornerFacts FaceLineFacts.

Lemma ws_run (past lead : list ascii) (c : ascii) (rest : list ascii) :
  spaces lead -> is_space c = false ->
  ws (Mk past (lead ++ c :: rest) false false false) =
  Mk (rev lead ++ past) (c :: rest) false false false.
Proof.
  intros Hlead Hc. unfold ws, good.
  cbn [consumed pending eofbit failbit badbit orb negb].
  now rewrite skip_space_run.
Qed.

Lemma separator_inv (sep : list ascii) :
  separator sep -> exists s pad, sep = s :: pad /\ blank s /\ Forall blank pad.
Proof.
  intros [Hne Hall]. destruct sep as [| s pad]; [congruence |].
  inversion Hall; subst. eauto.
Qed.

Lemma advance_S (n : nat) (s : IStream.t) (kind : OBJDataType)
    (geom : GeometryData) (out : list diagnostic) :
  eofbit s = false ->
  advance (S n) (MkLoader s kind geom out) = advance n (step (MkLoader s kind geom out)).
Proof.
  intros Heof.
  change (advance (S n) (MkLoader s kind geom out))
    with (if eofbit s then None else advance n (step (MkLoader s kind geom out))).
  now rewrite Heof.
Qed.

Lemma step_NONE_face (geom : GeometryData) (out : list diagnostic)
    (past lead : list ascii) (s0 : ascii) (rest : list ascii) :
  spaces lead ->
  step (MkLoader (Mk past (lead ++ "f" :: s0 :: rest) false false false) NONE geom out) =
  MkLoader (Mk (s0 :: "f" :: rev lead ++ past) rest false false false) FACE geom out.
Proof.
  intros Hlead. unfold step. cbn [currentDataType inStream].
  rewrite ws_run by (assumption || reflexivity).
  rewrite !get_good. reflexivity.
Qed.

(** The branch for a first character other than [#], [f], [v]: the parse
    error is printed with the two characters read and the loader stays in
    NONE right behind them; nothing else of the line is consumed. *)
Lemma step_NONE_unknown (geom : GeometryData) (out : list diagnostic)
    (past lead : list ascii) (c1 c2 : ascii) (rest : list ascii) :
  spaces lead -> is_space c1 = false ->
  c1 <> "#" -> c1 <> "f" -> c1 <> "v" ->
  step (MkLoader (Mk past (lead ++ c1 :: c2 :: rest) false false false) NONE geom out) =
  MkLoader (Mk (c2 :: c1 :: rev lead ++ past) rest false false false) NONE geom
    (out ++ [ExpectedDirective c1 c2]).
Proof.
  intros Hlead Hc1 Hhash Hf Hv. unfold step. cbn [currentDataType inStream].
  rewrite ws_run by assumption.
  rewrite !get_good. cbn [eof eofbit char_of_get tempGeom cout].
  apply Ascii.eqb_neq in Hhash, Hf, Hv. now rewrite Hhash, Hf, Hv.
Qed.

Lemma step_FACE (geom : GeometryData) (out : list diagnostic) (s s' : IStream.t)
    (face : FaceData) :
  read_face s = (face, s') ->
  step (MkLoader s FACE geom out) = MkLoader s' COMMENT (push_face geom face) out.
Proof. intros Hface. unfold step. cbn [currentDataType inStream]. now rewrite Hface. Qed.

(** NONE then FACE: the directive is recognised and the three corners are
    read and stored; the loader is left in COMMENT just behind the third
    corner. *)
Lemma advance_face_line (geom : GeometryData) (out : list diagnostic)
    (past lead sep0 sep1 sep2 : list ascii) (c0 c1 c2 : corner) (s3 : ascii)
    (rest : list ascii) :
  spaces lead -> separator sep0 -> separator sep1 -> separator sep2 ->
  corner_ok c0 -> corner_ok c1 -> corner_ok c2 -> stop_char s3 ->
  exists past',
    advance 2
      (MkLoader
         (Mk past (lead ++ face_line sep0 c0 sep1 c1 sep2 c2 ++ s3 :: rest)
            false false false)
         NONE geom out) =
    Some (MkLoader (Mk past' (corner_rest c2 s3 rest) false false false)
            COMMENT (push_face geom (face_of c0 c1 c2)) out).
Proof.
  intros Hlead H0 H1 H2 Hc0 Hc1 Hc2 Hs3.
  apply separator_inv in H0 as (s0 & pad0 & -> & Hs0 & Hp0).
  apply separator_inv in H1 as (s1 & pad1 & -> & Hs1 & Hp1).
  apply separator_inv in H2 as (s2 & pad2 & -> & Hs2 & Hp2).
  unfold face_line. cbn [app]. rewrite <- !app_assoc. cbn [app].
  rewrite <- !app_assoc. cbn [app]. rewrite <- !app_assoc. cbn [app].
  destruct (read_face_text (s0 :: "f" :: rev lead ++ past) pad0 pad1 pad2
              c0 c1 c2 s1 s2 s3 rest Hp0 Hp1 Hp2 Hs1 Hs2 Hs3 Hc0 Hc1 Hc2)
    as (past' & Hface).
  exists past'.
  rewrite advance_S by reflexivity.
  rewrite step_NONE_face by assumption.
  rewrite advance_S by reflexivity.
  rewrite (step_FACE _ _ _ _ _ Hface). reflexivity.
Qed.

(** A face line that goes on after its third corner: the loader reads the
    three corners, drops the rest of the line with its newline, and is back
    in NONE at the start of the next line with a good stream. *)
Lemma advance_long_face_line (geom : GeometryData) (out : list diagnostic)
    (past lead sep0 sep1 sep2 : list ascii) (c0 c1 c2 : corner) (s3 : ascii)
    (extra rest : list ascii) :
  spaces lead -> separator sep0 -> separator sep1 -> separator sep2 ->
  corner_ok c0 -> corner_ok c1 -> corner_ok c2 ->
  blank s3 -> Forall (fun c => c <> newline) extra ->
  exists n past',
    advance n
      (MkLoader
         (Mk past
            (lead ++ face_line sep0 c0 sep1 c1 sep2 c2 ++
             s3 :: extra ++ newline :: rest)
            false false false)
         NONE geom out) =
    Some (MkLoader (Mk past' rest false false false)
            NONE (push_face geom (face_of c0 c1 c2)) out).
Proof.
  intros Hlead H0 H1 H2 Hc0 Hc1 Hc2 Hs3 Hextra.
  destruct (advance_face_line geom out past lead sep0 sep1 sep2 c0 c1 c2 s3
              (extra ++ newline :: rest) Hlead H0 H1 H2 Hc0 Hc1 Hc2
              (blank_stop s3 Hs3)) as (past1 & Hadv).
  assert (Hs3nl : s3 <> newline) by (destruct Hs3 as [-> | ->]; discriminate).
  destruct c2 as [v | v t | v n | v t n]; cbn [corner_rest] in Hadv.
  1: exists (2 + S (length extra))%nat.
  2-4: exists (2 + S (length (s3 :: extra)))%nat.
  all: eexists; eapply advance_app; [exact Hadv |].
  1: apply advance_skip_line; assumption.
  all: apply (advance_skip_line (s3 :: extra)); constructor; assumption.
Qed.

End FaceLineSteps.

(** ** The expansion does not depend on what the object already holds *)

Section BaseIndependence.
Context `{FO : FloatOps}.
Import TangentSpec.

Lemma sizes_fit_prefix (this : GeometryData) (vs ts ns tans bitans : list float) :
  sizes_fit (append_buffers this vs ts ns tans bitans) -> sizes_fit this.
Proof.
  unfold sizes_fit, append_buffers. simpl. rewrite !length_app. lia.
Qed.

Lemma sizes_fit_assoc (this : GeometryData)
    (vs ts ns tans bitans vs' ts' ns' tans' bitans' : list float) :
  sizes_fit (append_buffers this (vs ++ vs') (ts ++ ts') (ns ++ ns') (tans ++ tans')
               (bitans ++ bitans')) ->
  sizes_fit (append_buffers this vs ts ns tans bitans).
Proof.
  unfold sizes_fit, append_buffers. simpl. rewrite !length_app. lia.
Qed.

Lemma nine_floats (l : list float) :
  length l = 9%nat ->
  exists P0 P1 P2 : vec3, l = flat3 P0 ++ flat3 P1 ++ flat3 P2.
Proof.
  intros Hl.
  do 9 (destruct l as [| ? l]; [discriminate |]).
  destruct l; [| discriminate].
  eexists (_, _, _), (_, _, _), (_, _, _). reflexivity.
Qed.

Lemma six_floats (l : list float) :
  length l = 6%nat ->
  exists UV0 UV1 UV2 : vec2, l = flat2 UV0 ++ flat2 UV1 ++ flat2 UV2.
Proof.
  intros Hl.
  do 6 (destruct l as [| ? l]; [discriminate |]).
  destruct l; [| discriminate].
  eexists (_, _), (_, _), (_, _). reflexivity.
Qed.

(** As long as the sizes of the position and texture vectors fit an [int],
    expanding a face onto [this] appends [face_output]. *)
Lemma expand_face_output (tempGeom : GeometryData) (face : FaceData)
    (this : GeometryData) :
  forall vs ts ns tans bitans,
    face_output tempGeom face = Some (vs, ts, ns, tans, bitans) ->
    sizes_fit (append_buffers this vs ts ns tans bitans) ->
    expand_face tempGeom face this = Some (append_buffers this vs ts ns tans bitans).
Proof.
  intros vs ts ns tans bitans. unfold face_output, expand_face.
  rewrite expand_corners_output. fold (hasBoth face).
  destruct (corners_output tempGeom face _ _) as [[[vs' ts'] ns'] |] eqn:Hout;
    [| discriminate].
  destruct (hasBoth face) eqn:Hboth.
  - destruct vs' as [| p0x [| p0y [| p0z [| p1x [| p1y [| p1z [| p2x [| p2y
      [| p2z [| ? ?]]]]]]]]]]; try discriminate.
    destruct ts' as [| u0 [| v0 [| u1 [| v1 [| u2 [| v2 [| ? ?]]]]]]];
      try discriminate.
    intros E Hfit. injection E as <- <- <- <- <-.
    rewrite (push_face_tangents_appended _ (vertices this) (textureCoords this)
               (p0x, p0y, p0z) (p1x, p1y, p1z) (p2x, p2y, p2z)
               (u0, v0) (u1, v1) (u2, v2));
      try reflexivity; apply Hfit.
  - intros E Hfit. injection E as <- <- <- <- <-.
    unfold append_buffers. now rewrite !app_nil_r.
Qed.

Lemma expand_face_defined (tempGeom : GeometryData) (face : FaceData)
    (this this' : GeometryData) :
  expand_face tempGeom face this = Some this' ->
  sizes_fit this' ->
  exists vs ts ns tans bitans,
    face_output tempGeom face = Some (vs, ts, ns, tans, bitans) /\
    this' = append_buffers this vs ts ns tans bitans.
Proof.
  intros Hface Hfit.
  destruct (expand_face_shape _ _ _ _ Hface) as (vs & ts & ns & T & B & Hout & -> & _).
  pose proof (corners_output_lengths _ _ _ _ _ _ _ Hout) as (Lv & Lt & _).
  assert (exists tans bitans,
             face_output tempGeom face = Some (vs, ts, ns, tans, bitans))
    as (tans & bitans & Hfo).
  { unfold face_output. rewrite Hout. unfold hasBoth in *.
    destruct (hasTextureCoords face), (hasNormals face); simpl; eauto.
    destruct (nine_floats vs Lv) as ([[? ?] ?] & [[? ?] ?] & [[? ?] ?] & ->).
    destruct (six_floats ts Lt) as ([? ?] & [? ?] & [? ?] & ->).
    simpl. eauto. }
  exists vs, ts, ns, tans, bitans. split; [assumption |].
  assert (Hfit' : sizes_fit (append_buffers this vs ts ns tans bitans)).
  { revert Hfit. unfold sizes_fit, append_buffers. simpl. auto. }
  rewrite (expand_face_output _ _ _ _ _ _ _ _ Hfo Hfit') in Hface.
  congruence.
Qed.

Lemma append_buffers_nil (this : GeometryData) :
  append_buffers this [] [] [] [] [] = this.
Proof. unfold append_buffers. rewrite !app_nil_r. now destruct this. Qed.

Lemma expand_faces_output (tempGeom : GeometryData) (todo : list FaceData) :
  forall this vs ts ns tans bitans,
    faces_output tempGeom todo = Some (vs, ts, ns, tans, bitans) ->
    sizes_fit (append_buffers this vs ts ns tans bitans) ->
    expand_faces tempGeom todo this = Some (append_buffers this vs ts ns tans bitans).
Proof.
  induction todo as [| face more IH]; intros this vs ts ns tans bitans; simpl.
  - intros E _. injection E as <- <- <- <- <-. now rewrite append_buffers_nil.
  - destruct (face_output tempGeom face) as [[[[[vs0 ts0] ns0] tans0] bitans0] |] eqn:Hf;
      [| discriminate].
    destruct (faces_output tempGeom more) as [[[[[vs1 ts1] ns1] tans1] bitans1] |] eqn:Hm;
      [| discriminate].
    intros E Hfit. injection E as <- <- <- <- <-.
    rewrite (expand_face_output _ _ _ _ _ _ _ _ Hf (sizes_fit_assoc _ _ _ _ _ _ _ _ _ _ _ Hfit)).
    rewrite <- append_buffers_assoc in *. now apply IH.
Qed.

Lemma expand_faces_defined (tempGeom : GeometryData) (todo : list FaceData) :
  forall this this',
    expand_faces tempGeom todo this = Some this' ->
    sizes_fit this' ->
    exists vs ts ns tans bitans,
      faces_output tempGeom todo = Some (vs, ts, ns, tans, bitans) /\
      this' = append_buffers this vs ts ns tans bitans.
Proof.
  induction todo as [| face more IH]; intros this this'; simpl.
  - intros E _. injection E as <-. exists [], [], [], [], [].
    now rewrite append_buffers_nil.
  - destruct (expand_face tempGeom face this) as [mid |] eqn:Hface; [| discriminate].
    intros Hmore Hfit.
    destruct (IH _ _ Hmore Hfit) as (vs1 & ts1 & ns1 & tans1 & bitans1 & Hm & ->).
    destruct (expand_face_defined _ _ _ _ Hface (sizes_fit_prefix _ _ _ _ _ _ Hfit))
      as (vs0 & ts0 & ns0 & tans0 & bitans0 & Hf & ->).
    rewrite Hf, Hm. do 5 eexists. split; [reflexivity |].
    apply append_buffers_assoc.
Qed.

End BaseIndependence.

(** ** The text already read does not influence the loader

    [unget] is the only operation that looks at the text behind the read
    position, and the loader calls it only right after a [get]. *)

Module History.
Import IStream.

Lemma same_input_inv (s1 s2 : t) :
  same_input s1 s2 ->
  exists p1 p2 r e f b, s1 = Mk p1 r e f b /\ s2 = Mk p2 r e f b.
Proof.
  destruct s1 as [p1 r1 e1 f1 b1], s2 as [p2 r2 e2 f2 b2].
  intros (Hr & He & Hf & Hb). simpl in *. subst. eauto 10.
Qed.

Lemma skip_space_past (r : list ascii) :
  forall p1 p2, snd (skip_space p1 r) = snd (skip_space p2 r).
Proof.
  induction r as [| c r IH]; intros p1 p2; simpl; [reflexivity |].
  destruct (is_space c); [apply IH | reflexivity].
Qed.

Lemma scan_digits_past (r : list ascii) :
  forall acc n p1 p2,
    exists v m q1 q2 r',
      scan_digits acc n p1 r = (v, m, q1, r') /\
      scan_digits acc n p2 r = (v, m, q2, r').
Proof.
  induction r as [| c r IH]; intros acc n p1 p2; simpl; [eauto 10 |].
  destruct (digit_of_ascii c); [apply IH | eauto 10].
Qed.

Lemma num_get_int_past (r p1 p2 : list ascii) :
  exists v failed q1 q2 r',
    num_get_int p1 r = (v, failed, q1, r') /\
    num_get_int p2 r = (v, failed, q2, r').
Proof.
  unfold num_get_int.
  assert (Hscan : forall negative q1 q2 r0,
    exists v failed q1' q2' r',
      (let '(magnitude, ndigits, past2, rest2) := scan_digits 0 0 q1 r0 in
       match ndigits with
       | O => (0, true, past2, rest2)
       | S _ =>
           let v := if negative : bool then - magnitude else magnitude in
           if INT_MAX <? v then (INT_MAX, true, past2, rest2)
           else if v <? INT_MIN then (INT_MIN, true, past2, rest2)
           else (v, false, past2, rest2)
       end) = (v, failed, q1', r') /\
      (let '(magnitude, ndigits, past2, rest2) := scan_digits 0 0 q2 r0 in
       match ndigits with
       | O => (0, true, past2, rest2)
       | S _ =>
           let v := if negative : bool then - magnitude else magnitude in
           if INT_MAX <? v then (INT_MAX, true, past2, rest2)
           else if v <? INT_MIN then (INT_MIN, true, past2, rest2)
           else (v, false, past2, rest2)
       end) = (v, failed, q2', r')).
  { intros negative q1 q2 r0.
    destruct (scan_digits_past r0 0 0%nat q1 q2) as (v & m & q1' & q2' & r' & -> & ->).
    destruct m; [eauto 10 |]. cbv zeta.
    destruct (INT_MAX <? (if negative then - v else v)); [eauto 10 |].
    destruct ((if negative then - v else v) <? INT_MIN); eauto 10. }
  destruct r as [| c r]; [apply (Hscan false) |].
  destruct (Ascii.eqb c "-") eqn:Hminus.
  - apply Ascii.eqb_eq in Hminus. subst c. apply (Hscan true).
  - destruct (Ascii.eqb c "+") eqn:Hplus.
    + apply Ascii.eqb_eq in Hplus. subst c. apply (Hscan false).
    + replace (match c :: r with
               | "-" :: r0 => (true, "-" :: p1, r0)
               | "+" :: r0 => (false, "+" :: p1, r0)
               | _ => (false, p1, c :: r)
               end) with (false, p1, c :: r).
      replace (match c :: r with
               | "-" :: r0 => (true, "-" :: p2, r0)
               | "+" :: r0 => (false, "+" :: p2, r0)
               | _ => (false, p2, c :: r)
               end) with (false, p2, c :: r).
      * apply (Hscan false).
      * destruct c as [[] [] [] [] [] [] [] []]; try discriminate; reflexivity.
      * destruct c as [[] [] [] [] [] [] [] []]; try discriminate; reflexivity.
Qed.

Lemma ws_same (s1 s2 : t) : same_input s1 s2 -> same_input (ws s1) (ws s2).
Proof.
  intros H. apply same_input_inv in H as (p1 & p2 & r & e & f & b & -> & ->).
  unfold ws, good. cbn [consumed pending eofbit failbit badbit].
  destruct (negb (e || f || b)); [| repeat split].
  pose proof (skip_space_past r p1 p2) as Hskip.
  destruct (skip_space p1 r) as [q1 r1], (skip_space p2 r) as [q2 r2].
  simpl in Hskip. subst r2. destruct r1; repeat split.
Qed.

Lemma get_same (s1 s2 : t) :
  same_input s1 s2 ->
  fst (get s1) = fst (get s2) /\ same_input (snd (get s1)) (snd (get s2)).
Proof.
  intros H. apply same_input_inv in H as (p1 & p2 & r & e & f & b & -> & ->).
  unfold get, good. cbn [consumed pending eofbit failbit badbit].
  destruct (negb (e || f || b)); [| repeat split].
  destruct r; repeat split.
Qed.

(** [get] then [unget], as the FACE case does twice. *)
Lemma get_unget_same (s1 s2 : t) :
  same_input s1 s2 ->
  same_input (unget (snd (get s1))) (unget (snd (get s2))).
Proof.
  intros H. apply same_input_inv in H as (p1 & p2 & r & e & f & b & -> & ->).
  unfold get, unget, good, clear_eof, set_fail, set_eof.
  destruct e, f, b, r; repeat split.
Qed.

Lemma extract_int_same (old : Z) (s1 s2 : t) :
  same_input s1 s2 ->
  fst (extract_int old s1) = fst (extract_int old s2) /\
  same_input (snd (extract_int old s1)) (snd (extract_int old s2)).
Proof.
  intros H. apply same_input_inv in H as (p1 & p2 & r & e & f & b & -> & ->).
  unfold extract_int, sentry, good. cbn [consumed pending eofbit failbit badbit].
  destruct (negb (e || f || b)); [| repeat split].
  pose proof (skip_space_past r p1 p2) as Hskip.
  destruct (skip_space p1 r) as [q1 r1], (skip_space p2 r) as [q2 r2].
  simpl in Hskip. subst r2. destruct r1 as [| c r1]; [repeat split |].
  cbn [consumed pending eofbit failbit badbit].
  destruct (num_get_int_past (c :: r1) q1 q2) as (v & failed & q1' & q2' & r' & -> & ->).
  repeat split.
Qed.

Lemma extract_float_same `{FloatOps} (old : float) (s1 s2 : t) :
  same_input s1 s2 ->
  fst (extract_float old s1) = fst (extract_float old s2) /\
  same_input (snd (extract_float old s1)) (snd (extract_float old s2)).
Proof.
  intros HR. apply same_input_inv in HR as (p1 & p2 & r & e & f & b & -> & ->).
  unfold extract_float, sentry, good. cbn [consumed pending eofbit failbit badbit].
  destruct (negb (e || f || b)); [| repeat split].
  pose proof (skip_space_past r p1 p2) as Hskip.
  destruct (skip_space p1 r) as [q1 r1], (skip_space p2 r) as [q2 r2].
  simpl in Hskip. subst r2. destruct r1 as [| c r1]; [repeat split |].
  cbn [consumed pending eofbit failbit badbit].
  destruct (num_get_float (c :: r1)) as [[v failed] n].
  repeat split.
Qed.

End History.

Section HistoryLoader.
Context `{FO : FloatOps}.
Import IStream History.

Ltac same_step lemma H :=
  let Hv := fresh "Hv" in
  let H' := fresh "Hs" in
  pose proof (lemma _ _ H) as [Hv H'];
  match type of Hv with
  | fst ?a = fst ?b =>
      destruct a as [? ?]; destruct b as [? ?]; cbn [fst snd] in Hv, H'; subst
  end.

Lemma read_corner_same (vars : corner_vars) (s1 s2 : IStream.t) :
  same_input s1 s2 ->
  fst (read_corner vars s1) = fst (read_corner vars s2) /\
  same_input (snd (read_corner vars s1)) (snd (read_corner vars s2)).
Proof.
  intros H. unfold read_corner.
  assert (Htail : forall vi ti u1 u2, same_input u1 u2 ->
    fst (let '(postTexCoordCheckChar, s) := get u1 in
         if Ascii.eqb (char_of_get postTexCoordCheckChar) "/"
         then let '(ni, s0) := extract_int (normalIndex_var vars) s in
              (MkVars vi ti ni, s0)
         else (MkVars vi ti (normalIndex_var vars), unget s)) =
    fst (let '(postTexCoordCheckChar, s) := get u2 in
         if Ascii.eqb (char_of_get postTexCoordCheckChar) "/"
         then let '(ni, s0) := extract_int (normalIndex_var vars) s in
              (MkVars vi ti ni, s0)
         else (MkVars vi ti (normalIndex_var vars), unget s)) /\
    same_input
      (snd (let '(postTexCoordCheckChar, s) := get u1 in
            if Ascii.eqb (char_of_get postTexCoordCheckChar) "/"
            then let '(ni, s0) := extract_int (normalIndex_var vars) s in
                 (MkVars vi ti ni, s0)
            else (MkVars vi ti (normalIndex_var vars), unget s)))
      (snd (let '(postTexCoordCheckChar, s) := get u2 in
            if Ascii.eqb (char_of_get postTexCoordCheckChar) "/"
            then let '(ni, s0) := extract_int (normalIndex_var vars) s in
                 (MkVars vi ti ni, s0)
            else (MkVars vi ti (normalIndex_var vars), unget s)))).
  { intros vi ti u1 u2 Hu.
    pose proof (get_unget_same _ _ Hu) as Hback.
    same_step get_same Hu.
    destruct (Ascii.eqb (char_of_get _) "/").
    - same_step (extract_int_same (normalIndex_var vars)) Hs. split; auto.
    - split; auto. }
  same_step (extract_int_same (vertIndex vars)) H.
  same_step get_same Hs.
  destruct (Ascii.eqb (char_of_get _) "/"); [| split; auto].
  pose proof (get_unget_same _ _ Hs0) as Hback.
  same_step get_same Hs0. cbn [snd] in Hback.
  destruct (negb (Ascii.eqb (char_of_get _) "/")).
  - same_step (extract_int_same (texCoordIndex_var vars)) Hback. now apply Htail.
  - now apply Htail.
Qed.

Lemma corner_loop_same (indices : list nat) :
  forall vars face s1 s2,
    same_input s1 s2 ->
    fst (corner_loop indices vars face s1) = fst (corner_loop indices vars face s2) /\
    same_input (snd (corner_loop indices vars face s1))
               (snd (corner_loop indices vars face s2)).
Proof.
  induction indices as [| index more IH]; intros vars face s1 s2 H; simpl.
  - auto.
  - same_step (read_corner_same vars) H. now apply IH.
Qed.

Lemma read_floats_same (n : nat) :
  forall s1 s2,
    same_input s1 s2 ->
    fst (read_floats n s1) = fst (read_floats n s2) /\
    same_input (snd (read_floats n s1)) (snd (read_floats n s2)).
Proof.
  unfold read_floats.
  induction n as [| n IH]; intros s1 s2 H.
  - auto.
  - same_step (extract_float_same findeterminate) H.
    same_step IH Hs. auto.
Qed.

Lemma same_loader_intro (s1 s2 : IStream.t) (kind : OBJDataType)
    (geom : GeometryData) (out : list diagnostic) :
  same_input s1 s2 ->
  same_loader (MkLoader s1 kind geom out) (MkLoader s2 kind geom out).
Proof. intros H. repeat split; apply H. Qed.

Lemma step_same (st1 st2 : loader) :
  same_loader st1 st2 -> same_loader (step st1) (step st2).
Proof.
  destruct st1 as [s1 kind geom out], st2 as [s2 kind2 geom2 out2].
  intros (Hs & Hk & Hg & Ho). cbn [inStream currentDataType tempGeom cout] in *.
  subst kind2 geom2 out2. unfold step, with_stream.
  cbn [inStream currentDataType tempGeom cout].
  destruct kind.
  - apply ws_same in Hs. same_step get_same Hs.
    pose proof Hs0 as (_ & He & _). unfold eof. rewrite He. clear He.
    match goal with
    | |- context [if eofbit ?x then _ else _] => destruct (eofbit x)
    end.
    + now apply same_loader_intro.
    + same_step get_same Hs0.
      repeat match goal with
             | |- context [if ?b then _ else _] => destruct b
             end; now apply same_loader_intro.
  - same_step (read_floats_same 3) Hs. now apply same_loader_intro.
  - same_step (read_floats_same 2) Hs. now apply same_loader_intro.
  - same_step (read_floats_same 3) Hs. now apply same_loader_intro.
  - unfold read_face.
    same_step (corner_loop_same [0; 1; 2]%nat (MkVars 0 0 0) FaceData_zero) Hs.
    now apply same_loader_intro.
  - same_step get_same Hs.
    match goal with
    | |- context [match ?o with Some _ => _ | None => _ end] => destruct o as [c |]
    end.
    + destruct (Ascii.eqb c newline); now apply same_loader_intro.
    + now apply same_loader_intro.
Qed.

Lemma read_loop_same (fuel : nat) :
  forall st1 st2,
    same_loader st1 st2 ->
    visible (read_loop fuel st1) = visible (read_loop fuel st2).
Proof.
  induction fuel as [| fuel IH]; intros st1 st2 H;
    pose proof H as ((_ & He & _) & _ & Hg & Ho);
    simpl; unfold eof; rewrite He;
    destruct (eofbit (inStream st2)); simpl; try congruence.
  apply IH. now apply step_same.
Qed.

End HistoryLoader.

Section LoopTermination.
Context `{FO : FloatOps}.

Lemma read_loop_short (n : nat) :
  forall st st' fuel,
    advance n st = Some st' -> (fuel < n)%nat -> read_loop fuel st = None.
Proof.
  induction n as [| n IH]; intros st st' fuel Hadv Hlt; [lia |].
  simpl in Hadv. destruct (IStream.eof (inStream st)) eqn:Heof; [discriminate |].
  destruct fuel as [| fuel]; simpl; rewrite Heof; [reflexivity |].
  apply (IH _ st'); [assumption | lia].
Qed.

(** A state the body maps to itself, with [eofbit] clear, keeps the loop
    running for ever. *)
Lemma read_loop_stuck (st : loader) :
  IStream.eof (inStream st) = false -> step st = st ->
  forall fuel, read_loop fuel st = None.
Proof.
  intros Heof Hstep fuel. induction fuel as [| fuel IH]; simpl; rewrite Heof.
  - reflexivity.
  - now rewrite Hstep.
Qed.

Lemma read_loop_never (n : nat) (st stuck : loader) :
  advance n st = Some stuck ->
  IStream.eof (inStream stuck) = false -> step stuck = stuck ->
  forall fuel, read_loop fuel st = None.
Proof.
  intros Hadv Heof Hstep fuel.
  destruct (Nat.le_gt_cases n fuel) as [Hle | Hlt].
  - replace fuel with (n + (fuel - n))%nat by lia.
    rewrite (advance_read_loop _ _ _ _ Hadv). now apply read_loop_stuck.
  - now apply (read_loop_short n st stuck).
Qed.

End LoopTermination.

(** ** The loader on sample files *)

(** A face line that ends right after a bare position index: the [get] that
    looks for a slash takes the newline, and COMMENT then discards the whole
    next line.  Of these two face lines only the first is stored. *)
Example bare_third_corner_takes_the_newline :
  option_map (fun st => faces (tempGeom st))
    (read_loop 50
       (open (text (lines ["f 1 2 3"; "f 4 5 6"]%string)))) =
  Some [MkFace [0; 1; 2] [-1; -1; -1] [-1; -1; -1]].
Proof. vm_compute. reflexivity. Qed.

Example triangle_obj_reads :
  option_map tempGeom (read_loop 200 (open (text triangle_obj))) = Some triangle_pools.
Proof. vm_compute. reflexivity. Qed.

(** * The claims *)

Section Claims.
Context `{FO : FloatOps}.

(** C6.  When the file cannot be opened, [loadFromOBJFile] prints the
    "Unable to open" diagnostic and returns at once: the object is exactly
    what it was, so none of its five vectors has changed. *)
Theorem C6_open_failure_leaves_object_unchanged
    (fuel : nat) (fs : filesystem) (filename : string) (this : GeometryData) :
  fs filename = None ->
  loadFromOBJFile fuel fs filename this = Returned this [UnableToOpen filename] /\
  diagnostic_lines (UnableToOpen filename) =
    [("Unable to open obj file: " ++ filename)%string].
Proof.
  intros Hopen. unfold loadFromOBJFile, ifstream_open. rewrite Hopen.
  split; reflexivity.
Qed.

(** C3.  After a load into a fresh object that returns, the position vector
    holds 9 floats per parsed face and [vertexCount()] is 3 times the number
    of parsed faces (as long as that number fits the [int] it is returned
    in). *)
Theorem C3_vertexCount_is_three_per_face
    (fuel : nat) (fs : filesystem) (filename : string) (content : list ascii)
    (st : loader) (this' : GeometryData) (out : list diagnostic) :
  fs filename = Some content ->
  read_loop fuel (open content) = Some st ->
  loadFromOBJFile fuel fs filename GeometryData_new = Returned this' out ->
  3 * Z.of_nat (length (faces (tempGeom st))) <= INT_MAX ->
  length (vertices this') = (9 * length (faces (tempGeom st)))%nat /\
  vertexCount this' = 3 * Z.of_nat (length (faces (tempGeom st))).
Proof.
  intros Hfs Hread Hload Hfit.
  destruct (loadFromOBJFile_Returned _ _ _ _ _ _ _ Hfs Hload) as (st' & Hread' & Hexp & _).
  rewrite Hread in Hread'. injection Hread' as <-.
  destruct (expand_growth _ _ _ Hexp) as (_ & vs & ts & ns & tans & bitans & -> & Hvs & _).
  unfold vertexCount. cbn [append_buffers vertices GeometryData_new app].
  split; [assumption |].
  rewrite Hvs.
  replace (Z.of_nat (9 * length (faces (tempGeom st))))
    with (3 * Z.of_nat (length (faces (tempGeom st))) * 3) by lia.
  rewrite Z.div_mul by lia.
  apply wrap_int_small. unfold INT_MIN, INT_MAX in *. lia.
Qed.


End Claims.

Section TangentClaims.
Context `{FO : FloatOps}.
Import TangentSpec.

Lemma fetch_three (pool : list float) (stride index : Z) (xs : list float) :
  fetch pool stride index [0; 1; 2] = Some xs -> exists P : vec3, xs = flat3 P.
Proof.
  intros H. apply fetch_length in H.
  do 3 (destruct xs as [| ? xs]; [discriminate |]).
  destruct xs; [| discriminate]. now eexists (_, _, _).
Qed.

Lemma fetch_two (pool : list float) (stride index : Z) (xs : list float) :
  fetch pool stride index [0; 1] = Some xs -> exists UV : vec2, xs = flat2 UV.
Proof.
  intros H. apply fetch_length in H.
  do 2 (destruct xs as [| ? xs]; [discriminate |]).
  destruct xs; [| discriminate]. now eexists (_, _).
Qed.

(** C5.  For a face with texture coordinates and normals (by the test on
    corner 0), let [P0 P1 P2] and [UV0 UV1 UV2] be the pool entries of its
    three corners.  The expansion appends them to the position and texture
    vectors, computes one tangent [T] and one bitangent [B] from exactly
    these by the formula of section 4.2 with its normalization, and appends
    [T T T] to the tangents and [B B B] to the bitangents: 9 floats each.
    (The block finds the corners through [int] start indices, hence the bound
    on the two sizes.) *)
Theorem C5_one_tangent_pair_per_face
    (pools : GeometryData) (face : FaceData) (this this' : GeometryData) :
  expand_face pools face this = Some this' ->
  hasTextureCoords face = true -> hasNormals face = true ->
  sizes_fit this' ->
  exists (P0 P1 P2 : vec3) (UV0 UV1 UV2 : vec2),
    fetch (vertices pools) 3 (int3_get (vertexIndex face) 0) [0; 1; 2] = Some (flat3 P0) /\
    fetch (vertices pools) 3 (int3_get (vertexIndex face) 1) [0; 1; 2] = Some (flat3 P1) /\
    fetch (vertices pools) 3 (int3_get (vertexIndex face) 2) [0; 1; 2] = Some (flat3 P2) /\
    fetch (textureCoords pools) 2 (int3_get (texCoordIndex face) 0) [0; 1]
      = Some (flat2 UV0) /\
    fetch (textureCoords pools) 2 (int3_get (texCoordIndex face) 1) [0; 1]
      = Some (flat2 UV1) /\
    fetch (textureCoords pools) 2 (int3_get (texCoordIndex face) 2) [0; 1]
      = Some (flat2 UV2) /\
    vertices this' = vertices this ++ flat3 P0 ++ flat3 P1 ++ flat3 P2 /\
    textureCoords this' = textureCoords this ++ flat2 UV0 ++ flat2 UV1 ++ flat2 UV2 /\
    let T := tangent P0 P1 P2 UV0 UV1 UV2 in
    let B := bitangent P0 P1 P2 UV0 UV1 UV2 in
    tangents this' = tangents this ++ flat3 T ++ flat3 T ++ flat3 T /\
    bitangents this' = bitangents this ++ flat3 B ++ flat3 B ++ flat3 B /\
    length (flat3 T ++ flat3 T ++ flat3 T) = 9%nat /\
    length (flat3 B ++ flat3 B ++ flat3 B) = 9%nat.
Proof.
  intros Hface HT HN Hfit.
  destruct (expand_face_defined _ _ _ _ Hface Hfit)
    as (vs & ts & ns & tans & bitans & Hfo & ->).
  unfold face_output, corners_output, corner_output, hasBoth in Hfo.
  rewrite HT, HN in Hfo. cbn [andb] in Hfo.
  repeat match type of Hfo with
         | context [fetch ?p ?s ?i ?o] =>
             let E := fresh "E" in
             destruct (fetch p s i o) eqn:E; [| discriminate]
         end.
  repeat match goal with
         | H : fetch _ _ _ [0; 1; 2] = Some ?l |- _ =>
             is_var l; destruct (fetch_three _ _ _ _ H) as ([[? ?] ?] & ->)
         | H : fetch _ _ _ [0; 1] = Some ?l |- _ =>
             is_var l; destruct (fetch_two _ _ _ _ H) as ([? ?] & ->)
         end.
  cbn in Hfo. injection Hfo as <- <- <- <- <-.
  do 6 eexists. cbv zeta.
  repeat match goal with
         | |- _ /\ _ => split
         end; try eassumption; reflexivity.
Qed.

End TangentClaims.

Section LoadClaims.
Context `{FO : FloatOps}.

(** C9.  [loadFromOBJFile] clears nothing.  Load one file into a fresh
    object, then a second file into the same object: each of the five vectors
    is then what the first load left, followed by what the second file yields
    when loaded on its own, and [vertexCount()] is the sum of the two corner
    counts (sizes within [int] range). *)
Theorem C9_second_load_appends
    (fuel1 fuel2 : nat) (fs : filesystem) (name1 name2 : string)
    (content1 content2 : list ascii) (st1 st2 : loader)
    (first second : GeometryData) (out1 out2 : list diagnostic) :
  fs name1 = Some content1 -> fs name2 = Some content2 ->
  read_loop fuel1 (open content1) = Some st1 ->
  read_loop fuel2 (open content2) = Some st2 ->
  loadFromOBJFile fuel1 fs name1 GeometryData_new = Returned first out1 ->
  loadFromOBJFile fuel2 fs name2 first = Returned second out2 ->
  sizes_fit second ->
  exists alone out2',
    loadFromOBJFile fuel2 fs name2 GeometryData_new = Returned alone out2' /\
    second = append_buffers first (vertices alone) (textureCoords alone)
               (normals alone) (tangents alone) (bitangents alone) /\
    vertexCount second =
      3 * Z.of_nat (length (faces (tempGeom st1)))
      + 3 * Z.of_nat (length (faces (tempGeom st2))).
Proof.
  intros Hfs1 Hfs2 Hread1 Hread2 Hload1 Hload2 Hfit.
  destruct (loadFromOBJFile_Returned _ _ _ _ _ _ _ Hfs1 Hload1) as (st1' & R1 & Hexp1 & _).
  destruct (loadFromOBJFile_Returned _ _ _ _ _ _ _ Hfs2 Hload2) as (st2' & R2 & Hexp2 & _).
  rewrite Hread1 in R1. injection R1 as <-.
  rewrite Hread2 in R2. injection R2 as <-.
  destruct (expand_growth _ _ _ Hexp1) as (_ & vs1 & ts1 & ns1 & tans1 & bitans1 & Hfirst & Lv1 & _).
  unfold expand in Hexp2.
  destruct (Z.of_nat (length (faces (tempGeom st2))) <=? INT_MAX) eqn:Hsize;
    [| discriminate].
  destruct (expand_faces_defined _ _ _ _ Hexp2 Hfit)
    as (vs & ts & ns & tans & bitans & Hout & Hsecond).
  destruct (expand_faces_growth _ _ _ _ Hexp2)
    as (vs' & ts' & ns' & tans' & bitans' & Hsecond' & Lv2 & _).
  assert (Hvs : vs' = vs).
  { rewrite Hsecond in Hsecond'. unfold append_buffers in Hsecond'.
    injection Hsecond' as Hv _. now apply app_inv_head in Hv. }
  subst vs'.
  assert (Halone : expand_faces (tempGeom st2) (faces (tempGeom st2)) GeometryData_new
                   = Some (append_buffers GeometryData_new vs ts ns tans bitans)).
  { apply expand_faces_output; [assumption |].
    revert Hfit. rewrite Hsecond. unfold sizes_fit, append_buffers. simpl.
    rewrite !length_app. lia. }
  exists (append_buffers GeometryData_new vs ts ns tans bitans). eexists.
  split; [| split].
  - unfold loadFromOBJFile, ifstream_open. rewrite Hfs2.
    change (IStream.fail (IStream.of_text content2)) with false. cbv iota.
    fold (open content2). rewrite Hread2. unfold expand.
    rewrite Hsize, Halone. reflexivity.
  - exact Hsecond.
  - rewrite Hsecond, Hfirst. unfold vertexCount.
    cbn [append_buffers vertices GeometryData_new app].
    rewrite length_app, Lv1, Lv2.
    replace (Z.of_nat (9 * length (faces (tempGeom st1))
                       + 9 * length (faces (tempGeom st2))))
      with ((3 * Z.of_nat (length (faces (tempGeom st1)))
             + 3 * Z.of_nat (length (faces (tempGeom st2)))) * 3) by lia.
    rewrite Z.div_mul by lia.
    apply wrap_int_small.
    destruct Hfit as [Hfit _]. rewrite Hsecond, Hfirst in Hfit.
    cbn [append_buffers vertices GeometryData_new app] in Hfit.
    rewrite length_app, Lv1, Lv2 in Hfit. unfold INT_MIN, INT_MAX in *. lia.
Qed.

(** C10.  A load keeps the tangent and bitangent vectors in step: if they
    had the same length, a multiple of 9, they still do afterwards, and each
    has grown by 9 floats per parsed face that has both texture coordinates
    and normals.  Faces lacking either add nothing to them, so they stay at or
    below the length of the position vector, which grows by 9 per face.  A
    fresh object starts with both empty. *)
Theorem C10_tangent_and_bitangent_lengths
    (fuel : nat) (fs : filesystem) (filename : string) (content : list ascii)
    (st : loader) (this this' : GeometryData) (out : list diagnostic) :
  fs filename = Some content ->
  read_loop fuel (open content) = Some st ->
  loadFromOBJFile fuel fs filename this = Returned this' out ->
  length (tangents this) = length (bitangents this) ->
  Nat.divide 9 (length (tangents this)) ->
  length (tangents this') = length (bitangents this') /\
  Nat.divide 9 (length (tangents this')) /\
  length (tangents this') =
    (length (tangents this) + 9 * count hasBoth (faces (tempGeom st)))%nat /\
  length (vertices this') =
    (length (vertices this) + 9 * length (faces (tempGeom st)))%nat /\
  (count hasBoth (faces (tempGeom st)) <= length (faces (tempGeom st)))%nat.
Proof.
  intros Hfs Hread Hload Hsame [q Hq].
  destruct (loadFromOBJFile_Returned _ _ _ _ _ _ _ Hfs Hload) as (st' & R & Hexp & _).
  rewrite Hread in R. injection R as <-.
  destruct (expand_growth _ _ _ Hexp)
    as (_ & vs & ts & ns & tans & bitans & -> & Lv & _ & _ & Ltan & Lbit).
  cbn [append_buffers vertices tangents bitangents].
  rewrite !length_app, Lv, Ltan, Lbit, <- Hsame.
  repeat split; try reflexivity.
  - exists (q + count hasBoth (faces (tempGeom st)))%nat. lia.
  - apply count_le.
Qed.

End LoadClaims.

Section ParserClaims.
Context `{FO : FloatOps}.
Import IStream StreamFacts CornerFacts FaceLineFacts History.

(** C1.  On the line [f 1/2/3 4 5] corners 1 and 2 give no texture and no
    normal index, yet the stored face holds 1 and 2 there, not -1:
    [texCoordIndex] and [normalIndex] are declared before the corner loop and
    keep the value corner 0 read (2 and 3), from which 1 is subtracted. *)
Theorem C1_omitted_slot_keeps_previous_value :
  option_map (fun st => faces (tempGeom st))
    (read_loop 3 (open (text ("f 1/2/3 4 5" ++ String newline "")%string))) =
  Some [MkFace [0; 3; 4] [1; 1; 1] [2; 2; 2]].
Proof. vm_compute. reflexivity. Qed.

(** C2.  The line [s off] starts with none of [v], [f], [#].  The loader
    prints the parse error for [s ] and stays in NONE without skipping
    anything: it prints the error again for [of], then takes the [f] that
    follows for a face directive.  At the end of the file that stores the
    face (-1,-1,-1), which the expansion cannot look up; before a vertex line
    the failed read sets [failbit], [get] returns end-of-file without ever
    setting [eofbit], and the loop runs for ever. *)
Theorem C2_unknown_directive_is_not_skipped :
  let s_off := ("s off" ++ String newline "")%string in
  option_map (fun st => (cout st, faces (tempGeom st)))
    (read_loop 4 (open (text s_off))) =
  Some ([ExpectedDirective "s" " "; ExpectedDirective "o" "f"],
        [MkFace [-1; -1; -1] [-1; -1; -1] [-1; -1; -1]]) /\
  (forall this, loadFromOBJFile 4 (fun _ => Some (text s_off)) "a.obj" this = Undefined) /\
  (forall fuel this,
     loadFromOBJFile fuel
       (fun _ => Some (text (s_off ++ "v 0 0 0" ++ String newline "")%string))
       "a.obj" this = OutOfFuel).
Proof.
  cbv zeta. split; [vm_compute; reflexivity |]. split.
  - intros this. unfold loadFromOBJFile, ifstream_open.
    change (IStream.fail (IStream.of_text (text ("s off" ++ String newline "")%string)))
      with false. cbv iota zeta.
    fold (open (text ("s off" ++ String newline "")%string)).
    replace (read_loop 4 (open (text ("s off" ++ String newline "")%string)))
      with (Some (MkLoader
                    (Mk [newline; "f"; "f"; "o"; " "; "s"] [] true true false) COMMENT
                    (MkGeometry [] [] [] [] []
                       [MkFace [-1; -1; -1] [-1; -1; -1] [-1; -1; -1]])
                    [ExpectedDirective "s" " "; ExpectedDirective "o" "f"]))
      by (vm_compute; reflexivity).
    reflexivity.
  - intros fuel this. unfold loadFromOBJFile, ifstream_open.
    match goal with
    | |- context [IStream.fail (IStream.of_text ?c)] =>
        change (IStream.fail (IStream.of_text c)) with false; cbv iota zeta;
        fold (open c)
    end.
    rewrite (read_loop_never 5 _
               (MkLoader
                  (Mk [newline; "f"; "f"; "o"; " "; "s"] (text "v 0 0 0" ++ [newline])
                     false true false) COMMENT
                  (MkGeometry [] [] [] [] []
                     [MkFace [-1; -1; -1] [-1; -1; -1] [-1; -1; -1]])
                  [ExpectedDirective "s" " "; ExpectedDirective "o" "f"]));
      reflexivity.
Qed.

End ParserClaims.

Section IndexClaims.
Context `{FO : FloatOps}.
Import IStream StreamFacts CornerFacts FaceLineFacts History.

Lemma fetch_three_entries (pool : list float) (index : Z) (xs : list float) :
  fetch pool 3 index [0; 1; 2] = Some xs ->
  exists a b c,
    xs = [a; b; c] /\
    vec_at pool (3 * index + 0) = Some a /\
    vec_at pool (3 * index + 1) = Some b /\
    vec_at pool (3 * index + 2) = Some c.
Proof.
  intros H.
  destruct (fetch_entries _ _ _ _ _ H 0%nat 0 eq_refl) as (a & Ha & Hpa).
  destruct (fetch_entries _ _ _ _ _ H 1%nat 1 eq_refl) as (b & Hb & Hpb).
  destruct (fetch_entries _ _ _ _ _ H 2%nat 2 eq_refl) as (c & Hc & Hpc).
  apply fetch_length in H.
  do 3 (destruct xs as [| ? xs]; [discriminate |]).
  destruct xs; [| discriminate].
  simpl in Ha, Hb, Hc. injection Ha as ->. injection Hb as ->. injection Hc as ->.
  eauto 10.
Qed.

(** Whenever the expansion of a face is defined, it has added 9 positions,
    and component [i] of corner [k] is what [vertices[3*index + i]] of the
    pool gives for the stored position index of corner [k]. *)
Lemma expand_face_positions (pools : GeometryData) (face : FaceData)
    (this this' : GeometryData) :
  expand_face pools face this = Some this' ->
  length (vertices this') = (length (vertices this) + 9)%nat /\
  forall k i, (k < 3)%nat -> (i < 3)%nat ->
    nth_error (vertices this') (length (vertices this) + 3 * k + i) =
    vec_at (vertices pools) (3 * int3_get (vertexIndex face) k + Z.of_nat i).
Proof.
  intros Hface.
  destruct (expand_face_shape _ _ _ _ Hface) as (vs & ts & ns & T & B & Hout & -> & _).
  pose proof (corners_output_lengths _ _ _ _ _ _ _ Hout) as (Lv & _).
  cbn [append_buffers vertices]. rewrite length_app, Lv. split; [reflexivity |].
  unfold corners_output, corner_output in Hout.
  destruct (hasTextureCoords face), (hasNormals face);
    repeat (match type of Hout with
            | context [fetch ?p ?s ?i ?o] =>
                let E := fresh "E" in destruct (fetch p s i o) eqn:E
            end; cbv beta iota in Hout; try discriminate);
    repeat match goal with
           | H : fetch (vertices pools) 3 _ [0; 1; 2] = Some ?l |- _ =>
               is_var l;
               destruct (fetch_three_entries _ _ _ H) as (? & ? & ? & -> & ? & ? & ?);
               clear H
           end;
    injection Hout as <- _ _;
    intros k i Hk Hi;
    destruct k as [| [| [| k]]]; try lia;
    destruct i as [| [| [| i]]]; try lia;
    rewrite nth_error_app2 by lia;
    match goal with
    | |- nth_error _ (?a + ?b + ?c - ?a)%nat = _ =>
        replace (a + b + c - a)%nat with (b + c)%nat by lia
    end;
    cbn [nth_error Nat.add Nat.mul app Z.of_nat Pos.of_succ_nat Pos.succ];
    symmetry; eassumption.
Qed.

End IndexClaims.

(** * The claims on the sample files *)

Lemma C6_witness :
  sample_files "missing.obj"%string = None /\
  loadFromOBJFile 0 sample_files "missing.obj"%string triangle_mesh =
    Returned triangle_mesh [UnableToOpen "missing.obj"%string].
Proof.
  split; [reflexivity |].
  apply (C6_open_failure_leaves_object_unchanged 0 sample_files "missing.obj"%string
           triangle_mesh).
  reflexivity.
Defined.

Lemma C3_witness :
  length (faces (tempGeom triangle_loader)) = 2%nat /\
  length (vertices triangle_mesh) = 18%nat /\ vertexCount triangle_mesh = 6.
Proof.
  split; [reflexivity |].
  apply (C3_vertexCount_is_three_per_face 200 sample_files "triangle.obj"%string
           (text triangle_obj) triangle_loader triangle_mesh triangle_out).
  - reflexivity.
  - vm_compute. reflexivity.
  - vm_compute. reflexivity.
  - vm_compute. discriminate.
Defined.


Lemma C5_witness :
  exists T B : TangentSpec.vec3,
    tangents textured_mesh =
      TangentSpec.flat3 T ++ TangentSpec.flat3 T ++ TangentSpec.flat3 T /\
    bitangents textured_mesh =
      TangentSpec.flat3 B ++ TangentSpec.flat3 B ++ TangentSpec.flat3 B.
Proof.
  destruct (C5_one_tangent_pair_per_face triangle_pools textured_face
              GeometryData_new textured_mesh)
    as (P0 & P1 & P2 & UV0 & UV1 & UV2 & _ & _ & _ & _ & _ & _ & _ & _ & HT & HB & _).
  - vm_compute. reflexivity.
  - reflexivity.
  - reflexivity.
  - split; vm_compute; discriminate.
  - exists (TangentSpec.tangent P0 P1 P2 UV0 UV1 UV2),
           (TangentSpec.bitangent P0 P1 P2 UV0 UV1 UV2).
    split; assumption.
Defined.

Lemma C9_witness :
  vertexCount triangle_mesh = 6 /\
  vertexCount triangle_then_quad = 9 /\
  exists alone,
    triangle_then_quad =
      append_buffers triangle_mesh (vertices alone) (textureCoords alone)
        (normals alone) (tangents alone) (bitangents alone).
Proof.
  split; [reflexivity |].
  destruct (C9_second_load_appends 200 200 sample_files "triangle.obj"%string "quad.obj"
              (text triangle_obj) (text quad_obj) triangle_loader quad_loader
              triangle_mesh triangle_then_quad triangle_out triangle_then_quad_out)
    as (alone & out' & _ & Happ & Hcount).
  - reflexivity.
  - reflexivity.
  - vm_compute. reflexivity.
  - vm_compute. reflexivity.
  - vm_compute. reflexivity.
  - vm_compute. reflexivity.
  - split; vm_compute; discriminate.
  - split; [exact Hcount |]. exists alone. exact Happ.
Defined.

Lemma C10_witness :
  length (tangents triangle_mesh) = length (bitangents triangle_mesh) /\
  Nat.divide 9 (length (tangents triangle_mesh)) /\
  length (tangents triangle_mesh) = 9%nat /\
  length (vertices triangle_mesh) = 18%nat.
Proof.
  destruct (C10_tangent_and_bitangent_lengths 200 sample_files "triangle.obj"%string
              (text triangle_obj) triangle_loader GeometryData_new triangle_mesh
              triangle_out)
    as (Hsame & Hdiv & Htan & Hpos & _).
  - reflexivity.
  - vm_compute. reflexivity.
  - vm_compute. reflexivity.
  - reflexivity.
  - exists 0%nat. reflexivity.
  - repeat split; assumption.
Defined.

Lemma separator_space : separator [" "].
Proof.
  split; [discriminate |]. constructor; [left; reflexivity | constructor].
Defined.

Lemma index_ok_small (z : Z) : 0 < z <= 1000 -> index_ok z.
Proof. unfold index_ok, INT_MIN, INT_MAX. lia. Defined.

(** * Further properties of the loader and of its callers *)

(** ** A stalled stream *)

Module StalledFacts.
Import IStream.

Lemma stalled_inv (s : t) :
  stalled s -> exists p r b, s = Mk p r false true b.
Proof.
  destruct s as [p r e f b]. intros [Hf He]. simpl in *. subst. eauto.
Qed.

Lemma ws_stalled (s : t) : stalled s -> ws s = s.
Proof. intros H. apply stalled_inv in H as (p & r & b & ->). reflexivity. Qed.

Lemma get_stalled (s : t) : stalled s -> get s = (None, s).
Proof. intros H. apply stalled_inv in H as (p & r & b & ->). reflexivity. Qed.

Lemma unget_stalled (s : t) : stalled s -> unget s = s.
Proof. intros H. apply stalled_inv in H as (p & r & b & ->). reflexivity. Qed.

Lemma extract_int_stalled (old : Z) (s : t) :
  stalled s -> extract_int old s = (old, s).
Proof. intros H. apply stalled_inv in H as (p & r & b & ->). reflexivity. Qed.

Lemma extract_float_stalled `{FO : FloatOps} (old : float) (s : t) :
  stalled s -> extract_float old s = (old, s).
Proof. intros H. apply stalled_inv in H as (p & r & b & ->). reflexivity. Qed.

Lemma read_corner_stalled (vars : corner_vars) (s : t) :
  stalled s -> read_corner vars s = (vars, s).
Proof.
  intros H. unfold read_corner.
  rewrite (extract_int_stalled _ _ H), (get_stalled _ H). cbn [char_of_get].
  destruct vars; reflexivity.
Qed.

Lemma corner_loop_stalled (indices : list nat) :
  forall vars face s, stalled s -> snd (corner_loop indices vars face s) = s.
Proof.
  induction indices as [| index more IH]; intros vars face s H; simpl.
  - reflexivity.
  - rewrite (read_corner_stalled _ _ H). now apply IH.
Qed.

Lemma read_floats_stalled `{FO : FloatOps} (n : nat) (s : t) :
  stalled s -> snd (read_floats n s) = s.
Proof.
  intros H0. unfold read_floats. induction n as [| n IH]; [reflexivity |].
  rewrite (extract_float_stalled _ _ H0).
  destruct ((fix go (n0 : nat) (s0 : t) {struct n0} : list float * t :=
               match n0 with
               | 0%nat => ([], s0)
               | S n' =>
                   let '(x, s1) := extract_float findeterminate s0 in
                   let '(xs, s2) := go n' s1 in (x :: xs, s2)
               end) n s) as [xs s'] eqn:E.
  simpl in IH. now subst s'.
Qed.

End StalledFacts.

Section StalledLoop.
Context `{FO : FloatOps}.
Import IStream StalledFacts.

(** Whatever the state of the loader, an iteration on a stalled stream
    leaves the stream as it is. *)
Lemma step_stalled (st : loader) :
  stalled (inStream st) -> inStream (step st) = inStream st.
Proof.
  destruct st as [s kind geom out]. cbn [inStream]. intros H.
  unfold step. cbn [currentDataType inStream tempGeom cout].
  destruct kind.
  - rewrite (ws_stalled _ H), (get_stalled _ H).
    pose proof H as [_ He]. unfold eof. rewrite He.
    rewrite (get_stalled _ H). reflexivity.
  - pose proof (read_floats_stalled 3 s H) as E.
    destruct (read_floats 3 s); simpl in *; now subst.
  - pose proof (read_floats_stalled 2 s H) as E.
    destruct (read_floats 2 s); simpl in *; now subst.
  - pose proof (read_floats_stalled 3 s H) as E.
    destruct (read_floats 3 s); simpl in *; now subst.
  - pose proof (corner_loop_stalled [0; 1; 2]%nat (MkVars 0 0 0) FaceData_zero s H) as E.
    unfold read_face.
    destruct (corner_loop [0; 1; 2]%nat (MkVars 0 0 0) FaceData_zero s);
      simpl in *; now subst.
  - rewrite (get_stalled _ H). reflexivity.
Qed.

Lemma read_loop_stalled (fuel : nat) :
  forall st, stalled (inStream st) -> read_loop fuel st = None.
Proof.
  induction fuel as [| fuel IH]; intros st H; simpl;
    pose proof H as [_ He]; unfold eof; rewrite He; [reflexivity |].
  apply IH. now rewrite step_stalled.
Qed.

End StalledLoop.

(** ** The pools stay aligned *)

Section PoolFacts.
Context `{FO : FloatOps}.

Lemma read_floats_length (n : nat) :
  forall s, length (fst (read_floats n s)) = n.
Proof.
  unfold read_floats. induction n as [| n IH]; intros s; [reflexivity |].
  destruct (extract_float findeterminate s) as [x s1].
  specialize (IH s1).
  destruct ((fix go (n0 : nat) (s0 : IStream.t) {struct n0} : list float * IStream.t :=
               match n0 with
               | 0%nat => ([], s0)
               | S n' =>
                   let '(x0, s2) := extract_float findeterminate s0 in
                   let '(xs, s3) := go n' s2 in (x0 :: xs, s3)
               end) n s1) as [xs s'].
  simpl in *. now rewrite IH.
Qed.

Lemma divide_add_self (k n : nat) : Nat.divide k n -> Nat.divide k (n + k).
Proof. intros [q ->]. exists (S q). simpl. lia. Qed.

Lemma step_aligned (st : loader) :
  pools_aligned (tempGeom st) -> pools_aligned (tempGeom (step st)).
Proof.
  destruct st as [s kind geom out]. cbn [tempGeom].
  intros (Hv & Ht & Hn & Htan & Hbit).
  unfold step, with_stream. cbn [currentDataType inStream tempGeom cout].
  destruct kind.
  - destruct (IStream.get (IStream.ws s)) as [r1 s1].
    destruct (IStream.eof s1); [repeat split; assumption |].
    destruct (IStream.get s1) as [r2 s2].
    repeat match goal with
           | |- context [if ?b then _ else _] => destruct b
           end; repeat split; assumption.
  - pose proof (read_floats_length 3 s) as L.
    destruct (read_floats 3 s) as [xyz s']. cbn [fst tempGeom] in *.
    unfold pools_aligned, push_vertices. cbn [vertices textureCoords normals tangents bitangents].
    rewrite length_app, L. repeat split; try assumption. now apply divide_add_self.
  - pose proof (read_floats_length 2 s) as L.
    destruct (read_floats 2 s) as [uv s']. cbn [fst tempGeom] in *.
    unfold pools_aligned, push_textureCoords.
    cbn [vertices textureCoords normals tangents bitangents].
    rewrite length_app, L. repeat split; try assumption. now apply divide_add_self.
  - pose proof (read_floats_length 3 s) as L.
    destruct (read_floats 3 s) as [xyz s']. cbn [fst tempGeom] in *.
    unfold pools_aligned, push_normals.
    cbn [vertices textureCoords normals tangents bitangents].
    rewrite length_app, L. repeat split; try assumption. now apply divide_add_self.
  - destruct (read_face s) as [face s']. cbn [tempGeom].
    repeat split; assumption.
  - destruct (IStream.get s) as [[c |] s'].
    + destruct (Ascii.eqb c newline); repeat split; assumption.
    + repeat split; assumption.
Qed.

Lemma read_loop_aligned (fuel : nat) :
  forall st st',
    pools_aligned (tempGeom st) -> read_loop fuel st = Some st' ->
    pools_aligned (tempGeom st').
Proof.
  induction fuel as [| fuel IH]; intros st st' Hal; simpl;
    destruct (IStream.eof (inStream st)); try discriminate;
    try (intros E; injection E as <-; assumption).
  intros E. apply (IH (step st)); [now apply step_aligned | assumption].
Qed.

End PoolFacts.

(** ** Lines of a file *)

Section LineFacts.
Context `{FO : FloatOps}.
Import IStream StreamFacts CornerFacts FaceLineFacts.

Lemma sentry_run (past pad rest : list ascii) :
  spaces pad -> stops_space rest -> rest <> [] ->
  sentry (Mk past (pad ++ rest) false false false) =
  (true, Mk (rev pad ++ past) rest false false false).
Proof.
  intros Hpad Hrest Hne. unfold sentry, good.
  cbn [consumed pending eofbit failbit badbit orb negb].
  rewrite skip_space_run by assumption.
  destruct rest; [congruence | reflexivity].
Qed.

Lemma firstn_exact (t rest : list ascii) : firstn (length t) (t ++ rest) = t.
Proof. induction t as [| c t IH]; simpl; [now destruct rest | now rewrite IH]. Qed.

Lemma skipn_exact (t rest : list ascii) : skipn (length t) (t ++ rest) = rest.
Proof. induction t as [| c t IH]; simpl; [reflexivity | assumption]. Qed.

(** The float extractor on a number followed by whitespace. *)
Lemma extract_float_text (old : float) (past pad t : list ascii) (x : float)
    (c : ascii) (rest : list ascii) :
  spaces pad -> float_text t x -> is_space c = true ->
  extract_float old (Mk past (pad ++ t ++ c :: rest) false false false) =
  (x, Mk (rev t ++ rev pad ++ past) (c :: rest) false false false).
Proof.
  intros Hpad [(c0 & l & Ht & Hc0) Hread] Hc. unfold extract_float.
  rewrite sentry_run; [| assumption | subst t; exact Hc0 | subst t; discriminate].
  cbn [consumed pending eofbit failbit badbit].
  rewrite (Hread c rest Hc), firstn_exact, skipn_exact. reflexivity.
Qed.

Lemma line_tail_head (junk rest : list ascii) :
  line_tail junk ->
  exists c r, junk ++ newline :: rest = c :: r /\ is_space c = true.
Proof.
  intros [_ Hhead]. destruct junk as [| c junk]; simpl; eauto.
Qed.

Lemma separator_head (sep rest : list ascii) :
  separator sep ->
  exists c r, sep ++ rest = c :: r /\ is_space c = true /\ spaces sep.
Proof.
  intros [Hne Hall]. destruct sep as [| c sep]; [congruence |].
  inversion Hall; subst. exists c, (sep ++ rest).
  repeat split; auto using blank_is_space, blanks_spaces.
Qed.

(** [inStream >> u >> v] on two numbers. *)
Lemma read_two_floats (past sep0 t1 sep1 t2 : list ascii) (x y : float)
    (c : ascii) (rest : list ascii) :
  spaces sep0 -> separator sep1 ->
  float_text t1 x -> float_text t2 y -> is_space c = true ->
  exists past',
    read_floats 2 (Mk past (sep0 ++ t1 ++ sep1 ++ t2 ++ c :: rest) false false false) =
    ([x; y], Mk past' (c :: rest) false false false).
Proof.
  intros H0 H1 Hx Hy Hc.
  destruct (separator_head sep1 (t2 ++ c :: rest) H1) as (c1 & r1 & E1 & Hc1 & Hs1).
  unfold read_floats.
  rewrite E1, (extract_float_text _ _ _ _ x c1 r1 H0 Hx Hc1), <- E1.
  rewrite (extract_float_text _ _ _ _ y c rest Hs1 Hy Hc).
  eexists. reflexivity.
Qed.

(** [inStream >> x >> y >> z] on three numbers. *)
Lemma read_three_floats (past sep0 t1 sep1 t2 sep2 t3 : list ascii) (x y z : float)
    (c : ascii) (rest : list ascii) :
  spaces sep0 -> separator sep1 -> separator sep2 ->
  float_text t1 x -> float_text t2 y -> float_text t3 z -> is_space c = true ->
  exists past',
    read_floats 3
      (Mk past (sep0 ++ t1 ++ sep1 ++ t2 ++ sep2 ++ t3 ++ c :: rest) false false false) =
    ([x; y; z], Mk past' (c :: rest) false false false).
Proof.
  intros H0 H1 H2 Hx Hy Hz Hc.
  destruct (separator_head sep1 (t2 ++ sep2 ++ t3 ++ c :: rest) H1)
    as (c1 & r1 & E1 & Hc1 & Hs1).
  destruct (separator_head sep2 (t3 ++ c :: rest) H2) as (c2 & r2 & E2 & Hc2 & Hs2).
  unfold read_floats.
  rewrite E1, (extract_float_text _ _ _ _ x c1 r1 H0 Hx Hc1), <- E1.
  rewrite E2, (extract_float_text _ _ _ _ y c2 r2 Hs1 Hy Hc2), <- E2.
  rewrite (extract_float_text _ _ _ _ z c rest Hs2 Hz Hc).
  eexists. reflexivity.
Qed.

End LineFacts.

Section LineSteps.
Context `{FO : FloatOps}.
Import IStream StreamFacts CornerFacts FaceLineFacts.

(** What NONE does with the two characters it reads, for a first character
    [#] or [v]. *)
Lemma step_NONE_hash (geom : GeometryData) (out : list diagnostic)
    (past lead : list ascii) (c2 : ascii) (rest : list ascii) :
  spaces lead ->
  step (MkLoader (Mk past (lead ++ "#" :: c2 :: rest) false false false) NONE geom out) =
  MkLoader (Mk (c2 :: "#" :: rev lead ++ past) rest false false false) COMMENT geom out.
Proof.
  intros Hlead. unfold step. cbn [currentDataType inStream].
  rewrite ws_run by (assumption || reflexivity).
  rewrite !get_good. reflexivity.
Qed.

Lemma step_NONE_v (geom : GeometryData) (out : list diagnostic)
    (past lead : list ascii) (c2 : ascii) (rest : list ascii) :
  spaces lead ->
  step (MkLoader (Mk past (lead ++ "v" :: c2 :: rest) false false false) NONE geom out) =
  MkLoader (Mk (c2 :: "v" :: rev lead ++ past) rest false false false)
    (fst (v_entry c2)) geom (out ++ snd (v_entry c2)).
Proof.
  intros Hlead. unfold step, v_entry. cbn [currentDataType inStream].
  rewrite ws_run by (assumption || reflexivity).
  rewrite !get_good.
  cbn [eof eofbit char_of_get Ascii.eqb Bool.eqb andb negb tempGeom cout with_stream].
  destruct (Ascii.eqb c2 " " || Ascii.eqb c2 tab);
    [cbn [fst snd]; now rewrite app_nil_r |].
  destruct (Ascii.eqb c2 "t"); [cbn [fst snd]; now rewrite app_nil_r |].
  destruct (Ascii.eqb c2 "n"); [cbn [fst snd]; now rewrite app_nil_r |].
  destruct (Ascii.eqb c2 "p"); reflexivity.
Qed.

Lemma step_floats (n : nat) (kind : OBJDataType) (geom : GeometryData)
    (out : list diagnostic) (s s' : IStream.t) (xs : list float) :
  read_floats n s = (xs, s') ->
  (kind = VERTEX /\ n = 3%nat ->
   step (MkLoader s kind geom out) = MkLoader s' COMMENT (push_vertices geom xs) out) /\
  (kind = TEXTURECOORD /\ n = 2%nat ->
   step (MkLoader s kind geom out) = MkLoader s' COMMENT (push_textureCoords geom xs) out) /\
  (kind = NORMAL /\ n = 3%nat ->
   step (MkLoader s kind geom out) = MkLoader s' COMMENT (push_normals geom xs) out).
Proof.
  intros Hread. repeat split; intros [-> ->]; unfold step;
    cbn [currentDataType inStream tempGeom cout]; now rewrite Hread.
Qed.

Lemma line_tail_no_newline (junk : list ascii) :
  line_tail junk -> Forall (fun c => c <> newline) junk.
Proof. now intros [H _]. Qed.

(** A line that starts with [#]: everything up to the first newline behind
    the character that follows [#] is dropped. *)
Lemma reads_hash_line (lead : list ascii) (c2 : ascii) (junk : list ascii) :
  spaces lead -> Forall (fun c => c <> newline) junk ->
  reads_as (lead ++ "#" :: c2 :: junk ++ [newline]) (fun geom => geom) [].
Proof.
  intros Hlead Hjunk past rest geom out.
  exists (1 + S (length junk))%nat. eexists.
  rewrite <- app_assoc. cbn [app]. rewrite <- app_assoc. cbn [app].
  eapply advance_app.
  - rewrite advance_S by reflexivity. rewrite step_NONE_hash by assumption.
    reflexivity.
  - rewrite app_nil_r. now apply advance_skip_line.
Qed.

(** A [v] line whose second character selects no pool. *)
Lemma reads_unsupported_line (lead : list ascii) (c2 : ascii) (junk : list ascii) :
  spaces lead -> Forall (fun c => c <> newline) junk ->
  fst (v_entry c2) = COMMENT ->
  reads_as (lead ++ "v" :: c2 :: junk ++ [newline]) (fun geom => geom)
    (snd (v_entry c2)).
Proof.
  intros Hlead Hjunk Hkind past rest geom out.
  exists (1 + S (length junk))%nat. eexists.
  rewrite <- app_assoc. cbn [app]. rewrite <- app_assoc. cbn [app].
  eapply advance_app.
  - rewrite advance_S by reflexivity. rewrite step_NONE_v by assumption.
    rewrite Hkind. reflexivity.
  - now apply advance_skip_line.
Qed.

(** A position line. *)
Lemma reads_vertex_line (lead : list ascii) (s0 : ascii)
    (pad0 t1 sep1 t2 sep2 t3 junk : list ascii) (x y z : float) :
  spaces lead -> blank s0 -> Forall blank pad0 ->
  separator sep1 -> separator sep2 ->
  float_text t1 x -> float_text t2 y -> float_text t3 z -> line_tail junk ->
  reads_as
    (lead ++ "v" :: s0 :: pad0 ++ t1 ++ sep1 ++ t2 ++ sep2 ++ t3 ++ junk ++ [newline])
    (fun geom => push_vertices geom [x; y; z]) [].
Proof.
  intros Hlead Hs0 Hp0 H1 H2 Hx Hy Hz Htail past rest geom out.
  destruct (line_tail_head junk rest Htail) as (c & r & E & Hc).
  destruct (read_three_floats (s0 :: "v" :: rev lead ++ past) pad0 t1 sep1 t2 sep2 t3
              x y z c r (blanks_spaces _ Hp0) H1 H2 Hx Hy Hz Hc) as (past1 & Hread).
  rewrite <- E in Hread.
  exists (2 + S (length junk))%nat. eexists.
  repeat (rewrite <- app_assoc; cbn [app]).
  eapply advance_app.
  - rewrite advance_S by reflexivity. rewrite step_NONE_v by assumption.
    assert (Hv : v_entry s0 = (VERTEX, [])) by (destruct Hs0 as [-> | ->]; reflexivity).
    rewrite Hv. cbn [fst snd]. rewrite advance_S by reflexivity.
    rewrite (proj1 (step_floats 3 VERTEX _ _ _ _ _ Hread) (conj eq_refl eq_refl)).
    reflexivity.
  - rewrite !app_nil_r. apply advance_skip_line. now apply line_tail_no_newline.
Qed.

End LineSteps.

Section FaceLineReads.
Context `{FO : FloatOps}.
Import IStream StreamFacts CornerFacts FaceLineFacts.

Lemma newline_stop : stop_char newline.
Proof. split; [reflexivity | discriminate]. Qed.

(** A face line that goes on after its third corner. *)
Lemma reads_long_face_line (lead sep0 sep1 sep2 : list ascii) (c0 c1 c2 : corner)
    (s3 : ascii) (extra : list ascii) :
  spaces lead -> separator sep0 -> separator sep1 -> separator sep2 ->
  corner_ok c0 -> corner_ok c1 -> corner_ok c2 ->
  blank s3 -> Forall (fun c => c <> newline) extra ->
  reads_as (lead ++ face_line sep0 c0 sep1 c1 sep2 c2 ++ s3 :: extra ++ [newline])
    (fun geom => push_face geom (face_of c0 c1 c2)) [].
Proof.
  intros Hlead H0 H1 H2 Hc0 Hc1 Hc2 Hs3 Hextra past rest geom out.
  destruct (advance_long_face_line geom out past lead sep0 sep1 sep2 c0 c1 c2 s3
              extra rest Hlead H0 H1 H2 Hc0 Hc1 Hc2 Hs3 Hextra) as (n & past' & Hadv).
  exists n, past'. rewrite app_nil_r.
  repeat (rewrite <- app_assoc; cbn [app]).
  repeat (rewrite <- app_assoc in Hadv; cbn [app] in Hadv).
  exact Hadv.
Qed.

End FaceLineReads.

(** ** Files made of lines *)

Section FileFacts.
Context `{FO : FloatOps}.
Import IStream StreamFacts.

Lemma reads_as_nil : reads_as [] (fun geom => geom) [].
Proof.
  intros past rest geom out. exists 0%nat, past. cbn [app advance].
  now rewrite app_nil_r.
Qed.

Lemma reads_as_app (chunk1 chunk2 : list ascii)
    (effect1 effect2 : GeometryData -> GeometryData)
    (printed1 printed2 : list diagnostic) :
  reads_as chunk1 effect1 printed1 -> reads_as chunk2 effect2 printed2 ->
  reads_as (chunk1 ++ chunk2) (fun geom => effect2 (effect1 geom))
    (printed1 ++ printed2).
Proof.
  intros R1 R2 past rest geom out.
  destruct (R1 past (chunk2 ++ rest) geom out) as (n1 & past1 & A1).
  destruct (R2 past1 rest (effect1 geom) (out ++ printed1)) as (n2 & past2 & A2).
  exists (n1 + n2)%nat, past2. rewrite <- app_assoc.
  rewrite (advance_app _ _ _ _ _ A1 A2). now rewrite <- app_assoc.
Qed.

(** In NONE in front of nothing but whitespace, one more iteration sets
    [eofbit] and the loop ends, whatever fuel is left. *)
Lemma read_loop_at_end (fuel : nat) (past trail : list ascii)
    (geom : GeometryData) (out : list diagnostic) :
  spaces trail ->
  read_loop (S fuel) (MkLoader (Mk past trail false false false) NONE geom out) =
  Some (MkLoader (Mk (rev trail ++ past) [] true true false) NONE geom out).
Proof.
  intros Htrail. cbn [read_loop inStream eof eofbit].
  assert (Hstep : step (MkLoader (Mk past trail false false false) NONE geom out) =
                  MkLoader (Mk (rev trail ++ past) [] true true false) NONE geom out).
  { unfold step. cbn [currentDataType inStream]. unfold ws, good.
    cbn [consumed pending eofbit failbit badbit orb negb].
    rewrite <- (app_nil_r trail) at 1.
    rewrite skip_space_run by (assumption || exact I). reflexivity. }
  rewrite Hstep. destruct fuel; reflexivity.
Qed.

(** A file that is read as a whole by the lines it is made of, up to trailing
    whitespace: the loop ends. *)
Lemma read_loop_file (content trail : list ascii)
    (effect : GeometryData -> GeometryData) (printed : list diagnostic) :
  reads_as content effect printed -> spaces trail ->
  exists fuel past,
    forall more,
      read_loop (fuel + more) (open (content ++ trail)) =
      Some (MkLoader (Mk past [] true true false) NONE (effect GeometryData_new) printed).
Proof.
  intros Hreads Htrail.
  destruct (Hreads [] trail GeometryData_new []) as (n & past' & Hadv).
  exists (n + 1)%nat. eexists. intros more.
  unfold open, start, of_text.
  rewrite <- Nat.add_assoc, (advance_read_loop _ _ _ _ Hadv).
  cbn [app Nat.add]. now apply read_loop_at_end.
Qed.

End FileFacts.

(** ** Faces at the end of the file and faces that are too short *)

Module FaceEndFacts.
Import IStream StreamFacts CornerFacts FaceLineFacts StalledFacts.

#[local] Hint Resolve index_ok_range stops_digits_cons : corner.
#[local] Hint Extern 1 (stops_digits []) => exact I : corner.

Lemma read_corner_at_end (vars : corner_vars) (past pad : list ascii) (c : corner) :
  Forall blank pad -> corner_ok c ->
  exists past',
    read_corner vars (Mk past (pad ++ corner_text c) false false false) =
    (apply_corner vars c,
     Mk past' [] (fst (end_bits c)) (snd (end_bits c)) false).
Proof.
  intros Hpad Hc. unfold read_corner, apply_corner.
  destruct c as [v | v t | v n | v t n]; cbn [corner_text corner_ok corner_position
    corner_texture corner_normal end_bits fst snd] in *.
  - rewrite <- (app_nil_r (decimal_text v)).
    rewrite extract_int_decimal by auto with corner.
    cbn [at_end]. eexists. reflexivity.
  - destruct Hc as [Hv Ht].
    rewrite extract_int_decimal by (auto with corner; reflexivity).
    cbn [at_end]. rewrite get_good. cbn [char_of_get Ascii.eqb Bool.eqb andb].
    rewrite <- (app_nil_r (decimal_text t)).
    destruct (peek_decimal t ("/" :: rev (decimal_text v) ++ rev pad ++ past) [])
      as (c1 & Hget & Hunget & Hc1).
    rewrite Hget, Hunget. cbn [char_of_get]. rewrite Hc1. cbn [negb].
    rewrite extract_int_decimal_nopad by auto with corner.
    cbn [at_end]. eexists. reflexivity.
  - destruct Hc as [Hv Hn].
    rewrite extract_int_decimal by (auto with corner; reflexivity).
    cbn [at_end]. rewrite get_good. cbn [char_of_get Ascii.eqb Bool.eqb andb].
    rewrite get_good, unget_good. cbn [char_of_get Ascii.eqb Bool.eqb andb negb].
    rewrite get_good. cbn [char_of_get Ascii.eqb Bool.eqb andb].
    rewrite <- (app_nil_r (decimal_text n)).
    rewrite extract_int_decimal_nopad by auto with corner.
    eexists. reflexivity.
  - destruct Hc as (Hv & Ht & Hn).
    rewrite extract_int_decimal by (auto with corner; reflexivity).
    cbn [at_end]. rewrite get_good. cbn [char_of_get Ascii.eqb Bool.eqb andb].
    destruct (peek_decimal t ("/" :: rev (decimal_text v) ++ rev pad ++ past)
                ("/" :: decimal_text n)) as (c1 & Hget & Hunget & Hc1).
    rewrite Hget, Hunget. cbn [char_of_get]. rewrite Hc1. cbn [negb].
    rewrite extract_int_decimal_nopad by (auto with corner; reflexivity).
    cbn [at_end]. rewrite get_good. cbn [char_of_get Ascii.eqb Bool.eqb andb].
    rewrite <- (app_nil_r (decimal_text n)).
    rewrite extract_int_decimal_nopad by auto with corner.
    eexists. reflexivity.
Qed.

Lemma read_face_at_end (past pad0 pad1 pad2 : list ascii) (c0 c1 c2 : corner)
    (s1 s2 : ascii) :
  Forall blank pad0 -> Forall blank pad1 -> Forall blank pad2 ->
  blank s1 -> blank s2 ->
  corner_ok c0 -> corner_ok c1 -> corner_ok c2 ->
  exists past',
    read_face
      (Mk past
         (pad0 ++ corner_text c0 ++ s1 :: pad1 ++ corner_text c1 ++
          s2 :: pad2 ++ corner_text c2) false false false) =
    (face_of c0 c1 c2,
     Mk past' [] (fst (end_bits c2)) (snd (end_bits c2)) false).
Proof.
  intros Hp0 Hp1 Hp2 Hs1 Hs2 Hc0 Hc1 Hc2.
  unfold read_face. cbn [corner_loop].
  destruct (read_corner_text (MkVars 0 0 0) past pad0 c0 s1
              (pad1 ++ corner_text c1 ++ s2 :: pad2 ++ corner_text c2)
              Hp0 Hc0 (blank_stop s1 Hs1)) as (past1 & ->).
  rewrite corner_rest_pad.
  destruct (read_corner_text (apply_corner (MkVars 0 0 0) c0) past1
              (corner_pad c0 s1 pad1) c1 s2 (pad2 ++ corner_text c2)
              (corner_pad_blank c0 s1 pad1 Hs1 Hp1) Hc1 (blank_stop s2 Hs2))
    as (past2 & ->).
  rewrite corner_rest_pad.
  destruct (read_corner_at_end
              (apply_corner (apply_corner (MkVars 0 0 0) c0) c1) past2
              (corner_pad c1 s2 pad2) c2
              (corner_pad_blank c1 s2 pad2 Hs2 Hp2) Hc2) as (past3 & ->).
  exists past3. f_equal.
  pose proof (apply_corner_ok _ c0 vars_ok_zero Hc0) as (Hv0 & Ht0 & Hn0).
  pose proof (apply_corner_ok _ c1 (conj Hv0 (conj Ht0 Hn0)) Hc1) as (Hv1 & Ht1 & Hn1).
  pose proof (apply_corner_ok _ c2 (conj Hv1 (conj Ht1 Hn1)) Hc2) as (Hv2 & Ht2 & Hn2).
  unfold store_corner, face_of. cbn [vertexIndex texCoordIndex normalIndex
    FaceData_zero int3_zero int3_set].
  now rewrite !int_sub_index by assumption.
Qed.

Lemma extract_int_not_a_number (old : Z) (past pad : list ascii) (c : ascii)
    (rest : list ascii) :
  spaces pad -> not_a_number c ->
  extract_int old (Mk past (pad ++ c :: rest) false false false) =
  (0, Mk (rev pad ++ past) (c :: rest) false true false).
Proof.
  intros Hpad (Hsp & Hdig & Hminus & Hplus). unfold extract_int, sentry, good.
  cbn [consumed pending eofbit failbit badbit orb negb].
  rewrite skip_space_run by assumption.
  cbn [consumed pending eofbit failbit badbit].
  destruct c as [[] [] [] [] [] [] [] []]; try discriminate;
    try (exfalso; apply Hminus; reflexivity);
    try (exfalso; apply Hplus; reflexivity); reflexivity.
Qed.

Lemma space_stop (c : ascii) : is_space c = true -> stop_char c.
Proof.
  destruct c as [[] [] [] [] [] [] [] []]; try discriminate;
    intros _; split; (reflexivity || discriminate).
Qed.

(** A corner that does not start with a number leaves the stream stalled. *)
Lemma read_corner_not_a_number (vars : corner_vars) (past pad : list ascii)
    (c : ascii) (rest : list ascii) :
  spaces pad -> not_a_number c ->
  exists vars',
    read_corner vars (Mk past (pad ++ c :: rest) false false false) =
    (vars', Mk (rev pad ++ past) (c :: rest) false true false).
Proof.
  intros Hpad Hc. unfold read_corner.
  rewrite (extract_int_not_a_number _ _ _ _ _ Hpad Hc).
  eexists. reflexivity.
Qed.

End FaceEndFacts.

Section FaceEnd.
Context `{FO : FloatOps}.
Import IStream StreamFacts CornerFacts FaceLineFacts StalledFacts FaceEndFacts.

(** Once some iterations have stalled the stream, the loop never ends. *)
Lemma advance_stalled_never (n : nat) (st st' : loader) :
  advance n st = Some st' -> stalled (inStream st') ->
  forall fuel, read_loop fuel st = None.
Proof.
  intros Hadv Hst fuel.
  destruct (Nat.le_gt_cases n fuel) as [Hle | Hlt].
  - replace fuel with (n + (fuel - n))%nat by lia.
    rewrite (advance_read_loop _ _ _ _ Hadv). now apply read_loop_stalled.
  - now apply (read_loop_short n st st').
Qed.

(** NONE then FACE on a face line the file ends with. *)
Lemma advance_face_at_end (geom : GeometryData) (out : list diagnostic)
    (past lead sep0 sep1 sep2 : list ascii) (c0 c1 c2 : corner) :
  spaces lead -> separator sep0 -> separator sep1 -> separator sep2 ->
  corner_ok c0 -> corner_ok c1 -> corner_ok c2 ->
  exists past',
    advance 2
      (MkLoader
         (Mk past (lead ++ face_line sep0 c0 sep1 c1 sep2 c2) false false false)
         NONE geom out) =
    Some (MkLoader (Mk past' [] (fst (end_bits c2)) (snd (end_bits c2)) false)
            COMMENT (push_face geom (face_of c0 c1 c2)) out).
Proof.
  intros Hlead H0 H1 H2 Hc0 Hc1 Hc2.
  apply separator_inv in H0 as (s0 & pad0 & -> & Hs0 & Hp0).
  apply separator_inv in H1 as (s1 & pad1 & -> & Hs1 & Hp1).
  apply separator_inv in H2 as (s2 & pad2 & -> & Hs2 & Hp2).
  unfold face_line. cbn [app]. rewrite <- ?app_assoc; cbn [app].
  destruct (read_face_at_end (s0 :: "f" :: rev lead ++ past) pad0 pad1 pad2
              c0 c1 c2 s1 s2 Hp0 Hp1 Hp2 Hs1 Hs2 Hc0 Hc1 Hc2)
    as (past' & Hface).
  exists past'.
  rewrite advance_S by reflexivity.
  rewrite step_NONE_face by assumption.
  rewrite advance_S by reflexivity.
  rewrite (step_FACE _ _ _ _ _ Hface). reflexivity.
Qed.

(** A face line with two corners only, followed after whitespace by text
    that is no number: the third extraction fails and the stream stalls. *)
Lemma advance_short_face (geom : GeometryData) (out : list diagnostic)
    (past lead sep0 sep1 : list ascii) (c0 c1 : corner) (s2 : ascii)
    (gap : list ascii) (c : ascii) (rest : list ascii) :
  spaces lead -> separator sep0 -> separator sep1 ->
  corner_ok c0 -> corner_ok c1 ->
  is_space s2 = true -> spaces gap -> not_a_number c ->
  exists st',
    advance 2
      (MkLoader
         (Mk past
            (lead ++ "f" :: sep0 ++ corner_text c0 ++ sep1 ++ corner_text c1 ++
             s2 :: gap ++ c :: rest) false false false)
         NONE geom out) = Some st' /\
    stalled (inStream st') /\ currentDataType st' = COMMENT /\ cout st' = out.
Proof.
  intros Hlead H0 H1 Hc0 Hc1 Hs2 Hgap Hc.
  apply separator_inv in H0 as (s0 & pad0 & -> & Hs0 & Hp0).
  apply separator_inv in H1 as (s1 & pad1 & -> & Hs1 & Hp1).
  cbn [app]. rewrite <- ?app_assoc; cbn [app].
  rewrite advance_S by reflexivity.
  rewrite step_NONE_face by assumption.
  rewrite advance_S by reflexivity.
  unfold step. cbn [currentDataType inStream tempGeom cout].
  unfold read_face. cbn [corner_loop].
  destruct (read_corner_text (MkVars 0 0 0) (s0 :: "f" :: rev lead ++ past) pad0 c0 s1
              (pad1 ++ corner_text c1 ++ s2 :: gap ++ c :: rest)
              Hp0 Hc0 (blank_stop s1 Hs1)) as (past1 & ->).
  rewrite corner_rest_pad.
  destruct (read_corner_text (apply_corner (MkVars 0 0 0) c0) past1
              (corner_pad c0 s1 pad1) c1 s2 (gap ++ c :: rest)
              (corner_pad_blank c0 s1 pad1 Hs1 Hp1) Hc1 (space_stop s2 Hs2))
    as (past2 & ->).
  rewrite corner_rest_pad.
  assert (Hpad : spaces (corner_pad c1 s2 gap)).
  { destruct c1; cbn [corner_pad]; try assumption; constructor; assumption. }
  destruct (read_corner_not_a_number
              (apply_corner (apply_corner (MkVars 0 0 0) c0) c1) past2
              (corner_pad c1 s2 gap) c rest Hpad Hc) as (vars' & ->).
  eexists. split; [reflexivity |]. cbn [inStream currentDataType cout].
  repeat split.
Qed.

End FaceEnd.

(** ** When the expansion is defined *)

Section RangeFacts.
Context `{FO : FloatOps}.

Lemma vec_at_Some {A : Type} (v : list A) (i : Z) :
  (exists x, vec_at v i = Some x) <-> 0 <= i < Z.of_nat (length v).
Proof.
  unfold vec_at. destruct (0 <=? i) eqn:Hpos.
  - apply Z.leb_le in Hpos. split.
    + intros [x Hx]. assert (Hlt : (Z.to_nat i < length v)%nat).
      { apply nth_error_Some. congruence. }
      lia.
    + intros Hi. destruct (nth_error v (Z.to_nat i)) as [x |] eqn:Hx; [eauto |].
      apply nth_error_None in Hx. lia.
  - apply Z.leb_gt in Hpos. split; [intros [x Hx]; discriminate | lia].
Qed.

Lemma int_checked_in_range (z : Z) :
  INT_MIN <= z <= INT_MAX -> int_checked z = Some z.
Proof.
  intros [Hlo Hhi]. unfold int_checked.
  apply Z.leb_le in Hlo, Hhi. now rewrite Hlo, Hhi.
Qed.

Lemma int_checked_defined (z : Z) :
  (exists v, int_checked z = Some v) <-> INT_MIN <= z <= INT_MAX.
Proof.
  split.
  - intros [v Hv]. now apply int_checked_Some in Hv.
  - intros Hz. exists z. now apply int_checked_in_range.
Qed.

(** A fetch is defined exactly when no address overflows and every address
    is inside the pool. *)
Lemma fetch_defined (pool : list float) (stride index : Z) (offsets : list Z) :
  (exists xs, fetch pool stride index offsets = Some xs) <->
  (forall i, In i offsets ->
     INT_MIN <= stride * index <= INT_MAX /\
     INT_MIN <= stride * index + i <= INT_MAX /\
     0 <= stride * index + i < Z.of_nat (length pool)).
Proof.
  unfold fetch. induction offsets as [| i0 more IH]; simpl.
  - split; [intros _ i [] | eauto].
  - split.
    + intros [xs E].
      destruct (int_checked (stride * index)) as [base |] eqn:Hbase; [| discriminate].
      apply int_checked_Some in Hbase as [-> Hbase].
      destruct (int_checked (stride * index + i0)) as [position |] eqn:Hpos;
        [| discriminate].
      apply int_checked_Some in Hpos as [-> Hpos].
      destruct (vec_at pool (stride * index + i0)) as [x |] eqn:Hx; [| discriminate].
      rewrite copy_components_fetch in E. fold (fetch pool stride index more) in E.
      destruct (fetch pool stride index more) as [ys |] eqn:Hys; [| discriminate].
      intros i [<- | Hi].
      * repeat split; try apply Hbase; try apply Hpos;
          apply (proj1 (vec_at_Some pool _)); eauto.
      * apply IH; eauto.
    + intros Hall. destruct (Hall i0 (or_introl eq_refl)) as (Hbase & Hpos & Hin).
      rewrite (int_checked_in_range _ Hbase), (int_checked_in_range _ Hpos).
      apply vec_at_Some in Hin as [x ->].
      rewrite copy_components_fetch. fold (fetch pool stride index more).
      destruct (proj2 IH) as [ys Hys]; [intros i Hi; apply Hall; now right |].
      unfold fetch in Hys |- *. rewrite Hys. eauto.
Qed.

Lemma fetch3_defined (pool : list float) (index : Z) :
  (exists xs, fetch pool 3 index [0; 1; 2] = Some xs) <-> index_in_pool pool 3 index.
Proof.
  rewrite fetch_defined. unfold index_in_pool, INT_MIN, INT_MAX. split.
  - intros Hall.
    pose proof (Hall 0 (or_introl eq_refl)).
    pose proof (Hall 2 (or_intror (or_intror (or_introl eq_refl)))). lia.
  - intros Hin i [<- | [<- | [<- | []]]]; lia.
Qed.

Lemma fetch2_defined (pool : list float) (index : Z) :
  (exists xs, fetch pool 2 index [0; 1] = Some xs) <-> index_in_pool pool 2 index.
Proof.
  rewrite fetch_defined. unfold index_in_pool, INT_MIN, INT_MAX. split.
  - intros Hall.
    pose proof (Hall 0 (or_introl eq_refl)).
    pose proof (Hall 1 (or_intror (or_introl eq_refl))). lia.
  - intros Hin i [<- | [<- | []]]; lia.
Qed.

Lemma corner_output_defined (pools : GeometryData) (face : FaceData) (k : nat) :
  (exists out,
     corner_output pools face (hasTextureCoords face) (hasNormals face) k = Some out) <->
  (index_in_pool (vertices pools) 3 (int3_get (vertexIndex face) k) /\
   (hasTextureCoords face = true ->
    index_in_pool (textureCoords pools) 2 (int3_get (texCoordIndex face) k)) /\
   (hasNormals face = true ->
    index_in_pool (normals pools) 3 (int3_get (normalIndex face) k))).
Proof.
  unfold corner_output.
  rewrite <- fetch3_defined, <- fetch2_defined, <- fetch3_defined.
  destruct (fetch (vertices pools) 3 _ _) as [vs |].
  2: { split; [intros [out E]; discriminate | intros ([xs E] & _); discriminate]. }
  destruct (hasTextureCoords face).
  - destruct (fetch (textureCoords pools) 2 _ _) as [ts |].
    2: { split; [intros [out E]; discriminate |].
         intros (_ & Ht & _). destruct (Ht eq_refl); discriminate. }
    destruct (hasNormals face).
    + destruct (fetch (normals pools) 3 _ _) as [ns |].
      2: { split; [intros [out E]; discriminate |].
           intros (_ & _ & Hn). destruct (Hn eq_refl); discriminate. }
      split; eauto 7.
    + split; [| eauto]. intros _. repeat split; eauto. discriminate.
  - destruct (hasNormals face).
    + destruct (fetch (normals pools) 3 _ _) as [ns |].
      2: { split; [intros [out E]; discriminate |].
           intros (_ & _ & Hn). destruct (Hn eq_refl); discriminate. }
      split; [| eauto]. intros _. repeat split; eauto. discriminate.
    + split; [| eauto]. intros _. repeat split; eauto; discriminate.
Qed.

Lemma corners_output_defined (pools : GeometryData) (face : FaceData) :
  (exists out,
     corners_output pools face (hasTextureCoords face) (hasNormals face) = Some out) <->
  face_in_range pools face.
Proof.
  unfold corners_output, face_in_range. split.
  - intros [out E] k Hk. apply corner_output_defined.
    destruct (corner_output pools face _ _ 0) as [o0 |] eqn:E0; [| discriminate].
    destruct (corner_output pools face _ _ 1) as [o1 |] eqn:E1; [| discriminate].
    destruct (corner_output pools face _ _ 2) as [o2 |] eqn:E2; [| discriminate].
    destruct k as [| [| [| k]]]; eauto. lia.
  - intros Hall.
    destruct (proj2 (corner_output_defined pools face 0) (Hall 0%nat ltac:(lia)))
      as [[[vs0 ts0] ns0] ->].
    destruct (proj2 (corner_output_defined pools face 1) (Hall 1%nat ltac:(lia)))
      as [[[vs1 ts1] ns1] ->].
    destruct (proj2 (corner_output_defined pools face 2) (Hall 2%nat ltac:(lia)))
      as [[[vs2 ts2] ns2] ->].
    eauto.
Qed.

(** One face, onto an object whose vectors leave room below [INT_MAX]. *)
Lemma expand_face_in_range (pools : GeometryData) (face : FaceData)
    (this : GeometryData) :
  Z.of_nat (length (vertices this)) + 9 <= INT_MAX ->
  Z.of_nat (length (textureCoords this)) + 6 <= INT_MAX ->
  ((exists this', expand_face pools face this = Some this') <->
   face_in_range pools face).
Proof.
  intros Hv Ht. rewrite <- corners_output_defined. split.
  - intros [this' E].
    apply expand_face_shape in E as (vs & ts & ns & _ & _ & Hout & _). eauto.
  - intros [[[vs ts] ns] Hout].
    pose proof (corners_output_lengths _ _ _ _ _ _ _ Hout) as (Lv & Lt & Ln).
    assert (exists tans bitans,
               face_output pools face = Some (vs, ts, ns, tans, bitans))
      as (tans & bitans & Hfo).
    { unfold face_output. rewrite Hout. unfold hasBoth in *.
      destruct (hasTextureCoords face), (hasNormals face); simpl; eauto.
      destruct (nine_floats vs Lv) as ([[? ?] ?] & [[? ?] ?] & [[? ?] ?] & ->).
      destruct (six_floats ts Lt) as ([? ?] & [? ?] & [? ?] & ->).
      simpl. eauto. }
    eexists. apply (expand_face_output _ _ _ _ _ _ _ _ Hfo).
    unfold sizes_fit, append_buffers. simpl. rewrite !length_app.
    destruct (hasTextureCoords face); lia.
Qed.

Lemma expand_faces_in_range (pools : GeometryData) (todo : list FaceData) :
  forall this,
    Z.of_nat (length (vertices this)) + 9 * Z.of_nat (length todo) <= INT_MAX ->
    Z.of_nat (length (textureCoords this)) + 6 * Z.of_nat (length todo) <= INT_MAX ->
    ((exists this', expand_faces pools todo this = Some this') <->
     Forall (face_in_range pools) todo).
Proof.
  induction todo as [| face more IH]; intros this Hv Ht.
  - simpl. split; [constructor | eauto].
  - cbn [length] in Hv, Ht. cbn [expand_faces].
    assert (Hface := expand_face_in_range pools face this ltac:(lia) ltac:(lia)).
    split.
    + intros [this' E].
      destruct (expand_face pools face this) as [mid |] eqn:Hmid; [| discriminate].
      constructor; [apply Hface; eauto |].
      destruct (expand_face_shape _ _ _ _ Hmid) as (vs & ts & ns & T & B & Hout & -> & _).
      pose proof (corners_output_lengths _ _ _ _ _ _ _ Hout) as (Lv & Lt & _).
      apply (IH (append_buffers this vs ts ns (T ++ T ++ T) (B ++ B ++ B))); eauto;
        unfold append_buffers; cbn [vertices textureCoords]; rewrite length_app;
        destruct (hasTextureCoords face); lia.
    + intros Hall. inversion Hall as [| ? ? Hf Hmore]; subst.
      destruct (proj2 Hface Hf) as [mid Hmid]. rewrite Hmid.
      destruct (expand_face_shape _ _ _ _ Hmid) as (vs & ts & ns & T & B & Hout & -> & _).
      pose proof (corners_output_lengths _ _ _ _ _ _ _ Hout) as (Lv & Lt & _).
      apply IH; try assumption;
        unfold append_buffers; cbn [vertices textureCoords]; rewrite length_app;
        destruct (hasTextureCoords face); lia.
Qed.

End RangeFacts.

(** ** Whole loads *)

Section LoadFacts.
Context `{FO : FloatOps}.
Import IStream StreamFacts.

Lemma loadFromOBJFile_opened (fuel : nat) (fs : filesystem) (filename : string)
    (content : list ascii) (this : GeometryData) :
  fs filename = Some content ->
  loadFromOBJFile fuel fs filename this =
  match read_loop fuel (open content) with
  | None => OutOfFuel
  | Some st =>
      match expand (tempGeom st) this with
      | None => Undefined
      | Some this' =>
          Returned this' (cout st ++ [Loaded (Z.of_nat (length (vertices this')) / 3)])
      end
  end.
Proof. unfold loadFromOBJFile, ifstream_open. now intros ->. Qed.

Lemma expand_no_faces (this : GeometryData) : expand GeometryData_new this = Some this.
Proof. reflexivity. Qed.

(** The loop on a file that holds whitespace only. *)
Lemma read_loop_blank_file (fuel : nat) (content : list ascii) :
  spaces content ->
  read_loop (S fuel) (open content) =
  Some (MkLoader (Mk (rev content ++ []) [] true true false) NONE GeometryData_new []).
Proof. intros Hc. unfold open, start, of_text. now apply read_loop_at_end. Qed.

End LoadFacts.

(** ** The mesh handed to OpenGL *)

Section RenderFacts.
Context `{FO : FloatOps}.

Lemma wrap_size_t_small (z : Z) :
  0 <= z < 18446744073709551616 -> wrap_size_t z = z.
Proof. intros Hz. unfold wrap_size_t. now apply Z.mod_small. Qed.

Lemma address_of_first_Some (v data : list float) :
  address_of_first v = Some data -> data = v /\ v <> [].
Proof.
  unfold address_of_first. destruct v as [| x v]; [discriminate |].
  intros E. injection E as <-. split; [reflexivity | discriminate].
Qed.

(** A load into a fresh object leaves nine floats per face in [vertices]. *)
Lemma fresh_load_vertices (fuel : nat) (fs : filesystem) (filename : string)
    (doggo : GeometryData) (out : list diagnostic) :
  loadFromOBJFile fuel fs filename GeometryData_new = Returned doggo out ->
  Nat.divide 9 (length (vertices doggo)).
Proof.
  intros Hload. destruct (fs filename) as [content |] eqn:Hfs.
  - destruct (loadFromOBJFile_Returned fuel fs filename content GeometryData_new
                doggo out Hfs Hload) as (st & _ & Hexp & _).
    apply expand_growth in Hexp as (_ & vs & ts & ns & tans & bitans & -> & Lv & _).
    unfold append_buffers. cbn [vertices GeometryData_new app].
    exists (length (faces (tempGeom st))). lia.
  - unfold loadFromOBJFile, ifstream_open in Hload. rewrite Hfs in Hload.
    cbn in Hload. injection Hload as <- _. exists 0%nat. reflexivity.
Qed.

Lemma render_mesh_Drawn (fuel : nat) (fs : filesystem) (u : mesh_upload) :
  render_mesh fuel fs = Drawn u ->
  exists doggo out,
    loadFromOBJFile fuel fs doggo_path GeometryData_new = Returned doggo out /\
    upload_data u = vertices doggo /\ vertices doggo <> [] /\
    draw_count u = vertexCount doggo /\
    int_checked (vertexCount doggo * 3) <> None /\
    upload_bytes u =
      wrap_size_t (wrap_size_t (vertexCount doggo * 3) * sizeof_float).
Proof.
  unfold render_mesh.
  destruct (loadFromOBJFile fuel fs doggo_path GeometryData_new)
    as [doggo out | |]; try discriminate.
  destruct (int_checked (vertexCount doggo * 3)) as [count3 |] eqn:Hcount;
    [| discriminate].
  destruct (vertexData doggo) as [data |] eqn:Hdata; [| discriminate].
  intros E. injection E as <-. cbn [upload_data draw_count upload_bytes].
  apply int_checked_Some in Hcount as [-> Hrange].
  apply address_of_first_Some in Hdata as [-> Hne].
  exists doggo, out. repeat split; try assumption; try reflexivity.
  rewrite (int_checked_in_range _ Hrange). discriminate.
Qed.

End RenderFacts.

(** ** The event loops *)

Lemma main_poll_stopped (events : list SDL_Event) : main_poll false events = false.
Proof.
  induction events as [| e more IH]; [reflexivity |].
  destruct e; cbn [main_poll]; try assumption.
  destruct (negb (handleEvent (SDL_KEYDOWN sym))); assumption.
Qed.

(** ** The symbolic floats on the texts of the sample files *)

Lemma float_text_0 : @float_text SymbolicFloat (text "0") (SLit "0").
Proof.
  split; [eexists; eexists; split; reflexivity |].
  intros c rest Hc.
  destruct c as [[] [] [] [] [] [] [] []]; try discriminate; reflexivity.
Qed.

Lemma float_text_1 : @float_text SymbolicFloat (text "1") (SLit "1").
Proof.
  split; [eexists; eexists; split; reflexivity |].
  intros c rest Hc.
  destruct c as [[] [] [] [] [] [] [] []]; try discriminate; reflexivity.
Qed.

Lemma line_tail_nil : line_tail [].
Proof. split; [constructor | exact I]. Qed.

Lemma spaces_nil : spaces [].
Proof. constructor. Qed.

(** * Indices, from the face line to the buffers *)

Section IndexProperties.
Context `{FO : FloatOps}.
Import IStream StreamFacts CornerFacts FaceLineFacts History.

(** C7.  Parser: after the NONE and FACE iterations on a face line with
    corners [c0 c1 c2], one face has been added; its position indices are the
    three position indices of the line minus 1, and wherever a corner writes
    a texture or normal index the stored one is that index minus 1.
    Expander: for a face whose indices lie inside their pools, onto an object
    whose vectors leave room below [INT_MAX], the expansion is defined and
    adds 9 positions, and component [i] of corner [k] is the pool entry
    number [3*index + i], for the stored position index of corner [k].
    And for every face whose expansion is defined, whatever the sizes, that
    component is what [vertices[3*index + i]] of the pool gives. *)
Theorem C7_indices_are_one_based :
  (forall (geom : GeometryData) (out : list diagnostic)
          (past lead sep0 sep1 sep2 : list ascii) (c0 c1 c2 : corner) (s3 : ascii)
          (rest : list ascii),
      spaces lead -> separator sep0 -> separator sep1 -> separator sep2 ->
      corner_ok c0 -> corner_ok c1 -> corner_ok c2 -> stop_char s3 ->
      exists st' face,
        advance 2
          (MkLoader
             (Mk past (lead ++ face_line sep0 c0 sep1 c1 sep2 c2 ++ s3 :: rest)
                false false false)
             NONE geom out) = Some st' /\
        faces (tempGeom st') = faces geom ++ [face] /\
        vertexIndex face =
          [corner_position c0 - 1; corner_position c1 - 1; corner_position c2 - 1] /\
        (forall k c t, nth_error [c0; c1; c2] k = Some c -> corner_texture c = Some t ->
                       int3_get (texCoordIndex face) k = t - 1) /\
        (forall k c n, nth_error [c0; c1; c2] k = Some c -> corner_normal c = Some n ->
                       int3_get (normalIndex face) k = n - 1)) /\
  (forall (pools : GeometryData) (face : FaceData) (this : GeometryData),
      face_in_range pools face ->
      Z.of_nat (length (vertices this)) + 9 <= INT_MAX ->
      Z.of_nat (length (textureCoords this)) + 6 <= INT_MAX ->
      exists this',
        expand_face pools face this = Some this' /\
        length (vertices this') = (length (vertices this) + 9)%nat /\
        forall k i, (k < 3)%nat -> (i < 3)%nat ->
          exists x,
            nth_error (vertices pools)
              (3 * Z.to_nat (int3_get (vertexIndex face) k) + i) = Some x /\
            nth_error (vertices this') (length (vertices this) + 3 * k + i) = Some x) /\
  (forall (pools : GeometryData) (face : FaceData) (this this' : GeometryData),
      expand_face pools face this = Some this' ->
      length (vertices this') = (length (vertices this) + 9)%nat /\
      forall k i, (k < 3)%nat -> (i < 3)%nat ->
        nth_error (vertices this') (length (vertices this) + 3 * k + i) =
        vec_at (vertices pools) (3 * int3_get (vertexIndex face) k + Z.of_nat i)).
Proof.
  split; [| split].
  - intros geom out past lead sep0 sep1 sep2 c0 c1 c2 s3 rest
      Hlead H0 H1 H2 Hc0 Hc1 Hc2 Hs3.
    destruct (advance_face_line geom out past lead sep0 sep1 sep2 c0 c1 c2 s3 rest
                Hlead H0 H1 H2 Hc0 Hc1 Hc2 Hs3) as (past' & Hadv).
    eexists. exists (face_of c0 c1 c2). split; [exact Hadv |].
    split; [reflexivity |]. split; [reflexivity |].
    split; intros k c x Hk Hx;
      destruct k as [| [| [| k]]]; simpl in Hk; try (destruct k; discriminate);
      injection Hk as <-; unfold face_of, apply_corner;
      cbn [texCoordIndex normalIndex int3_get nth texCoordIndex_var normalIndex_var];
      rewrite Hx; reflexivity.
  - intros pools face this Hrange Hv Ht.
    destruct (proj2 (expand_face_in_range pools face this Hv Ht) Hrange)
      as [this' Hface].
    exists this'. split; [exact Hface |].
    destruct (expand_face_positions _ _ _ _ Hface) as [Hlen Hcopy].
    split; [exact Hlen |]. intros k i Hk Hi.
    destruct (Hrange k Hk) as ((Hpos & Hin & _) & _).
    rewrite (Hcopy k i Hk Hi). unfold vec_at.
    replace (0 <=? 3 * int3_get (vertexIndex face) k + Z.of_nat i) with true
      by (symmetry; apply Z.leb_le; lia).
    replace (Z.to_nat (3 * int3_get (vertexIndex face) k + Z.of_nat i))
      with (3 * Z.to_nat (int3_get (vertexIndex face) k) + i)%nat by lia.
    destruct (nth_error (vertices pools)
                (3 * Z.to_nat (int3_get (vertexIndex face) k) + i)) as [x |] eqn:Hx.
    + exists x. split; reflexivity.
    + apply nth_error_None in Hx. lia.
  - intros pools face this this'. apply expand_face_positions.
Qed.

(** X24.  A face line that goes on after its third corner ([extra] is any
    text without a newline, for instance further corners).  Exactly one
    face, made of the first three corners, is appended to [tempGeom.faces];
    the pools and the output are untouched; everything up to and including
    the newline is dropped and the loader is in NONE with a good stream at
    the start of the next line.  What the load sees from there on is the
    same whatever the dropped text was ([extra'] is any other such text, the
    empty one included). *)
Theorem X24_text_behind_the_third_corner_is_dropped
    (geom : GeometryData) (out : list diagnostic)
    (past lead sep0 sep1 sep2 : list ascii) (c0 c1 c2 : corner) (s3 : ascii)
    (extra extra' rest : list ascii) :
  spaces lead -> separator sep0 -> separator sep1 -> separator sep2 ->
  corner_ok c0 -> corner_ok c1 -> corner_ok c2 ->
  blank s3 ->
  Forall (fun c => c <> newline) extra -> Forall (fun c => c <> newline) extra' ->
  exists n n' past',
    advance n
      (MkLoader
         (Mk past
            (lead ++ face_line sep0 c0 sep1 c1 sep2 c2 ++ s3 :: extra ++ newline :: rest)
            false false false)
         NONE geom out) =
      Some (MkLoader (Mk past' rest false false false) NONE
              (MkGeometry (vertices geom) (textureCoords geom) (normals geom)
                 (tangents geom) (bitangents geom)
                 (faces geom ++ [face_of c0 c1 c2]))
              out) /\
    forall fuel,
      visible
        (read_loop (n + fuel)
           (MkLoader
              (Mk past
                 (lead ++ face_line sep0 c0 sep1 c1 sep2 c2 ++
                  s3 :: extra ++ newline :: rest)
                 false false false)
              NONE geom out)) =
      visible
        (read_loop (n' + fuel)
           (MkLoader
              (Mk past
                 (lead ++ face_line sep0 c0 sep1 c1 sep2 c2 ++
                  s3 :: extra' ++ newline :: rest)
                 false false false)
              NONE geom out)).
Proof.
  intros Hlead H0 H1 H2 Hc0 Hc1 Hc2 Hs3 Hextra Hextra'.
  destruct (advance_long_face_line geom out past lead sep0 sep1 sep2 c0 c1 c2 s3
              extra rest Hlead H0 H1 H2 Hc0 Hc1 Hc2 Hs3 Hextra)
    as (n & past1 & Hadv).
  destruct (advance_long_face_line geom out past lead sep0 sep1 sep2 c0 c1 c2 s3
              extra' rest Hlead H0 H1 H2 Hc0 Hc1 Hc2 Hs3 Hextra')
    as (n' & past2 & Hadv').
  exists n, n', past1. split; [exact Hadv |].
  intros fuel.
  rewrite (advance_read_loop _ _ _ fuel Hadv), (advance_read_loop _ _ _ fuel Hadv').
  apply read_loop_same. apply same_loader_intro. repeat split.
Qed.

End IndexProperties.


(** The line [f 3 1 2] stores the position indices 2, 0, 1, and the
    expansion of that face puts pool entry 7 at place 1, entry 0 at place 3
    and entry 5 at place 8. *)
Lemma C7_witness :
  (exists st' face,
     advance 2
       (MkLoader (IStream.of_text (text ("f 3 1 2" ++ String newline "")%string))
          NONE GeometryData_new []) = Some st' /\
     faces (tempGeom st') = [face] /\ vertexIndex face = [2; 0; 1]) /\
  (exists this',
     expand_face numbered_pools rotated_face GeometryData_new = Some this' /\
     length (vertices this') = 9%nat /\
     nth_error (vertices this') 1 = Some (SLit "31") /\
     nth_error (vertices this') 3 = Some (SLit "10") /\
     nth_error (vertices this') 8 = Some (SLit "22")).
Proof.
  destruct (@C7_indices_are_one_based SymbolicFloat) as (Hparser & Hexpander & _).
  split.
  - destruct (Hparser GeometryData_new [] [] [] [" "] [" "] [" "]
                (Position 3) (Position 1) (Position 2) newline [])
      as (st' & face & Hadv & Hfaces & Hindex & _).
    + constructor.
    + exact separator_space.
    + exact separator_space.
    + exact separator_space.
    + apply index_ok_small. lia.
    + apply index_ok_small. lia.
    + apply index_ok_small. lia.
    + split; [reflexivity | discriminate].
    + exists st', face. repeat split; assumption.
  - destruct (Hexpander numbered_pools rotated_face GeometryData_new)
      as (this' & Hface & Hlen & Hcopy).
    + intros k Hk. destruct k as [| [| [| k]]]; [| | | lia];
        (split; [unfold index_in_pool, INT_MAX; cbn; lia |]);
        split; discriminate.
    + vm_compute. discriminate.
    + vm_compute. discriminate.
    + exists this'. split; [exact Hface |]. split; [exact Hlen |].
      destruct (Hcopy 0%nat 1%nat) as (x1 & Hx1 & Hy1); [lia | lia |].
      destruct (Hcopy 1%nat 0%nat) as (x3 & Hx3 & Hy3); [lia | lia |].
      destruct (Hcopy 2%nat 2%nat) as (x8 & Hx8 & Hy8); [lia | lia |].
      cbn in Hx1, Hx3, Hx8.
      injection Hx1 as <-. injection Hx3 as <-. injection Hx8 as <-.
      repeat split; assumption.
Defined.

(** The line [f 1 2 3 4] before a position line, against the line that
    carries [5 6] in place of the [4]. *)
Lemma X24_witness :
  exists n n' past',
    advance n
      (MkLoader
         (IStream.of_text
            (text ("f 1 2 3 4" ++ String newline ("v 9 9 9" ++ String newline ""))%string))
         NONE GeometryData_new []) =
    Some (MkLoader
            (IStream.Mk past' (text ("v 9 9 9" ++ String newline "")%string)
               false false false)
            NONE
            (MkGeometry [] [] [] [] [] [MkFace [0; 1; 2] [-1; -1; -1] [-1; -1; -1]])
            []) /\
    forall fuel,
      visible
        (read_loop (n + fuel)
           (MkLoader
              (IStream.of_text
                 (text ("f 1 2 3 4" ++ String newline ("v 9 9 9" ++ String newline ""))%string))
              NONE GeometryData_new [])) =
      visible
        (read_loop (n' + fuel)
           (MkLoader
              (IStream.of_text
                 (text ("f 1 2 3 5 6" ++ String newline ("v 9 9 9" ++ String newline ""))%string))
              NONE GeometryData_new [])).
Proof.
  apply (@X24_text_behind_the_third_corner_is_dropped SymbolicFloat GeometryData_new
           [] [] [] [" "] [" "] [" "] (Position 1) (Position 2) (Position 3) " "
           ["4"] ["5"; " "; "6"] (text ("v 9 9 9" ++ String newline "")%string)).
  - constructor.
  - exact separator_space.
  - exact separator_space.
  - exact separator_space.
  - apply index_ok_small. lia.
  - apply index_ok_small. lia.
  - apply index_ok_small. lia.
  - left. reflexivity.
  - constructor; [discriminate | constructor].
  - repeat (constructor; [discriminate |]). constructor.
Defined.

(** * Properties of the reading loop, line by line *)

Section LoopProperties.
Context `{FO : FloatOps}.
Import IStream StreamFacts CornerFacts FaceLineFacts.

(** X1.  Once an extraction has failed before the end of the file
    ([failbit] set, [eofbit] clear), every later read fails without setting
    [eofbit]: the condition [!inStream.eof()] of the [while] loop stays true
    and [loadFromOBJFile] never returns, whatever the state the loader is
    in and whatever is left of the file. *)
Theorem X1_failed_read_keeps_the_loop_running (fs : filesystem) (filename : string)
    (content : list ascii) (n : nat) (st' : loader) (this : GeometryData) :
  fs filename = Some content ->
  advance n (open content) = Some st' ->
  stalled (inStream st') ->
  forall fuel, loadFromOBJFile fuel fs filename this = OutOfFuel.
Proof.
  intros Hfs Hadv Hst fuel. rewrite (loadFromOBJFile_opened _ _ _ _ _ Hfs).
  now rewrite (advance_stalled_never _ _ _ Hadv Hst).
Qed.

(** X2.  Whenever the reading loop ends, the pools of [tempGeom] hold whole
    entries: positions and normals in threes, texture coordinates in twos,
    also when a number could not be read (the three [push_back] calls do not
    look at the stream state); and the loop puts nothing in [tangents] and
    [bitangents] of [tempGeom]. *)
Theorem X2_pools_hold_whole_entries (fuel : nat) (content : list ascii) (st : loader) :
  read_loop fuel (open content) = Some st ->
  pools_aligned (tempGeom st).
Proof.
  apply read_loop_aligned. unfold open, start. cbn [tempGeom].
  repeat split; exists 0%nat; reflexivity.
Qed.

(** X3.  A line that starts with [#], after any whitespace, is dropped up to
    and including its newline: nothing is stored and nothing is printed. *)
Theorem X3_comment_line_is_dropped (lead : list ascii) (c2 : ascii)
    (junk : list ascii) :
  spaces lead -> c2 <> newline -> Forall (fun c => c <> newline) junk ->
  reads_as (lead ++ "#" :: c2 :: junk ++ [newline]) (fun geom => geom) [].
Proof. intros Hlead _ Hjunk. now apply reads_hash_line. Qed.

(** X4.  A line that holds [#] alone: the second [get] of NONE takes its
    newline, so COMMENT drops the whole line that follows as well. *)
Theorem X4_bare_hash_drops_the_next_line (lead next : list ascii) :
  spaces lead -> Forall (fun c => c <> newline) next ->
  reads_as (lead ++ "#" :: newline :: next ++ [newline]) (fun geom => geom) [].
Proof. intros Hlead Hnext. now apply reads_hash_line. Qed.

(** X5.  A line that starts with [v] followed by anything but a blank, [t]
    or [n] is reported (free-form geometry for [vp], unsupported entry
    otherwise) and dropped; nothing is stored. *)
Theorem X5_unsupported_v_entry_is_reported (lead : list ascii) (c2 : ascii)
    (junk : list ascii) :
  spaces lead -> Forall (fun c => c <> newline) junk ->
  c2 <> " " -> c2 <> tab -> c2 <> "t" -> c2 <> "n" ->
  reads_as (lead ++ "v" :: c2 :: junk ++ [newline]) (fun geom => geom)
    [if Ascii.eqb c2 "p" then FreeFormUnsupported else UnsupportedEntry c2].
Proof.
  intros Hlead Hjunk Hsp Htab Ht Hn.
  apply Ascii.eqb_neq in Hsp, Htab, Ht, Hn.
  assert (Hentry : v_entry c2 =
            (COMMENT,
             [if Ascii.eqb c2 "p" then FreeFormUnsupported else UnsupportedEntry c2])).
  { unfold v_entry. rewrite Hsp, Htab, Ht, Hn. cbn [orb].
    now destruct (Ascii.eqb c2 "p"). }
  pose proof (reads_unsupported_line lead c2 junk Hlead Hjunk) as Hreads.
  rewrite Hentry in Hreads. now apply Hreads.
Qed.

(** X6.  A position line [v x y z], with blanks between its fields and, if
    anything, whitespace-led text behind them: the three numbers are
    appended to the positions of [tempGeom] in the order read. *)
Theorem X6_vertex_line_appends_three_floats (lead : list ascii) (s0 : ascii)
    (pad0 t1 sep1 t2 sep2 t3 junk : list ascii) (x y z : float) :
  spaces lead -> blank s0 -> Forall blank pad0 ->
  separator sep1 -> separator sep2 ->
  float_text t1 x -> float_text t2 y -> float_text t3 z -> line_tail junk ->
  reads_as
    (lead ++ "v" :: s0 :: pad0 ++ t1 ++ sep1 ++ t2 ++ sep2 ++ t3 ++ junk ++ [newline])
    (fun geom =>
       MkGeometry (vertices geom ++ [x; y; z]) (textureCoords geom) (normals geom)
         (tangents geom) (bitangents geom) (faces geom)) [].
Proof.
  intros Hlead Hs0 Hp0 H1 H2 Hx Hy Hz Htail.
  exact (reads_vertex_line lead s0 pad0 t1 sep1 t2 sep2 t3 junk x y z
           Hlead Hs0 Hp0 H1 H2 Hx Hy Hz Htail).
Qed.

(** X7.  A texture-coordinate line [vt u v]: the two numbers are appended to
    the texture coordinates of [tempGeom]; a third number on the line is
    dropped with the rest of it. *)
Theorem X7_texcoord_line_appends_two_floats (lead sep0 t1 sep1 t2 junk : list ascii)
    (u v : float) :
  spaces lead -> Forall blank sep0 -> separator sep1 ->
  float_text t1 u -> float_text t2 v -> line_tail junk ->
  reads_as (lead ++ "v" :: "t" :: sep0 ++ t1 ++ sep1 ++ t2 ++ junk ++ [newline])
    (fun geom =>
       MkGeometry (vertices geom) (textureCoords geom ++ [u; v]) (normals geom)
         (tangents geom) (bitangents geom) (faces geom)) [].
Proof.
  intros Hlead H0 H1 Hu Hv Htail past rest geom out.
  destruct (line_tail_head junk rest Htail) as (c & r & E & Hc).
  destruct (read_two_floats ("t" :: "v" :: rev lead ++ past) sep0 t1 sep1 t2
              u v c r (blanks_spaces _ H0) H1 Hu Hv Hc) as (past1 & Hread).
  rewrite <- E in Hread.
  exists (2 + S (length junk))%nat. eexists.
  repeat (rewrite <- app_assoc; cbn [app]).
  eapply advance_app.
  - rewrite advance_S by reflexivity. rewrite step_NONE_v by assumption.
    change (v_entry "t") with (TEXTURECOORD, @nil diagnostic).
    cbn [fst snd]. rewrite advance_S by reflexivity.
    rewrite (proj1 (proj2 (step_floats 2 TEXTURECOORD _ _ _ _ _ Hread))
               (conj eq_refl eq_refl)).
    reflexivity.
  - rewrite !app_nil_r. apply advance_skip_line. now apply line_tail_no_newline.
Qed.

(** X8.  A normal line [vn x y z]: the three numbers are appended to the
    normals of [tempGeom]. *)
Theorem X8_normal_line_appends_three_floats
    (lead sep0 t1 sep1 t2 sep2 t3 junk : list ascii) (x y z : float) :
  spaces lead -> Forall blank sep0 -> separator sep1 -> separator sep2 ->
  float_text t1 x -> float_text t2 y -> float_text t3 z -> line_tail junk ->
  reads_as
    (lead ++ "v" :: "n" :: sep0 ++ t1 ++ sep1 ++ t2 ++ sep2 ++ t3 ++ junk ++ [newline])
    (fun geom =>
       MkGeometry (vertices geom) (textureCoords geom) (normals geom ++ [x; y; z])
         (tangents geom) (bitangents geom) (faces geom)) [].
Proof.
  intros Hlead H0 H1 H2 Hx Hy Hz Htail past rest geom out.
  destruct (line_tail_head junk rest Htail) as (c & r & E & Hc).
  destruct (read_three_floats ("n" :: "v" :: rev lead ++ past) sep0 t1 sep1 t2 sep2 t3
              x y z c r (blanks_spaces _ H0) H1 H2 Hx Hy Hz Hc) as (past1 & Hread).
  rewrite <- E in Hread.
  exists (2 + S (length junk))%nat. eexists.
  repeat (rewrite <- app_assoc; cbn [app]).
  eapply advance_app.
  - rewrite advance_S by reflexivity. rewrite step_NONE_v by assumption.
    change (v_entry "n") with (NORMAL, @nil diagnostic).
    cbn [fst snd]. rewrite advance_S by reflexivity.
    rewrite (proj2 (proj2 (step_floats 3 NORMAL _ _ _ _ _ Hread))
               (conj eq_refl eq_refl)).
    reflexivity.
  - rewrite !app_nil_r. apply advance_skip_line. now apply line_tail_no_newline.
Qed.

(** X9.  In NONE, two characters of which the first is none of [#], [f],
    [v]: the parse error is printed with both, and the loader is in NONE
    again right behind them.  Exactly two characters are consumed, whatever
    the second one is and whatever follows: the line is not skipped. *)
Theorem X9_unknown_directive_consumes_two_characters (lead : list ascii)
    (c1 c2 : ascii) :
  spaces lead -> is_space c1 = false ->
  c1 <> "#" -> c1 <> "f" -> c1 <> "v" ->
  reads_as (lead ++ [c1; c2]) (fun geom => geom) [ExpectedDirective c1 c2].
Proof.
  intros Hlead Hc1 Hhash Hf Hv past rest geom out.
  exists 1%nat. eexists. rewrite <- app_assoc. cbn [app].
  rewrite advance_S by reflexivity.
  rewrite step_NONE_unknown by assumption. reflexivity.
Qed.

(** X10.  A face line whose third corner is written with a slash ([v/t],
    [v//n] or [v/t/n]) and is followed at once by the newline: the face is
    stored and the loader is at the start of the next line. *)
Theorem X10_slash_corner_keeps_the_newline (lead sep0 sep1 sep2 : list ascii)
    (c0 c1 c2 : corner) :
  spaces lead -> separator sep0 -> separator sep1 -> separator sep2 ->
  corner_ok c0 -> corner_ok c1 -> corner_ok c2 ->
  (forall v, c2 <> Position v) ->
  reads_as (lead ++ face_line sep0 c0 sep1 c1 sep2 c2 ++ [newline])
    (fun geom =>
       MkGeometry (vertices geom) (textureCoords geom) (normals geom)
         (tangents geom) (bitangents geom) (faces geom ++ [face_of c0 c1 c2])) [].
Proof.
  intros Hlead H0 H1 H2 Hc0 Hc1 Hc2 Hslash past rest geom out.
  destruct (advance_face_line geom out past lead sep0 sep1 sep2 c0 c1 c2 newline
              rest Hlead H0 H1 H2 Hc0 Hc1 Hc2 newline_stop) as (past1 & Hadv).
  exists (2 + 1)%nat. eexists. rewrite app_nil_r.
  repeat (rewrite <- app_assoc; cbn [app]).
  repeat (rewrite <- app_assoc in Hadv; cbn [app] in Hadv).
  eapply advance_app; [exact Hadv |].
  destruct c2 as [v | v t | v n | v t n]; [now elim (Hslash v) | | |];
    cbn [corner_rest]; apply (advance_skip_line []); constructor.
Qed.

(** X11.  A face line whose third corner is a bare position index followed
    at once by the newline: the [get] that looks for a slash takes the
    newline and does not put it back, so the face is stored and the whole
    line that follows is dropped. *)
Theorem X11_bare_corner_drops_the_next_line (lead sep0 sep1 sep2 : list ascii)
    (c0 c1 : corner) (v : Z) (next : list ascii) :
  spaces lead -> separator sep0 -> separator sep1 -> separator sep2 ->
  corner_ok c0 -> corner_ok c1 -> index_ok v ->
  Forall (fun c => c <> newline) next ->
  reads_as
    (lead ++ face_line sep0 c0 sep1 c1 sep2 (Position v) ++ newline :: next ++ [newline])
    (fun geom =>
       MkGeometry (vertices geom) (textureCoords geom) (normals geom)
         (tangents geom) (bitangents geom) (faces geom ++ [face_of c0 c1 (Position v)])) [].
Proof.
  intros Hlead H0 H1 H2 Hc0 Hc1 Hv Hnext past rest geom out.
  destruct (advance_face_line geom out past lead sep0 sep1 sep2 c0 c1 (Position v)
              newline (next ++ newline :: rest) Hlead H0 H1 H2 Hc0 Hc1 Hv newline_stop)
    as (past1 & Hadv).
  exists (2 + S (length next))%nat. eexists. rewrite app_nil_r.
  repeat (rewrite <- app_assoc; cbn [app]).
  repeat (rewrite <- app_assoc in Hadv; cbn [app] in Hadv).
  eapply advance_app; [exact Hadv |].
  cbn [corner_rest]. now apply advance_skip_line.
Qed.

End LoopProperties.

(** * Properties of whole loads *)

Section LoadProperties.
Context `{FO : FloatOps}.
Import IStream FaceEndFacts.

(** X12.  A file whose text is read, chunk after chunk, as [content], and
    that ends in whitespace: the loop ends, and if the expansion of what was
    stored is defined, [loadFromOBJFile] returns the expanded object and has
    printed what the lines printed, then the success message with a third
    of the size of [vertices]. *)
Theorem X12_file_of_lines_loads (fs : filesystem) (filename : string)
    (content trail : list ascii) (effect : GeometryData -> GeometryData)
    (printed : list diagnostic) (this this' : GeometryData) :
  fs filename = Some (content ++ trail) ->
  reads_as content effect printed -> spaces trail ->
  expand (effect GeometryData_new) this = Some this' ->
  exists fuel,
    forall more,
      loadFromOBJFile (fuel + more) fs filename this =
      Returned this' (printed ++ [Loaded (Z.of_nat (length (vertices this')) / 3)]).
Proof.
  intros Hfs Hreads Htrail Hexp.
  destruct (read_loop_file content trail effect printed Hreads Htrail)
    as (fuel & past & Hloop).
  exists fuel. intros more.
  rewrite (loadFromOBJFile_opened _ _ _ _ _ Hfs), Hloop.
  cbn [tempGeom cout]. now rewrite Hexp.
Qed.

(** X13.  A file that ends right behind a third corner of the form [v/t],
    with no newline: the extraction of [t] sets [eofbit], the [get] that
    looks for a second slash fails, and the [unget] of the [else] branch
    clears [eofbit] and leaves [failbit].  The loop never ends. *)
Theorem X13_file_ending_in_texture_corner_never_loads (fs : filesystem)
    (filename : string) (prefix : list ascii)
    (effect : GeometryData -> GeometryData) (printed : list diagnostic)
    (lead sep0 sep1 sep2 : list ascii) (c0 c1 : corner) (v t : Z)
    (this : GeometryData) :
  fs filename =
    Some (prefix ++ lead ++ face_line sep0 c0 sep1 c1 sep2 (PositionTexture v t)) ->
  reads_as prefix effect printed ->
  spaces lead -> separator sep0 -> separator sep1 -> separator sep2 ->
  corner_ok c0 -> corner_ok c1 -> index_ok v -> index_ok t ->
  forall fuel, loadFromOBJFile fuel fs filename this = OutOfFuel.
Proof.
  intros Hfs Hreads Hlead H0 H1 H2 Hc0 Hc1 Hv Ht fuel.
  rewrite (loadFromOBJFile_opened _ _ _ _ _ Hfs).
  destruct (Hreads [] (lead ++ face_line sep0 c0 sep1 c1 sep2 (PositionTexture v t))
              GeometryData_new []) as (n & past1 & A1).
  destruct (advance_face_at_end (effect GeometryData_new) ([] ++ printed) past1 lead
              sep0 sep1 sep2 c0 c1 (PositionTexture v t) Hlead H0 H1 H2 Hc0 Hc1
              (conj Hv Ht)) as (past2 & A2).
  rewrite (advance_stalled_never (n + 2) _ _ (advance_app _ _ _ _ _ A1 A2));
    [reflexivity | split; reflexivity].
Qed.

(** X14.  A file that ends right behind a third corner of any other form
    ([v], [v//n], [v/t/n]), with no newline: [eofbit] stays set, the loop
    ends and the face is stored. *)
Theorem X14_face_at_end_of_file_is_stored (prefix : list ascii)
    (effect : GeometryData -> GeometryData) (printed : list diagnostic)
    (lead sep0 sep1 sep2 : list ascii) (c0 c1 c2 : corner) :
  reads_as prefix effect printed ->
  spaces lead -> separator sep0 -> separator sep1 -> separator sep2 ->
  corner_ok c0 -> corner_ok c1 -> corner_ok c2 ->
  (forall v t, c2 <> PositionTexture v t) ->
  exists fuel,
    forall more,
    exists st,
      read_loop (fuel + more)
        (open (prefix ++ lead ++ face_line sep0 c0 sep1 c1 sep2 c2)) = Some st /\
      faces (tempGeom st) = faces (effect GeometryData_new) ++ [face_of c0 c1 c2] /\
      vertices (tempGeom st) = vertices (effect GeometryData_new) /\
      textureCoords (tempGeom st) = textureCoords (effect GeometryData_new) /\
      normals (tempGeom st) = normals (effect GeometryData_new) /\
      cout st = printed.
Proof.
  intros Hreads Hlead H0 H1 H2 Hc0 Hc1 Hc2 Hform.
  destruct (Hreads [] (lead ++ face_line sep0 c0 sep1 c1 sep2 c2)
              GeometryData_new []) as (n & past1 & A1).
  destruct (advance_face_at_end (effect GeometryData_new) ([] ++ printed) past1 lead
              sep0 sep1 sep2 c0 c1 c2 Hlead H0 H1 H2 Hc0 Hc1 Hc2) as (past2 & A2).
  exists (n + 2)%nat. intros more. eexists.
  unfold open, start, of_text.
  rewrite (advance_read_loop _ _ _ more (advance_app _ _ _ _ _ A1 A2)).
  assert (Hbit : fst (end_bits c2) = true).
  { destruct c2 as [v | v t | v n0 | v t n0]; try reflexivity. now elim (Hform v t). }
  rewrite Hbit. split; [destruct more; reflexivity |]. repeat split.
Qed.

(** X15.  A face line with two corners only, followed after whitespace (the
    newline, say) by text that starts no integer: the third [>> vertIndex]
    fails before the end of the file, and the loop never ends. *)
Theorem X15_two_corner_face_never_loads (fs : filesystem) (filename : string)
    (prefix : list ascii) (effect : GeometryData -> GeometryData)
    (printed : list diagnostic) (lead sep0 sep1 : list ascii) (c0 c1 : corner)
    (s2 : ascii) (gap : list ascii) (c : ascii) (rest : list ascii)
    (this : GeometryData) :
  fs filename =
    Some (prefix ++ lead ++ "f" :: sep0 ++ corner_text c0 ++ sep1 ++ corner_text c1 ++
          s2 :: gap ++ c :: rest) ->
  reads_as prefix effect printed ->
  spaces lead -> separator sep0 -> separator sep1 ->
  corner_ok c0 -> corner_ok c1 ->
  is_space s2 = true -> spaces gap -> not_a_number c ->
  forall fuel, loadFromOBJFile fuel fs filename this = OutOfFuel.
Proof.
  intros Hfs Hreads Hlead H0 H1 Hc0 Hc1 Hs2 Hgap Hc fuel.
  rewrite (loadFromOBJFile_opened _ _ _ _ _ Hfs).
  destruct (Hreads []
              (lead ++ "f" :: sep0 ++ corner_text c0 ++ sep1 ++ corner_text c1 ++
               s2 :: gap ++ c :: rest) GeometryData_new []) as (n & past1 & A1).
  destruct (advance_short_face (effect GeometryData_new) ([] ++ printed) past1 lead
              sep0 sep1 c0 c1 s2 gap c rest Hlead H0 H1 Hc0 Hc1 Hs2 Hgap Hc)
    as (st' & A2 & Hst & _).
  now rewrite (advance_stalled_never (n + 2) _ _ (advance_app _ _ _ _ _ A1 A2) Hst).
Qed.

(** X16.  As long as the vectors of the object stay short enough for their
    sizes to fit an [int], the expansion is defined exactly when every
    index it looks up is inside its pool: the position indices of every
    face, and the texture and normal indices of the faces whose corner 0
    has them.  Nothing in the expansion checks an index; an index outside
    its pool (a position index 0 or less in the file, or one past the lines
    read) is an access outside a vector. *)
Theorem X16_expansion_defined_iff_indices_in_range (pools this : GeometryData) :
  Z.of_nat (length (vertices this)) + 9 * Z.of_nat (length (faces pools)) <= INT_MAX ->
  Z.of_nat (length (textureCoords this)) + 6 * Z.of_nat (length (faces pools))
    <= INT_MAX ->
  ((exists this', expand pools this = Some this') <->
   Forall (face_in_range pools) (faces pools)).
Proof.
  intros Hv Ht. unfold expand.
  replace (Z.of_nat (length (faces pools)) <=? INT_MAX) with true
    by (symmetry; apply Z.leb_le; lia).
  now apply expand_faces_in_range.
Qed.

(** X17.  A load that returns has appended six floats to [textureCoords]
    for every face whose corner 0 has a texture index and nine floats to
    [normals] for every face whose corner 0 has a normal index; the
    [faces] member of the object itself is left as it was (the faces read
    live in the local [tempGeom] only). *)
Theorem X17_texture_and_normal_growth (fuel : nat) (fs : filesystem)
    (filename : string) (content : list ascii) (this this' : GeometryData)
    (out : list diagnostic) :
  fs filename = Some content ->
  loadFromOBJFile fuel fs filename this = Returned this' out ->
  exists st,
    read_loop fuel (open content) = Some st /\
    length (textureCoords this') =
      (length (textureCoords this) + 6 * count hasTextureCoords (faces (tempGeom st)))%nat /\
    length (normals this') =
      (length (normals this) + 9 * count hasNormals (faces (tempGeom st)))%nat /\
    faces this' = faces this.
Proof.
  intros Hfs Hload.
  destruct (loadFromOBJFile_Returned fuel fs filename content this this' out Hfs Hload)
    as (st & Hloop & Hexp & _).
  exists st. split; [assumption |].
  apply expand_growth in Hexp
    as (_ & vs & ts & ns & tans & bitans & -> & _ & Lt & Ln & _).
  unfold append_buffers. cbn [textureCoords normals faces].
  rewrite !length_app, Lt, Ln. repeat split.
Qed.

(** X18.  A file that holds nothing, or whitespace only: the load returns
    the object as it was and prints the success message with the count the
    object already had. *)
Theorem X18_blank_file_changes_nothing (fuel : nat) (fs : filesystem)
    (filename : string) (content : list ascii) (this : GeometryData) :
  fs filename = Some content -> spaces content ->
  loadFromOBJFile (S fuel) fs filename this =
  Returned this [Loaded (Z.of_nat (length (vertices this)) / 3)].
Proof.
  intros Hfs Hblank.
  rewrite (loadFromOBJFile_opened _ _ _ _ _ Hfs), (read_loop_blank_file _ _ Hblank).
  reflexivity.
Qed.

End LoadProperties.

(** * Properties of the callers: render and main *)

Section CallerProperties.
Context `{FO : FloatOps}.

(** X19.  When [render] gets as far as drawing, and the mesh has at most
    [INT_MAX] floats, the arguments it hands to OpenGL agree with the
    buffer: [glBufferData] is given the size in bytes of exactly the floats
    of [vertices], [glDrawArrays] is given a third of their number, and
    that number is a multiple of nine, not zero (whole triangles). *)
Theorem X19_render_uploads_the_whole_buffer (fuel : nat) (fs : filesystem)
    (u : mesh_upload) :
  render_mesh fuel fs = Drawn u ->
  Z.of_nat (length (upload_data u)) <= INT_MAX ->
  upload_bytes u = sizeof_float * Z.of_nat (length (upload_data u)) /\
  3 * draw_count u = Z.of_nat (length (upload_data u)) /\
  Nat.divide 9 (length (upload_data u)) /\
  upload_data u <> [].
Proof.
  intros Hdrawn Hsize.
  destruct (render_mesh_Drawn fuel fs u Hdrawn)
    as (doggo & out & Hload & Hdata & Hne & Hcount & _ & Hbytes).
  pose proof (fresh_load_vertices _ _ _ _ _ Hload) as [k Hk].
  rewrite Hdata in *. rewrite Hbytes, Hcount. unfold vertexCount.
  assert (Hdiv : Z.of_nat (length (vertices doggo)) / 3 = 3 * Z.of_nat k).
  { rewrite Hk. replace (Z.of_nat (k * 9)) with (3 * Z.of_nat k * 3) by lia.
    apply Z.div_mul. lia. }
  rewrite Hdiv. unfold INT_MAX in Hsize.
  rewrite wrap_int_small by (unfold INT_MIN, INT_MAX; lia).
  rewrite (wrap_size_t_small (3 * Z.of_nat k * 3)) by lia.
  rewrite wrap_size_t_small by (unfold sizeof_float; lia).
  unfold sizeof_float. repeat split; try lia.
  - now exists k.
  - assumption.
Qed.

(** X20.  When the model file cannot be opened, or holds whitespace only,
    the load returns with [vertices] empty and [render] goes on to
    [vertexData()], which evaluates [vertices[0]] on an empty vector:
    [render] does not check what the load did. *)
Theorem X20_render_without_a_mesh_is_undefined (fuel : nat) (fs : filesystem) :
  fs doggo_path = None \/
  (exists content, fs doggo_path = Some content /\ spaces content) ->
  render_mesh (S fuel) fs = RenderUndefined.
Proof.
  intros [Hnone | (content & Hfs & Hblank)]; unfold render_mesh.
  - unfold loadFromOBJFile, ifstream_open. rewrite Hnone. reflexivity.
  - rewrite (loadFromOBJFile_opened _ _ _ _ _ Hfs), (read_loop_blank_file _ _ Hblank).
    reflexivity.
Qed.

End CallerProperties.


(** X22.  The event loop of [main] clears [running] exactly when a quit
    event or an Escape key press is among the events it is given; it has no
    [break], and no later event sets [running] again. *)
Theorem X22_main_poll_stops_on_quit_or_escape (events : list SDL_Event) :
  main_poll true events = false <->
  Exists (fun e => e = SDL_QUIT \/ e = SDL_KEYDOWN SDLK_ESCAPE) events.
Proof.
  induction events as [| e more IH].
  - split; [discriminate | intros H; inversion H].
  - destruct e as [| sym | y |]; cbn [main_poll handleEvent negb].
    + split; [intros _; left; now left | intros _; apply main_poll_stopped].
    + destruct (sym =? SDLK_ESCAPE) eqn:Hsym; cbn [negb].
      * apply Z.eqb_eq in Hsym. subst sym.
        split; [intros _; left; now right | intros _; apply main_poll_stopped].
      * apply Z.eqb_neq in Hsym. rewrite IH. split; [now right |].
        intros H. inversion H as [? ? [Hq | Hk] | ? ? Hmore]; subst;
          [discriminate | congruence | assumption].
    + rewrite IH. split; [now right |].
      intros H. inversion H as [? ? [Hq | Hk] | ? ? Hmore]; subst;
        [discriminate | discriminate | assumption].
    + rewrite IH. split; [now right |].
      intros H. inversion H as [? ? [Hq | Hk] | ? ? Hmore]; subst;
        [discriminate | discriminate | assumption].
Qed.


(** * The further properties on the sample files *)

Lemma blank_space : blank " ".
Proof. left. reflexivity. Defined.

Lemma no_newline_in (l : list ascii) :
  forallb (fun c => negb (Ascii.eqb c newline)) l = true ->
  Forall (fun c => c <> newline) l.
Proof.
  intros H. apply Forall_forall. intros c Hc.
  rewrite forallb_forall in H. specialize (H c Hc).
  apply Ascii.eqb_neq. now destruct (Ascii.eqb c newline).
Qed.

(** The file [v 1 2 x]: the third number cannot be read. *)
Lemma X1_witness :
  loadFromOBJFile 1000 (fun _ => Some (text "v 1 2 x")) "bad.obj"%string
    GeometryData_new = OutOfFuel.
Proof.
  eapply (@X1_failed_read_keeps_the_loop_running SymbolicFloat
            (fun _ => Some (text "v 1 2 x")) "bad.obj"%string (text "v 1 2 x") 2).
  - reflexivity.
  - vm_compute. reflexivity.
  - split; reflexivity.
Defined.

Lemma X2_witness : pools_aligned (tempGeom triangle_loader).
Proof.
  apply (@X2_pools_hold_whole_entries SymbolicFloat 200 (text triangle_obj)
           triangle_loader).
  vm_compute. reflexivity.
Defined.

(** The line [# note]. *)
Lemma X3_witness :
  exists n past',
    advance n
      (MkLoader (IStream.Mk [] (text (lines ["# note"]%string)) false false false)
         NONE GeometryData_new []) =
    Some (MkLoader (IStream.Mk past' [] false false false) NONE GeometryData_new []).
Proof.
  refine (@X3_comment_line_is_dropped SymbolicFloat [] " " (text "note") _ _ _
            [] [] GeometryData_new []).
  - exact spaces_nil.
  - discriminate.
  - apply no_newline_in. reflexivity.
Defined.

(** The lines [#] and [v 0 0 0]: the position line is dropped. *)
Lemma X4_witness :
  exists n past',
    advance n
      (MkLoader
         (IStream.Mk [] (text (lines ["#"; "v 0 0 0"]%string)) false false false)
         NONE GeometryData_new []) =
    Some (MkLoader (IStream.Mk past' [] false false false) NONE GeometryData_new []).
Proof.
  refine (@X4_bare_hash_drops_the_next_line SymbolicFloat [] (text "v 0 0 0") _ _
            [] [] GeometryData_new []).
  - exact spaces_nil.
  - apply no_newline_in. reflexivity.
Defined.

(** The line [vp 0 0]. *)
Lemma X5_witness :
  exists n past',
    advance n
      (MkLoader (IStream.Mk [] (text (lines ["vp 0 0"]%string)) false false false)
         NONE GeometryData_new []) =
    Some (MkLoader (IStream.Mk past' [] false false false) NONE GeometryData_new
            [FreeFormUnsupported]).
Proof.
  refine (@X5_unsupported_v_entry_is_reported SymbolicFloat [] "p" (text " 0 0")
            _ _ _ _ _ _ [] [] GeometryData_new []).
  - exact spaces_nil.
  - apply no_newline_in. reflexivity.
  - discriminate.
  - discriminate.
  - discriminate.
  - discriminate.
Defined.

(** The line [v 0 1 0]. *)
Lemma X6_witness :
  exists n past',
    advance n
      (MkLoader (IStream.Mk [] (text (lines ["v 0 1 0"]%string)) false false false)
         NONE triangle_pools []) =
    Some (MkLoader (IStream.Mk past' [] false false false) NONE
            (MkGeometry (vertices triangle_pools ++ [SLit "0"; SLit "1"; SLit "0"])
               (textureCoords triangle_pools) (normals triangle_pools) [] []
               (faces triangle_pools))
            []).
Proof.
  refine (@X6_vertex_line_appends_three_floats SymbolicFloat [] " " []
            (text "0") [" "] (text "1") [" "] (text "0") []
            (SLit "0") (SLit "1") (SLit "0") _ _ _ _ _ _ _ _ _
            [] [] triangle_pools []).
  - exact spaces_nil.
  - exact blank_space.
  - constructor.
  - exact separator_space.
  - exact separator_space.
  - exact float_text_0.
  - exact float_text_1.
  - exact float_text_0.
  - exact line_tail_nil.
Defined.

(** The line [vt 1 0]. *)
Lemma X7_witness :
  exists n past',
    advance n
      (MkLoader (IStream.Mk [] (text (lines ["vt 1 0"]%string)) false false false)
         NONE triangle_pools []) =
    Some (MkLoader (IStream.Mk past' [] false false false) NONE
            (MkGeometry (vertices triangle_pools)
               (textureCoords triangle_pools ++ [SLit "1"; SLit "0"])
               (normals triangle_pools) [] [] (faces triangle_pools))
            []).
Proof.
  refine (@X7_texcoord_line_appends_two_floats SymbolicFloat [] [" "]
            (text "1") [" "] (text "0") [] (SLit "1") (SLit "0") _ _ _ _ _ _
            [] [] triangle_pools []).
  - exact spaces_nil.
  - constructor; [exact blank_space | constructor].
  - exact separator_space.
  - exact float_text_1.
  - exact float_text_0.
  - exact line_tail_nil.
Defined.

(** The line [vn 0 0 1]. *)
Lemma X8_witness :
  exists n past',
    advance n
      (MkLoader (IStream.Mk [] (text (lines ["vn 0 0 1"]%string)) false false false)
         NONE triangle_pools []) =
    Some (MkLoader (IStream.Mk past' [] false false false) NONE
            (MkGeometry (vertices triangle_pools) (textureCoords triangle_pools)
               (normals triangle_pools ++ [SLit "0"; SLit "0"; SLit "1"]) [] []
               (faces triangle_pools))
            []).
Proof.
  refine (@X8_normal_line_appends_three_floats SymbolicFloat [] [" "]
            (text "0") [" "] (text "0") [" "] (text "1") []
            (SLit "0") (SLit "0") (SLit "1") _ _ _ _ _ _ _ _
            [] [] triangle_pools []).
  - exact spaces_nil.
  - constructor; [exact blank_space | constructor].
  - exact separator_space.
  - exact separator_space.
  - exact float_text_0.
  - exact float_text_0.
  - exact float_text_1.
  - exact line_tail_nil.
Defined.

(** The text [s off]: behind [s ] the loader is in NONE in front of [off]. *)
Lemma X9_witness :
  exists n past',
    advance n
      (MkLoader (IStream.Mk [] (text "s off") false false false)
         NONE GeometryData_new []) =
    Some (MkLoader (IStream.Mk past' (text "off") false false false) NONE
            GeometryData_new [ExpectedDirective "s" " "]).
Proof.
  refine (@X9_unknown_directive_consumes_two_characters SymbolicFloat [] "s" " "
            _ _ _ _ _ [] (text "off") GeometryData_new []).
  - exact spaces_nil.
  - reflexivity.
  - discriminate.
  - discriminate.
  - discriminate.
Defined.

(** The line [f 1/1 2/2 3/3]. *)
Lemma X10_witness :
  exists n past',
    advance n
      (MkLoader
         (IStream.Mk [] (text (lines ["f 1/1 2/2 3/3"]%string)) false false false)
         NONE triangle_pools []) =
    Some (MkLoader (IStream.Mk past' [] false false false) NONE
            (MkGeometry (vertices triangle_pools) (textureCoords triangle_pools)
               (normals triangle_pools) [] []
               (faces triangle_pools ++ [MkFace [0; 1; 2] [0; 1; 2] [-1; -1; -1]]))
            []).
Proof.
  refine (@X10_slash_corner_keeps_the_newline SymbolicFloat [] [" "] [" "] [" "]
            (PositionTexture 1 1) (PositionTexture 2 2) (PositionTexture 3 3)
            _ _ _ _ _ _ _ _ [] [] triangle_pools []).
  - exact spaces_nil.
  - exact separator_space.
  - exact separator_space.
  - exact separator_space.
  - split; apply index_ok_small; lia.
  - split; apply index_ok_small; lia.
  - split; apply index_ok_small; lia.
  - discriminate.
Defined.

(** The lines [f 1 2 3] and [f 4 5 6]: one face is stored. *)
Lemma X11_witness :
  exists n past',
    advance n
      (MkLoader
         (IStream.Mk [] (text (lines ["f 1 2 3"; "f 4 5 6"]%string)) false false false)
         NONE triangle_pools []) =
    Some (MkLoader (IStream.Mk past' [] false false false) NONE
            (MkGeometry (vertices triangle_pools) (textureCoords triangle_pools)
               (normals triangle_pools) [] []
               (faces triangle_pools ++ [MkFace [0; 1; 2] [-1; -1; -1] [-1; -1; -1]]))
            []).
Proof.
  refine (@X11_bare_corner_drops_the_next_line SymbolicFloat [] [" "] [" "] [" "]
            (Position 1) (Position 2) 3 (text "f 4 5 6") _ _ _ _ _ _ _ _
            [] [] triangle_pools []).
  - exact spaces_nil.
  - exact separator_space.
  - exact separator_space.
  - exact separator_space.
  - apply index_ok_small. lia.
  - apply index_ok_small. lia.
  - apply index_ok_small. lia.
  - apply no_newline_in. reflexivity.
Defined.

(** [one_triangle_obj], line by line. *)
Lemma one_triangle_reads :
  @reads_as SymbolicFloat (text one_triangle_obj)
    (fun geom =>
       push_face
         (push_vertices
            (push_vertices
               (push_vertices geom [SLit "0"; SLit "0"; SLit "0"])
               [SLit "1"; SLit "0"; SLit "0"])
            [SLit "0"; SLit "1"; SLit "0"])
         (MkFace [0; 1; 2] [-1; -1; -1] [-1; -1; -1]))
    [].
Proof.
  assert (V : forall t1 t2 t3 x y z,
             @float_text SymbolicFloat t1 x -> @float_text SymbolicFloat t2 y ->
             @float_text SymbolicFloat t3 z ->
             @reads_as SymbolicFloat
               ([] ++ "v" :: " " :: [] ++ t1 ++ [" "] ++ t2 ++ [" "] ++ t3 ++ [] ++ [newline])
               (fun geom => push_vertices geom [x; y; z]) []).
  { intros t1 t2 t3 x y z Hx Hy Hz.
    apply reads_vertex_line;
      auto using spaces_nil, blank_space, separator_space, line_tail_nil. }
  assert (F : @reads_as SymbolicFloat
                ([] ++ face_line [" "] (Position 1) [" "] (Position 2) [" "] (Position 3)
                 ++ " " :: [] ++ [newline])
                (fun geom =>
                   push_face geom (face_of (Position 1) (Position 2) (Position 3))) []).
  { apply reads_long_face_line;
      auto using spaces_nil, blank_space, separator_space;
      try (apply index_ok_small; lia). }
  exact (reads_as_app _ _ _ _ _ _
           (V _ _ _ _ _ _ float_text_0 float_text_0 float_text_0)
           (reads_as_app _ _ _ _ _ _
              (V _ _ _ _ _ _ float_text_1 float_text_0 float_text_0)
              (reads_as_app _ _ _ _ _ _
                 (V _ _ _ _ _ _ float_text_0 float_text_1 float_text_0) F))).
Qed.

Lemma X12_witness :
  exists fuel,
    forall more,
      loadFromOBJFile (fuel + more) (fun _ => Some (text one_triangle_obj))
        "one.obj"%string GeometryData_new =
      Returned one_triangle_mesh [Loaded 3].
Proof.
  refine (@X12_file_of_lines_loads SymbolicFloat
            (fun _ => Some (text one_triangle_obj)) "one.obj"%string
            (text one_triangle_obj) [] _ [] GeometryData_new one_triangle_mesh
            _ one_triangle_reads _ _).
  - reflexivity.
  - exact spaces_nil.
  - vm_compute. reflexivity.
Defined.

(** The file [f 1/1 2/2 3/3] without a newline at its end. *)
Lemma X13_witness :
  loadFromOBJFile 1000 (fun _ => Some (text "f 1/1 2/2 3/3")) "a.obj"%string
    GeometryData_new = OutOfFuel.
Proof.
  refine (@X13_file_ending_in_texture_corner_never_loads SymbolicFloat
            (fun _ => Some (text "f 1/1 2/2 3/3")) "a.obj"%string [] (fun geom => geom) []
            [] [" "] [" "] [" "] (PositionTexture 1 1) (PositionTexture 2 2) 3 3
            GeometryData_new _ reads_as_nil _ _ _ _ _ _ _ _ 1000%nat).
  - reflexivity.
  - exact spaces_nil.
  - exact separator_space.
  - exact separator_space.
  - exact separator_space.
  - split; apply index_ok_small; lia.
  - split; apply index_ok_small; lia.
  - apply index_ok_small. lia.
  - apply index_ok_small. lia.
Defined.

(** The file [f 1 2 3] without a newline at its end. *)
Lemma X14_witness :
  exists fuel,
    forall more,
    exists st,
      read_loop (fuel + more) (open (text "f 1 2 3")) = Some st /\
      faces (tempGeom st) = [MkFace [0; 1; 2] [-1; -1; -1] [-1; -1; -1]] /\
      vertices (tempGeom st) = [] /\ textureCoords (tempGeom st) = [] /\
      normals (tempGeom st) = [] /\ cout st = [].
Proof.
  refine (@X14_face_at_end_of_file_is_stored SymbolicFloat [] (fun geom => geom) []
            [] [" "] [" "] [" "] (Position 1) (Position 2) (Position 3)
            reads_as_nil _ _ _ _ _ _ _ _).
  - exact spaces_nil.
  - exact separator_space.
  - exact separator_space.
  - exact separator_space.
  - apply index_ok_small. lia.
  - apply index_ok_small. lia.
  - apply index_ok_small. lia.
  - discriminate.
Defined.

(** The lines [f 1 2] and [v 0 0 0]. *)
Lemma X15_witness :
  loadFromOBJFile 1000 (fun _ => Some (text (lines ["f 1 2"; "v 0 0 0"]%string)))
    "a.obj"%string GeometryData_new = OutOfFuel.
Proof.
  refine (@X15_two_corner_face_never_loads SymbolicFloat
            (fun _ => Some (text (lines ["f 1 2"; "v 0 0 0"]%string))) "a.obj"%string
            [] (fun geom => geom) [] [] [" "] [" "] (Position 1) (Position 2)
            newline [] "v" (text (lines [" 0 0 0"]%string)) GeometryData_new
            _ reads_as_nil _ _ _ _ _ _ _ _ 1000%nat).
  - reflexivity.
  - exact spaces_nil.
  - exact separator_space.
  - exact separator_space.
  - apply index_ok_small. lia.
  - apply index_ok_small. lia.
  - reflexivity.
  - exact spaces_nil.
  - repeat split; discriminate.
Defined.

Lemma X16_witness :
  (exists this', expand triangle_pools GeometryData_new = Some this') <->
  Forall (face_in_range triangle_pools) (faces triangle_pools).
Proof.
  apply (@X16_expansion_defined_iff_indices_in_range SymbolicFloat triangle_pools
           GeometryData_new).
  - vm_compute. discriminate.
  - vm_compute. discriminate.
Defined.

Lemma X17_witness :
  exists st,
    read_loop 200 (open (text triangle_obj)) = Some st /\
    length (textureCoords triangle_mesh) =
      (length (textureCoords GeometryData_new) +
       6 * count hasTextureCoords (faces (tempGeom st)))%nat /\
    length (normals triangle_mesh) =
      (length (normals GeometryData_new) +
       9 * count hasNormals (faces (tempGeom st)))%nat /\
    faces triangle_mesh = faces GeometryData_new.
Proof.
  apply (@X17_texture_and_normal_growth SymbolicFloat 200 sample_files
           "triangle.obj"%string (text triangle_obj) GeometryData_new triangle_mesh
           triangle_out).
  - reflexivity.
  - vm_compute. reflexivity.
Defined.

(** A file of two blanks, loaded into the triangle mesh. *)
Lemma X18_witness :
  loadFromOBJFile 1 (fun _ => Some (text "  ")) "blank.obj"%string triangle_mesh =
  Returned triangle_mesh [Loaded 6].
Proof.
  refine (@X18_blank_file_changes_nothing SymbolicFloat 0
            (fun _ => Some (text "  ")) "blank.obj"%string (text "  ") triangle_mesh
            _ _).
  - reflexivity.
  - repeat constructor.
Defined.

Lemma X19_witness :
  upload_bytes triangle_upload = 72 /\ draw_count triangle_upload = 6 /\
  length (upload_data triangle_upload) = 18%nat.
Proof.
  destruct (@X19_render_uploads_the_whole_buffer SymbolicFloat 200
              (fun _ => Some (text triangle_obj)) triangle_upload)
    as (Hbytes & Hcount & _ & _).
  - vm_compute. reflexivity.
  - vm_compute. discriminate.
  - rewrite Hbytes. split; [reflexivity |]. split; [| reflexivity].
    change (Z.of_nat (length (upload_data triangle_upload))) with 18 in Hcount. lia.
Defined.

Lemma X20_witness : render_mesh 1 (fun _ => None) = RenderUndefined.
Proof.
  apply (@X20_render_without_a_mesh_is_undefined SymbolicFloat 0 (fun _ => None)).
  left. reflexivity.
Defined.


